(** * mm-portal: the component catalogue generator [automate.py]

    A shallow embedding of the batch script that validates the entries of
    [static/components/data.json], resolves their images and writes one
    [index.md] per component, together with the properties of its
    specification.

    The script is effectful: it reads and writes the file system, fetches
    URLs and draws UUIDs.  The embedding threads an explicit [state] (file
    system, UUID counter, log of file-system mutations) through a small
    state-and-exception monad; what the script only observes (the network,
    the clock, the working directory, [datetime.strptime]) is collected in
    an environment record [env]. *)

From stdpp Require Import gmap strings list fin_maps.
From Stdlib Require Import Ascii String.

Local Open Scope string_scope.
Local Open Scope list_scope.

(** ** Strings *)

Module Str.

(** [s.split(sep)] for a one-character separator. *)
Fixpoint split_on (sep : ascii) (s : string) : list string :=
  match s with
  | EmptyString => [EmptyString]
  | String c s' =>
      if Ascii.eqb c sep then EmptyString :: split_on sep s'
      else match split_on sep s' with
           | [] => [String c EmptyString]
           | h :: t => String c h :: t
           end
  end.

(** [l[-1]] on a list of strings that is never empty here. *)
Definition last_piece (l : list string) : string := List.last l "".

(** [c in s]. *)
Fixpoint contains (c : ascii) (s : string) : bool :=
  match s with
  | EmptyString => false
  | String d s' => Ascii.eqb d c || contains c s'
  end.

(** [s.startswith(p)]. *)
Fixpoint startswith (s p : string) {struct p} : bool :=
  match p with
  | EmptyString => true
  | String a p' =>
      match s with
      | EmptyString => false
      | String b s' => Ascii.eqb b a && startswith s' p'
      end
  end.

(** [s.endswith(p)] for a one-character [p]. *)
Fixpoint ends_with_char (c : ascii) (s : string) : bool :=
  match s with
  | EmptyString => false
  | String d EmptyString => Ascii.eqb d c
  | String _ s' => ends_with_char c s'
  end.

(** [sep.join(l)]. *)
Definition join (sep : string) (l : list string) : string := String.concat sep l.

(** [s.split("\n")]: the lines of a text. *)
Definition nl : ascii := "010"%char.
Definition lines (s : string) : list string := split_on nl s.

End Str.

(** ** Paths ([pathlib.PurePosixPath]) *)

(** A pure path is an anchor (absolute or not) and its parts.  Parsing a
    string drops empty components and ["."], and keeps [".."]. *)
Record Path := mkPath { is_absolute : bool; parts : list string }.

Definition keep_part (c : string) : bool :=
  negb (String.eqb c "") && negb (String.eqb c ".").

Definition path_of_string (s : string) : Path :=
  {| is_absolute := Str.startswith s "/";
     parts := List.filter keep_part (Str.split_on "/" s) |}.

(** [p / q]. *)
Definition joinpath (p q : Path) : Path :=
  if is_absolute q then q
  else {| is_absolute := is_absolute p; parts := parts p ++ parts q |}.

(** [str(p)]. *)
Definition path_str (p : Path) : string :=
  if is_absolute p then "/" +:+ Str.join "/" (parts p)
  else match parts p with
       | [] => "."
       | _ => Str.join "/" (parts p)
       end.

(** [p.name]: the final part, or the empty string. *)
Definition path_name (p : Path) : string := List.last (parts p) "".

(** [os.path.basename(s)] and [os.path.join(a, b)]. *)
Definition basename (s : string) : string := Str.last_piece (Str.split_on "/" s).

Definition os_path_join (a b : string) : string :=
  if Str.startswith b "/" then b
  else if String.eqb a "" || Str.ends_with_char "/" a then a +:+ b
  else a +:+ "/" +:+ b.

(** ** The file system *)

(** Entries are keyed by their resolved absolute location, the list of
    names from the root.  The root itself is always a directory.  There are
    no symbolic links, permissions or special files. *)
Inductive node := File (content : string) | Dir.

#[global] Instance node_eq_dec : EqDecision node.
Proof. solve_decision. Defined.

Abbreviation loc := (list string).

Definition fs_node (m : gmap loc node) (q : loc) : option node :=
  match q with
  | [] => Some Dir
  | _ => m !! q
  end.

Definition dir_at (m : gmap loc node) (q : loc) : bool :=
  match fs_node m q with Some Dir => true | _ => false end.

Definition file_at (m : gmap loc node) (q : loc) : bool :=
  match fs_node m q with Some (File _) => true | _ => false end.

Definition parent (q : loc) : loc := removelast q.

(** Path resolution as the kernel does it, component by component: an
    empty component or ["."] needs the current location to be a directory,
    [".."] needs the same and moves to its parent, any other name descends. *)
Fixpoint walk (m : gmap loc node) (cur : loc) (comps : list string) : option loc :=
  match comps with
  | [] => Some cur
  | c :: rest =>
      if String.eqb c "" || String.eqb c "." then
        if dir_at m cur then walk m cur rest else None
      else if String.eqb c ".." then
        if dir_at m cur then walk m (parent cur) rest else None
      else walk m (cur ++ [c]) rest
  end.

(** Mutations of the file system, as logged in the state. *)
Inductive event :=
  | EvMkdir (q : loc)
  | EvRmtree (q : loc)
  | EvWrite (q : loc).

#[global] Instance event_eq_dec : EqDecision event.
Proof. solve_decision. Defined.

(** ** Exceptions, environment, state *)

(** Errors of the operating system, by [errno].  [ENOENT] is also what a
    path that does not resolve gives (the kernel has [ENOTDIR] for some of
    these); [ESAME] stands for [shutil.SameFileError]. *)
Inductive os_error :=
  ENOENT | EEXIST | EISDIR | ENOTDIR | ENOTEMPTY | EBUSY | EINVAL | ESAME.

(** One line of a pydantic [ValidationError]: what went wrong at a field. *)
Inductive verr :=
  | MissingError            (* required field absent *)
  | ExtraError              (* field not declared, [extra = "forbid"] *)
  | NoneIsNotAllowedError   (* [null] for a field that is not Optional *)
  | StrError                (* value is not a string (nor a number) *)
  | ListError               (* value is not a list *)
  | EnumMemberError         (* value is not the value of a [TagEnum] member *)
  | ValidatorValueError     (* a validator raised [ValueError] *)
  | ValidatorTypeError      (* a validator raised [TypeError] *)
  | ValidatorAssertionError (* a validator raised [AssertionError] *).

Inductive exn :=
  | ValidationError (errors : list (string * verr))
  | TypeError
  | ValueError
  | AssertionError
  | NameError
  | AttributeError
  | RecursionError
  | InvalidURL         (* requests: MissingSchema, InvalidSchema, InvalidURL;
                          all of them are also [ValueError]s *)
  | RequestException   (* requests: ConnectionError, Timeout, ... *)
  | OSError (e : os_error).

#[global] Instance os_error_eq_dec : EqDecision os_error.
Proof. solve_decision. Defined.
#[global] Instance verr_eq_dec : EqDecision verr.
Proof. solve_decision. Defined.
#[global] Instance exn_eq_dec : EqDecision exn.
Proof. solve_decision. Defined.

(** What [requests.get(url)] does. *)
Inductive http_outcome :=
  | HttpResponse (status_code : nat) (body : string)
  | HttpInvalidURL
  | HttpFailure.

(** What the script observes and does not change. *)
Record env := mkEnv {
  cwd : loc;                          (* os.getcwd(), resolved *)
  http_get : string -> http_outcome;  (* requests.get *)
  strptime_ok : string -> bool;       (* datetime.strptime(v, "%Y-%m-%d") returns *)
  today : string;                     (* date.today().strftime("%Y-%m-%d") *)
  uuid4 : nat -> string;              (* str(uuid.uuid4()) of the n-th draw *)
  recursion_limit : nat               (* nested calls left for random_file *)
}.

Record state := mkState {
  fs : gmap loc node;
  draws : nat;              (* UUIDs drawn so far *)
  trace : list event        (* file-system mutations, oldest first *)
}.

Inductive result (A : Type) :=
  | Ok (a : A)
  | Raise (e : exn).
Arguments Ok {A} a.
Arguments Raise {A} e.

(** Computations: a result and the state left behind, also on failure. *)
Definition M (A : Type) : Type := state -> result A * state.

Definition ret {A} (a : A) : M A := fun s => (Ok a, s).
Definition raise {A} (e : exn) : M A := fun s => (Raise e, s).
Definition bind {A B} (m : M A) (k : A -> M B) : M B :=
  fun s => match m s with
           | (Ok a, s') => k a s'
           | (Raise e, s') => (Raise e, s')
           end.

Notation "'do' x <- m ; k" := (bind m (fun x => k))
  (at level 10, x name, m at level 100, k at level 200).
Notation "'do_' m ; k" := (bind m (fun _ => k))
  (at level 10, m at level 100, k at level 200).

(** [assert b] with the exception its failure raises. *)
Definition assert_ (b : bool) : M unit :=
  if b then ret tt else raise AssertionError.

(** [for x in l: body(x)]: the first exception ends the loop. *)
Fixpoint for_each {A} (body : A -> M unit) (l : list A) : M unit :=
  match l with
  | [] => ret tt
  | x :: l' => do_ body x; for_each body l'
  end.

Section Script.

Variable E : env.

(** *** File-system operations *)

(** Resolution of a path string given to a system call. *)
Definition resolve (m : gmap loc node) (s : string) : option loc :=
  if String.eqb s "" then None
  else if Str.startswith s "/" then walk m [] (Str.split_on "/" s)
  else if dir_at m (cwd E) then walk m (cwd E) (Str.split_on "/" s)
  else None.

(** [Path.is_file()], [Path.is_dir()]: false when the path does not resolve. *)
Definition is_file (p : Path) : M bool :=
  fun s => (Ok (match resolve (fs s) (path_str p) with
                | Some q => file_at (fs s) q
                | None => false
                end), s).

Definition is_dir (p : Path) : M bool :=
  fun s => (Ok (match resolve (fs s) (path_str p) with
                | Some q => dir_at (fs s) q
                | None => false
                end), s).

(** [Path.absolute()]. *)
Definition absolute (p : Path) : Path :=
  if is_absolute p then p
  else {| is_absolute := true; parts := cwd E ++ parts p |}.

Definition update_fs (m : gmap loc node) (ev : event) (s : state) : state :=
  {| fs := m; draws := draws s; trace := trace s ++ [ev] |}.

(** [Path.mkdir()]: without [parents] and [exist_ok]. *)
Definition mkdir (p : Path) : M unit :=
  fun s => match resolve (fs s) (path_str p) with
           | None => (Raise (OSError ENOENT), s)
           | Some q =>
               match fs_node (fs s) q with
               | Some _ => (Raise (OSError EEXIST), s)
               | None =>
                   if dir_at (fs s) (parent q)
                   then (Ok tt, update_fs (<[q := Dir]> (fs s)) (EvMkdir q) s)
                   else (Raise (OSError ENOENT), s)
               end
           end.

(** [k] lies below the directory [q]. *)
Definition below (q : loc) (k : loc) : bool :=
  bool_decide (q `prefix_of` k) && negb (bool_decide (k = q)).

(** [shutil.rmtree(p)]: everything below the directory goes first, through
    the directory's descriptor; then [os.rmdir(p)] removes the directory
    itself, and fails on the root, on ["."], on a path that no longer
    resolves (one that runs through what was just removed), and on a path
    that ends in [".."]. *)
Definition rmtree (p : Path) : M unit :=
  fun s => match resolve (fs s) (path_str p) with
           | None => (Raise (OSError ENOENT), s)
           | Some q =>
               if dir_at (fs s) q then
                 let emptied := filter (fun kv => below q kv.1 = false) (fs s) in
                 let failed e := (Raise (OSError e), update_fs emptied (EvRmtree q) s) in
                 if bool_decide (q = []) then failed EBUSY
                 else if String.eqb (path_str p) "." then failed EINVAL
                 else match resolve emptied (path_str p) with
                      | None => failed ENOENT
                      | Some _ =>
                          if String.eqb (path_name p) ".." then failed ENOTEMPTY
                          else (Ok tt, update_fs (delete q emptied) (EvRmtree q) s)
                      end
               else (Raise (OSError ENOTDIR), s)
           end.

(** [open(name, "w")] (or ["wb"]), writing [content], and closing. *)
Definition write_file (name : string) (content : string) : M unit :=
  fun s => match resolve (fs s) name with
           | None => (Raise (OSError ENOENT), s)
           | Some q =>
               if dir_at (fs s) q then (Raise (OSError EISDIR), s)
               else if dir_at (fs s) (parent q)
               then (Ok tt, update_fs (<[q := File content]> (fs s)) (EvWrite q) s)
               else (Raise (OSError ENOENT), s)
           end.

(** [open(name, "rb").read()]. *)
Definition read_file (name : string) : M string :=
  fun s => match resolve (fs s) name with
           | None => (Raise (OSError ENOENT), s)
           | Some q =>
               match fs_node (fs s) q with
               | Some (File c) => (Ok c, s)
               | Some Dir => (Raise (OSError EISDIR), s)
               | None => (Raise (OSError ENOENT), s)
               end
           end.

(** [os.path.samefile], false when either name does not exist. *)
Definition samefile (a b : string) : M bool :=
  fun s => (Ok (match resolve (fs s) a, resolve (fs s) b with
                | Some qa, Some qb =>
                    bool_decide (qa = qb) && bool_decide (is_Some (fs_node (fs s) qa))
                | _, _ => false
                end), s).

(** [shutil.copy(src, dst)]: into [dst] when it is a directory. *)
Definition copy (src : string) (dst : Path) : M unit :=
  do d <- is_dir dst;
  let target := if d then os_path_join (path_str dst) (basename src)
                else path_str dst in
  do same <- samefile src target;
  if same then raise (OSError ESAME)
  else do content <- read_file src; write_file target content.

(** *** [random_file] (lines 32-59) *)

(** [uuid.uuid4()], as text. *)
Definition draw_uuid : M string :=
  fun s => (Ok (uuid4 E (draws s)),
            {| fs := fs s; draws := S (draws s); trace := trace s |}).

(** [path] is [None] for a falsy argument (the empty string); a [Path]
    object is always truthy.  [depth] counts the nested calls Python still
    allows: when none is left the call raises [RecursionError]. *)
Fixpoint random_file (depth : nat) (suffix : string) (path : option Path)
    (unique : bool) : M Path :=
  match depth with
  | O => raise RecursionError
  | S depth' =>
      do u <- draw_uuid;
      let fname := u +:+ suffix in
      let fpath := path_of_string fname in
      let fpath := match path with
                   | Some p => joinpath p fpath
                   | None => fpath
                   end in
      if unique then
        do taken <- is_file fpath;
        if taken then random_file depth' suffix path unique
        else ret fpath
      else ret fpath
  end.

(** *** [TagEnum] (lines 21-30) *)

Inductive TagEnum :=
  | ForceFields | Assigners | Gromacs | Strategy | Tactic
  | Util | Simulators | MMSchema | Translators.

Definition all_tags : list TagEnum :=
  [ForceFields; Assigners; Gromacs; Strategy; Tactic;
   Util; Simulators; MMSchema; Translators].

(** [member.value] and [member.name]. *)
Definition tag_value (t : TagEnum) : string :=
  match t with
  | ForceFields => "forcefields" | Assigners => "assigners"
  | Gromacs => "gromacs" | Strategy => "strategy" | Tactic => "tactic"
  | Util => "util" | Simulators => "simulators" | MMSchema => "mmschema"
  | Translators => "translators"
  end.

Definition tag_name (t : TagEnum) : string :=
  match t with
  | ForceFields => "ForceFields" | Assigners => "Assigners"
  | Gromacs => "Gromacs" | Strategy => "Strategy" | Tactic => "Tactic"
  | Util => "Util" | Simulators => "Simulators" | MMSchema => "MMSchema"
  | Translators => "Translators"
  end.

(** [TagEnum(v)]: lookup by value. *)
Definition TagEnum_of_value (v : string) : option TagEnum :=
  List.find (fun t => String.eqb (tag_value t) v) all_tags.

(** *** JSON values and the record *)

#[local] Set Warnings "-register-all".

(** What [json.load] returns.  A number carries the text Python's [str]
    gives it; an object is the list of its items in iteration order (a
    Python [dict]: keys are distinct). *)
Inductive json :=
  | JNull
  | JBool (b : bool)
  | JNum (text : string)
  | JStr (s : string)
  | JList (items : list json)
  | JObject (members : list (string * json)).

(** [d.get(k)] and [k in d]. *)
Fixpoint dict_get {V} (k : string) (d : list (string * V)) : option V :=
  match d with
  | [] => None
  | (k', v) :: d' => if String.eqb k' k then Some v else dict_get k d'
  end.

Definition has_key {V} (k : string) (d : list (string * V)) : bool :=
  match dict_get k d with Some _ => true | None => false end.

(** [d[k] = v] for a key that is present. *)
Fixpoint dict_set {V} (k : string) (v : V) (d : list (string * V)) : list (string * V) :=
  match d with
  | [] => [(k, v)]
  | (k', v') :: d' =>
      if String.eqb k' k then (k, v) :: d' else (k', v') :: dict_set k v d'
  end.

(** [CompModel] (lines 62-69): [date] and [image] are [Optional[str]]. *)
Record CompModel := mkCompModel {
  title : string;
  link : string;
  tags : list TagEnum;
  summary : string;
  developer : string;
  date : option string;
  image : option string
}.

Definition declared_fields : list string :=
  ["title"; "link"; "tags"; "summary"; "developer"; "date"; "image"].

(** *** The validators (lines 92-126) *)

Definition requests_get (url : string) : M (nat * string) :=
  match http_get E url with
  | HttpResponse code body => ret (code, body)
  | HttpInvalidURL => raise InvalidURL
  | HttpFailure => raise RequestException
  end.

Definition _valid_link (v : string) : M string :=
  do res <- requests_get v;
  do_ assert_ (Nat.eqb (fst res) 200);
  ret v.

Definition tmpdir : Path := path_of_string "static/components/tmp".

(** [assert pfile.is_file(), f"Image file {str(p)} does not exist!"]: the
    message is evaluated when the assertion fails, and [p] is not defined
    anywhere, so what is raised then is a [NameError]. *)
Definition assert_image_is_file (pfile : Path) : M unit :=
  do f <- is_file pfile;
  if f then ret tt else raise NameError.

(** [v] is [None] when the JSON has [null]: pydantic hands it to the
    validator of an Optional field, and [None.startswith] is an
    [AttributeError]. *)
Definition _valid_image (v : option string) : M (option string) :=
  match v with
  | None => raise AttributeError
  | Some v =>
      if Str.startswith v "http" then
        let ext := Str.last_piece (Str.split_on "." v) in
        do res <- requests_get v;
        do_ assert_ (Nat.eqb (fst res) 200);
        do d <- is_dir tmpdir;
        do_ (if negb d then mkdir tmpdir else ret tt);
        do pfile <- random_file (recursion_limit E) ("." +:+ ext) (Some tmpdir) true;
        let v := path_str (absolute pfile) in
        do_ write_file v (snd res);
        do_ assert_image_is_file pfile;
        ret (Some v)
      else
        let pfile := path_of_string v in
        do_ assert_image_is_file pfile;
        ret (Some v)
  end.

(** [datetime.strptime(None, ...)] is a [TypeError]; a [ValueError] is
    raised again as a [ValueError]. *)
Definition _valid_time (v : option string) : M (option string) :=
  match v with
  | None => raise TypeError
  | Some d => if strptime_ok E d then ret v else raise ValueError
  end.

(** *** Construction of a record (pydantic 1.x, [extra = "forbid"]) *)

(** pydantic turns [ValueError], [TypeError] and [AssertionError] raised
    by a validator into an error of the field; anything else propagates. *)
Definition as_field_error (e : exn) : option verr :=
  match e with
  | ValueError | InvalidURL => Some ValidatorValueError
  | TypeError => Some ValidatorTypeError
  | AssertionError => Some ValidatorAssertionError
  | _ => None
  end.

Definition field_errors := list (string * verr).

Definition catching {A} (name : string) (m : M A) : M (field_errors + A) :=
  fun s => match m s with
           | (Ok a, s') => (Ok (inr a), s')
           | (Raise e, s') =>
               match as_field_error e with
               | Some ve => (Ok (inl [(name, ve)]), s')
               | None => (Raise e, s')
               end
           end.

(** [str_validator]: strings, and numbers (booleans included) through [str]. *)
Definition str_validator (v : json) : verr + string :=
  match v with
  | JStr s => inr s
  | JNum t => inr t
  | JBool b => inr (if b then "True" else "False")
  | _ => inl StrError
  end.

Definition enum_member_validator (v : json) : verr + TagEnum :=
  match v with
  | JNull => inl NoneIsNotAllowedError
  | JStr s => match TagEnum_of_value s with
              | Some t => inr t
              | None => inl EnumMemberError
              end
  | _ => inl EnumMemberError
  end.

(** A required [str] field with an optional class validator. *)
Definition str_field (name : string) (validator : option (string -> M string))
    (input : list (string * json)) : M (field_errors + string) :=
  match dict_get name input with
  | None => ret (inl [(name, MissingError)])
  | Some JNull => ret (inl [(name, NoneIsNotAllowedError)])
  | Some v =>
      match str_validator v with
      | inl e => ret (inl [(name, e)])
      | inr s => match validator with
                 | Some f => catching name (f s)
                 | None => ret (inr s)
                 end
      end
  end.

(** [tags: List[TagEnum]]: every item is checked, every failure reported. *)
Fixpoint tag_items (items : list json) : field_errors + list TagEnum :=
  match items with
  | [] => inr []
  | v :: rest =>
      match enum_member_validator v, tag_items rest with
      | inr t, inr ts => inr (t :: ts)
      | inr _, inl es => inl es
      | inl e, inr _ => inl [("tags", e)]
      | inl e, inl es => inl (("tags", e) :: es)
      end
  end.

Definition tags_field (input : list (string * json)) : field_errors + list TagEnum :=
  match dict_get "tags" input with
  | None => inl [("tags", MissingError)]
  | Some JNull => inl [("tags", NoneIsNotAllowedError)]
  | Some (JList items) => tag_items items
  | Some _ => inl [("tags", ListError)]
  end.

(** An [Optional[str]] field: the default is taken as it is; [null] goes
    straight to the class validator. *)
Definition optional_str_field (name : string) (default : option string)
    (validator : option string -> M (option string))
    (input : list (string * json)) : M (field_errors + option string) :=
  match dict_get name input with
  | None => ret (inr default)
  | Some JNull => catching name (validator None)
  | Some v =>
      match str_validator v with
      | inl e => ret (inl [(name, e)])
      | inr s => catching name (validator (Some s))
      end
  end.

(** Undeclared keys, in the order of the input (pydantic sorts them). *)
Definition extra_errors (input : list (string * json)) : field_errors :=
  List.map (fun kv => (fst kv, ExtraError))
    (List.filter (fun kv => negb (existsb (String.eqb (fst kv)) declared_fields)) input).

Definition errors_of {A} (r : field_errors + A) : field_errors :=
  match r with inl es => es | inr _ => [] end.

(** [validate_model]: the fields in declaration order, each one validated
    whatever happened to the ones before it, then the undeclared keys. *)
Definition validate_model (input : list (string * json)) : M CompModel :=
  do r_title <- str_field "title" None input;
  do r_link <- str_field "link" (Some _valid_link) input;
  let r_tags := tags_field input in
  do r_summary <- str_field "summary" None input;
  do r_developer <- str_field "developer" None input;
  do r_date <- optional_str_field "date" (Some (today E)) _valid_time input;
  do r_image <- optional_str_field "image" None _valid_image input;
  let errors := errors_of r_title ++ errors_of r_link ++ errors_of r_tags
                ++ errors_of r_summary ++ errors_of r_developer
                ++ errors_of r_date ++ errors_of r_image ++ extra_errors input in
  match r_title, r_link, r_tags, r_summary, r_developer, r_date, r_image, errors with
  | inr t, inr l, inr ts, inr sm, inr dv, inr dt, inr im, [] =>
      ret {| title := t; link := l; tags := ts; summary := sm;
             developer := dv; date := dt; image := im |}
  | _, _, _, _, _, _, _, _ => raise (ValidationError errors)
  end.

(** [CompModel(title=comp_name, **comp)] (line 137).  Unpacking needs a
    mapping, and a key that repeats the keyword [title] (or the name of the
    constructor's own first parameter) is a [TypeError] of the call itself,
    before pydantic sees anything. *)
Definition CompModel_new (comp_name : string) (comp : json) : M CompModel :=
  match comp with
  | JObject members =>
      if has_key "title" members || has_key "__pydantic_self__" members
      then raise TypeError
      else validate_model (("title", JStr comp_name) :: members)
  | _ => raise TypeError
  end.

(** *** [CompModel.dict] (lines 78-90) *)

Inductive pyval :=
  | VNone
  | VStr (s : string)
  | VTags (l : list TagEnum).

Definition of_optional (o : option string) : pyval :=
  match o with Some s => VStr s | None => VNone end.

(** Truth value of a Python object. *)
Definition truthy (v : pyval) : bool :=
  match v with
  | VNone => false
  | VStr s => negb (String.eqb s "")
  | VTags l => match l with [] => false | _ => true end
  end.

Definition BaseModel_dict (m : CompModel) : list (string * pyval) :=
  [("title", VStr (title m)); ("link", VStr (link m)); ("tags", VTags (tags m));
   ("summary", VStr (summary m)); ("developer", VStr (developer m));
   ("date", of_optional (date m)); ("image", of_optional (image m))].

Definition CompModel_dict (m : CompModel) : list (string * pyval) :=
  let data := BaseModel_dict m in
  match dict_get "image" data with
  | Some (VStr s) =>
      if truthy (VStr s)
      then dict_set "image" (VStr (path_name (path_of_string s))) data
      else data
  | _ => data
  end.

(** *** The loop body (lines 135-174) *)

Definition NL : string := String Str.nl "".

(** Lines 142-148: a list becomes the bracketed names of its items. *)
Definition render_value (val : pyval) : pyval :=
  match val with
  | VTags l => VStr ("[" +:+ Str.join "," (List.map tag_name l) +:+ "]")
  | v => v
  end.

Definition render_fields (comp : list (string * pyval)) : list (string * pyval) :=
  List.map (fun kv => (fst kv, render_value (snd kv))) comp.

(** What [str.format] puts for [{key}]: the value's [str]. *)
Definition format_field (data : list (string * pyval)) (key : string) : string :=
  match dict_get key data with
  | Some (VStr s) => s
  | Some VNone => "None"
  | _ => ""
  end.

Definition template_with_image (data : list (string * pyval)) : string :=
  "title: " +:+ format_field data "title" +:+ NL +:+
  "date: " +:+ format_field data "date" +:+ NL +:+
  "draft: true" +:+ NL +:+
  "hideLastModified: true" +:+ NL +:+
  "showInMenu: false" +:+ NL +:+
  "summaryImage: " +:+ format_field data "image" +:+ NL +:+
  "summary: " +:+ format_field data "summary" +:+ NL +:+
  "link: " +:+ format_field data "link" +:+ NL +:+
  "tags: " +:+ format_field data "tags" +:+ NL.

Definition template_without_image (data : list (string * pyval)) : string :=
  "title: " +:+ format_field data "title" +:+ NL +:+
  "date: " +:+ format_field data "date" +:+ NL +:+
  "draft: true" +:+ NL +:+
  "hideLastModified: true" +:+ NL +:+
  "showInMenu: false" +:+ NL +:+
  "summary: " +:+ format_field data "summary" +:+ NL +:+
  "link: " +:+ format_field data "link" +:+ NL +:+
  "tags: " +:+ format_field data "tags" +:+ NL.

(** Lines 138-164 without the copy: the text between the two delimiters. *)
Definition front_matter (comp_model : CompModel) : string :=
  let data := render_fields (CompModel_dict comp_model) in
  if truthy (of_optional (image comp_model))
  then template_with_image data
  else template_without_image data.

Definition index_md (comp_model : CompModel) : string :=
  "---" +:+ NL +:+ front_matter comp_model +:+ "---".

Definition path : Path := path_of_string "content/components".

(** Lines 150-170: the output directory, the image, [index.md]. *)
Definition write_component (comp_model : CompModel) : M unit :=
  let cpath := joinpath path (path_of_string (title comp_model)) in
  do exists_ <- is_dir cpath;
  do_ (if exists_ then rmtree cpath else ret tt);
  do_ mkdir cpath;
  do_ (match image comp_model with
       | Some img => if truthy (VStr img) then copy img cpath else ret tt
       | None => ret tt
       end);
  let fpath := joinpath cpath (path_of_string "index.md") in
  write_file (path_str fpath) (index_md comp_model).

(** Lines 172-174, inside the loop. *)
Definition remove_tmpdir : M unit :=
  do d <- is_dir tmpdir;
  if d then rmtree tmpdir else ret tt.

Definition process_component (item : string * json) : M unit :=
  do comp_model <- CompModel_new (fst item) (snd item);
  do_ write_component comp_model;
  remove_tmpdir.

(** Lines 132-174: [data] is the parsed [static/components/data.json]. *)
Definition main (data : list (string * json)) : M unit :=
  do d <- is_dir path;
  do_ assert_ d;
  for_each process_component data.

End Script.

(** * The vocabulary of the specification *)

(** ** Paths and locations *)

(** What parsing leaves in a path: a part is not empty, not ["."], and
    holds no ["/"]. *)
Definition clean_part (c : string) : bool :=
  keep_part c && negb (Str.contains "/" c).

Definition path_wf (p : Path) : Prop :=
  List.Forall (fun c => clean_part c = true) (parts p).

(** A part that resolution descends into: clean, and not [".."]. *)
Definition plain_name (c : string) : bool :=
  clean_part c && negb (String.eqb c "..").

(** The working directory is a resolved location: plain names only. *)
Definition cwd_plain (E : env) : Prop :=
  List.Forall (fun c => plain_name c = true) (cwd E).

(** Where [static/components/tmp] and [content/components] resolve. *)
Definition tmp_loc (E : env) : loc := cwd E ++ ["static"; "components"; "tmp"].
Definition out_loc (E : env) : loc := cwd E ++ ["content"; "components"].

Definition emptied (q : loc) (m : gmap loc node) : gmap loc node :=
  filter (fun kv => below q kv.1 = false) m.


Definition cpath_of (m : CompModel) : Path := joinpath path (path_of_string (title m)).

(** ** Records and their fields *)

Definition vocabulary : list string :=
  ["forcefields"; "assigners"; "gromacs"; "strategy"; "tactic"; "util";
   "simulators"; "mmschema"; "translators"].

Definition in_vocabulary (v : json) : bool :=
  match v with
  | JStr s => existsb (String.eqb s) vocabulary
  | _ => false
  end.

Definition required_fields : list string := ["link"; "tags"; "summary"; "developer"].

Definition allowed_keys : list string :=
  ["link"; "tags"; "summary"; "developer"; "date"; "image"].

(** The seven field results of [validate_model] and the error list built
    from them. *)
Definition all_errors (r_title r_link : field_errors + string)
    (r_tags : field_errors + list TagEnum) (r_summary r_developer : field_errors + string)
    (r_date r_image : field_errors + option string) (input : list (string * json)) :=
  errors_of r_title ++ errors_of r_link ++ errors_of r_tags
  ++ errors_of r_summary ++ errors_of r_developer
  ++ errors_of r_date ++ errors_of r_image ++ extra_errors input.

(** ** The front matter *)

(** A line of the front matter that sets [summaryImage]. *)
Definition is_summaryImage_line (l : string) : bool := Str.startswith l "summaryImage:".

Definition summaryImage_lines (text : string) : list string :=
  List.filter is_summaryImage_line (Str.lines text).

Definition single_line (s : string) : bool := negb (Str.contains Str.nl s).

Definition date_text (m : CompModel) : string :=
  match date m with Some d => d | None => "None" end.

Definition tags_text (m : CompModel) : string :=
  "[" +:+ Str.join "," (List.map tag_name (tags m)) +:+ "]".

(** ** Identifiers and the names tried by [random_file] *)

(** The text of a UUID: hexadecimal digits and hyphens; what matters here
    is that it is not empty and holds neither ["/"] nor ["."]. *)
Definition uuid_plain (u : string) : bool :=
  negb (String.eqb u "") && negb (Str.contains "/" u) && negb (Str.contains "." u).

Definition uuids_plain (E : env) : Prop := forall n, uuid_plain (uuid4 E n) = true.

(** Universally unique: no two draws give the same identifier. *)
Definition uuids_distinct (E : env) : Prop :=
  forall i j, uuid4 E i = uuid4 E j -> i = j.

Section RandomFileNames.

Variable E : env.
Variable suffix : string.
Variable path : option Path.

(** The name tried for the identifier [u]. *)
Definition candidate (u : string) : Path :=
  match path with
  | Some p => joinpath p (path_of_string (u +:+ suffix))
  | None => path_of_string (u +:+ suffix)
  end.

Definition taken (m : gmap loc node) (u : string) : bool :=
  match resolve E m (path_str (candidate u)) with
  | Some q => file_at m q
  | None => false
  end.

Definition suffix_head : string := List.hd "" (Str.split_on "/" suffix).
Definition suffix_rest : list string :=
  List.filter keep_part (List.tl (Str.split_on "/" suffix)).

(** Where the directory part of the candidates leads. *)
Definition base_loc (m : gmap loc node) : option loc :=
  match path with
  | Some p =>
      if is_absolute p then walk m [] (parts p)
      else if dir_at m (cwd E) then walk m (cwd E) (parts p) else None
  | None => if dir_at m (cwd E) then Some (cwd E) else None
  end.

End RandomFileNames.

(** ** Effects *)

Definition grows {A} (m : M A) : Prop :=
  forall s r s', m s = (r, s') -> exists evs, trace s' = trace s ++ evs.

(** The end of a component's turn, from the state [w] in which its page
    has been written to the state [s2] the next turn starts from: the
    temporary directory, when it is there in [w], is removed with all it
    holds, and that is all that happens; when it is not there, nothing
    happens. *)
Definition cleaned (E : env) (w s2 : state) : Prop :=
  (is_dir E tmpdir w = (Ok true, w)
   /\ trace s2 = trace w ++ [EvRmtree (tmp_loc E)]
   /\ (forall k, tmp_loc E `prefix_of` k -> fs s2 !! k = None)
   /\ (forall k, ~ tmp_loc E `prefix_of` k -> fs s2 !! k = fs w !! k))
  \/ (is_dir E tmpdir w = (Ok false, w) /\ s2 = w).

(** Nothing outside the temporary directory changes. *)
Definition outside_tmp_unchanged (E : env) (s s' : state) : Prop :=
  forall k, ~ tmp_loc E `prefix_of` k -> fs s' !! k = fs s !! k.

Definition confined {A} (E : env) (m : M A) : Prop :=
  forall s r s', m s = (r, s') -> outside_tmp_unchanged E s s'.

(** ** Valid records *)




(** ** Further vocabulary *)

(** The download of the image at the URL [v] goes through at the first
    name drawn: no ["/"] follows the last ["."] of [v], Python can still call
    [random_file], the working directory is a resolved path and is there, the
    temporary directory is there or can be made, the identifier drawn next is
    UUID text, and the name made from it is free. *)
Definition download_ready (E : env) (s : state) (v : string) : Prop :=
  let ext := Str.last_piece (Str.split_on "." v) in
  let u := uuid4 E (draws s) in
  recursion_limit E <> 0 /\ cwd_plain E /\ dir_at (fs s) (cwd E) = true
  /\ (fs s !! tmp_loc E = Some Dir
      \/ (fs s !! tmp_loc E = None
          /\ dir_at (fs s) (cwd E ++ ["static"; "components"]) = true))
  /\ uuid_plain u = true /\ Str.contains "/" ext = false
  /\ fs s !! (tmp_loc E ++ [u +:+ "." +:+ ext]) = None.

(** The record [m] with another developer. *)
Definition with_developer (d : string) (m : CompModel) : CompModel :=
  {| title := title m; link := link m; tags := tags m; summary := summary m;
     developer := d; date := date m; image := image m |}.

(** The line of the front matter for the image, when there is one. *)
Definition image_lines (m : CompModel) : list string :=
  match image m with
  | Some img =>
      if String.eqb img "" then []
      else ["summaryImage: " +:+ path_name (path_of_string img)]
  | None => []
  end.

(** A computation that leaves the state as it is, whatever it returns. *)
Definition stateless {A} (m : M A) : Prop :=
  forall s r s', m s = (r, s') -> s' = s.

(** The raw value of a tag. *)
Definition tag_json (t : TagEnum) : json := JStr (tag_value t).

(** The directory a path argument of [random_file] stands for. *)
Definition dir_is_absolute (path : option Path) : bool :=
  match path with Some d => is_absolute d | None => false end.

Definition dir_parts (path : option Path) : list string :=
  match path with Some d => parts d | None => [] end.

(** ** A concrete world for the examples *)

Module World.

Definition root_dirs : list loc :=
  [ ["srv"]; ["srv"; "site"];
    ["srv"; "site"; "content"]; ["srv"; "site"; "content"; "components"];
    ["srv"; "site"; "static"]; ["srv"; "site"; "static"; "components"] ].

Definition disk : gmap loc node :=
  <[ ["srv"; "site"; "static"; "components"; "logo.png"] := File "PNG" ]>
  (list_to_map (List.map (fun q => (q, Dir)) root_dirs)).

Definition net (url : string) : http_outcome :=
  if String.eqb url "https://example.com" then HttpResponse 200 "<html>"
  else if String.eqb url "https://example.com/pic.png" then HttpResponse 200 "IMG"
  else if String.eqb url "https://example.com/logo" then HttpResponse 200 "IMG"
  else if String.eqb url "https://example.com/gone" then HttpResponse 404 ""
  else HttpFailure.

(** UUIDs are stood for by [a], [aa], [aaa], ... *)
Definition uuid (n : nat) : string := string_of_list_ascii (List.repeat "a"%char (S n)).

Definition E : env :=
  {| cwd := ["srv"; "site"];
     http_get := net;
     strptime_ok := fun d => String.eqb d "2021-03-04";
     today := "2021-06-01";
     uuid4 := uuid;
     recursion_limit := 900 |}.

Definition s0 : state := {| fs := disk; draws := 0; trace := [] |}.

Definition foo : json :=
  JObject [("link", JStr "https://example.com"); ("tags", JList [JStr "util"]);
           ("summary", JStr "s"); ("developer", JStr "d")].

Definition foo_remote : json :=
  JObject [("link", JStr "https://example.com"); ("tags", JList [JStr "util"]);
           ("summary", JStr "s"); ("developer", JStr "d");
           ("image", JStr "https://example.com/pic.png")].

Definition bar_remote : json :=
  JObject [("link", JStr "https://example.com"); ("tags", JList [JStr "gromacs"]);
           ("summary", JStr "t"); ("developer", JStr "e");
           ("date", JStr "2021-03-04");
           ("image", JStr "https://example.com/pic.png")].

Definition bad_link_remote : json :=
  JObject [("link", JStr "https://example.com/gone"); ("tags", JList [JStr "util"]);
           ("summary", JStr "s"); ("developer", JStr "d");
           ("image", JStr "https://example.com/pic.png")].

Definition bar_members : list (string * json) :=
  [("link", JStr "https://example.com"); ("tags", JList [JStr "gromacs"]);
   ("summary", JStr "t"); ("developer", JStr "e");
   ("date", JStr "2021-03-04");
   ("image", JStr "https://example.com/pic.png")].

Definition foo_model : CompModel :=
  {| title := "Foo"; link := "https://example.com"; tags := [Util];
     summary := "s"; developer := "d"; date := Some "2021-06-01";
     image := Some "static/components/logo.png" |}.

Definition bar_model : CompModel :=
  {| title := "Foo"; link := "https://example.com"; tags := [Util];
     summary := "s"; developer := "d"; date := Some "2021-06-01";
     image := Some "/srv/site/static/components/tmp/a.png" |}.

(** The disk with a temporary directory that holds the first name drawn. *)
Definition s_busy : state :=
  {| fs := <[ ["srv"; "site"; "static"; "components"; "tmp"; "a.png"] := File "x" ]>
           (<[ ["srv"; "site"; "static"; "components"; "tmp"] := Dir ]> disk);
     draws := 0; trace := [] |}.

(** The disk after an earlier run that left [Foo] with a file of its own. *)
Definition s_rerun : state :=
  {| fs := <[ ["srv"; "site"; "content"; "components"; "Foo"; "old.txt"] := File "old" ]>
           (<[ ["srv"; "site"; "content"; "components"; "Foo"] := Dir ]> disk);
     draws := 0; trace := [] |}.

Definition foo_missing_image : json :=
  JObject [("link", JStr "https://example.com"); ("tags", JList [JStr "util"]);
           ("summary", JStr "s"); ("developer", JStr "d");
           ("image", JStr "missing.png")].

Definition foo_titled : json :=
  JObject [("title", JStr "Other"); ("link", JStr "https://example.com");
           ("tags", JList [JStr "util"]); ("summary", JStr "s");
           ("developer", JStr "d")].

Definition foo_bad_tag : json :=
  JObject [("link", JStr "https://example.com");
           ("tags", JList [JStr "util"; JStr "Util"]);
           ("summary", JStr "s"); ("developer", JStr "d")].

Definition foo_injected : json :=
  JObject [("link", JStr "https://example.com"); ("tags", JList [JStr "util"]);
           ("summary", JStr ("s" +:+ NL +:+ "summaryImage: x.png"));
           ("developer", JStr "d")].

Definition foo_no_summary : json :=
  JObject [("link", JStr "https://example.com"); ("tags", JList [JStr "util"]);
           ("developer", JStr "d")].

(** The disk after an earlier run, with an image kept in the output
    directory of [Foo], and a record that names that image. *)
Definition s_inside : state :=
  {| fs := <[ ["srv"; "site"; "content"; "components"; "Foo"; "logo.png"] := File "PNG" ]>
           (<[ ["srv"; "site"; "content"; "components"; "Foo"] := Dir ]> disk);
     draws := 0; trace := [] |}.

Definition inside_members : list (string * json) :=
  [("link", JStr "https://example.com"); ("tags", JList [JStr "util"]);
   ("summary", JStr "s"); ("developer", JStr "d");
   ("image", JStr "content/components/Foo/logo.png")].


(** A record with an image on the disk, and one whose link is gone. *)
Definition local_members : list (string * json) :=
  [("link", JStr "https://example.com"); ("tags", JList [JStr "util"]);
   ("summary", JStr "s"); ("developer", JStr "d");
   ("image", JStr "static/components/logo.png")].


Definition batch : list (string * json) := [("Foo", foo); ("Bar", bar_remote)].

End World.

(** * Properties *)


(** ** Strings *)

Section StringFacts.

Lemma append_cons x (a b : string) : String x a +:+ b = String x (a +:+ b).
Proof. reflexivity. Qed.

Lemma append_nil_l (b : string) : "" +:+ b = b.
Proof. reflexivity. Qed.

Lemma append_assoc (a b c : string) : (a +:+ b) +:+ c = a +:+ (b +:+ c).
Proof.
  induction a as [|x a IH]; [reflexivity|].
  rewrite !append_cons. now rewrite IH.
Qed.

Lemma append_nil_r (a : string) : a +:+ "" = a.
Proof.
  induction a as [|x a IH]; [reflexivity|]. rewrite append_cons. now rewrite IH.
Qed.

Lemma length_append (a b : string) :
  String.length (a +:+ b) = String.length a + String.length b.
Proof.
  induction a as [|x a IH]; [reflexivity|].
  rewrite append_cons. simpl. now rewrite IH.
Qed.

Lemma append_inv_tail (a b c : string) : a +:+ c = b +:+ c -> a = b.
Proof.
  revert b. induction a as [|x a IH]; intros [|y b] H.
  - reflexivity.
  - apply (f_equal String.length) in H. rewrite !length_append in H. simpl in H. lia.
  - apply (f_equal String.length) in H. rewrite !length_append in H. simpl in H. lia.
  - rewrite !append_cons in H. injection H as -> H. f_equal. apply IH, H.
Qed.

Lemma contains_append c (a b : string) :
  Str.contains c (a +:+ b) = Str.contains c a || Str.contains c b.
Proof.
  induction a as [|x a IH]; [reflexivity|].
  rewrite append_cons. simpl. rewrite IH. now rewrite orb_assoc.
Qed.

Lemma split_on_nonempty c s : Str.split_on c s <> [].
Proof.
  destruct s as [|x s]; simpl; [discriminate|].
  destruct (Ascii.eqb x c); [discriminate|].
  destruct (Str.split_on c s); discriminate.
Qed.

(** Splitting at the first separator. *)
Lemma split_on_append_sep c (a b : string) :
  Str.contains c a = false ->
  Str.split_on c (a +:+ String c b) = a :: Str.split_on c b.
Proof.
  induction a as [|x a IH]; intros H.
  - rewrite append_nil_l. simpl. rewrite Ascii.eqb_refl. reflexivity.
  - simpl in H. apply orb_false_iff in H as [Hx Ha].
    rewrite append_cons. simpl. rewrite Hx, (IH Ha). reflexivity.
Qed.

Lemma split_on_no_sep c (a : string) :
  Str.contains c a = false -> Str.split_on c a = [a].
Proof.
  induction a as [|x a IH]; simpl; intros H; [reflexivity|].
  apply orb_false_iff in H as [Hx Ha]. rewrite Hx, (IH Ha). reflexivity.
Qed.

(** No piece of a split holds the separator. *)
Lemma split_on_pieces c s :
  Forall (fun p => Str.contains c p = false) (Str.split_on c s).
Proof.
  induction s as [|x s IH]; simpl.
  - repeat constructor.
  - destruct (Ascii.eqb x c) eqn:Hx.
    + constructor; [reflexivity|exact IH].
    + destruct (Str.split_on c s) as [|h t]; inversion IH; subst.
      * repeat constructor. simpl. now rewrite Hx.
      * constructor; [simpl; now rewrite Hx|assumption].
Qed.

(** Pieces of a text without [d] are without [d]. *)
Lemma split_on_pieces_without c d s :
  Str.contains d s = false ->
  Forall (fun p => Str.contains d p = false) (Str.split_on c s).
Proof.
  induction s as [|x s IH]; simpl; intros H.
  - repeat constructor.
  - apply orb_false_iff in H as [Hx Hs]. specialize (IH Hs).
    destruct (Ascii.eqb x c).
    + constructor; [reflexivity|exact IH].
    + destruct (Str.split_on c s) as [|h t]; inversion IH; subst.
      * repeat constructor. simpl. now rewrite Hx.
      * constructor; [simpl; now rewrite Hx, H1|assumption].
Qed.

Lemma last_piece_In (l : list string) : l <> [] -> In (Str.last_piece l) l.
Proof.
  unfold Str.last_piece. induction l as [|x l IH]; [congruence|]. intros _.
  destruct l as [|y l]; [left; reflexivity|].
  right. apply IH. discriminate.
Qed.

(** [split] undoes [join] on pieces without the separator. *)
Lemma split_on_join c (ps : list string) :
  ps <> [] -> Forall (fun p => Str.contains c p = false) ps ->
  Str.split_on c (Str.join (String c "") ps) = ps.
Proof.
  intros Hne H. induction H as [|p ps Hp Hps IH]; [congruence|].
  destruct ps as [|q ps].
  - simpl. apply split_on_no_sep, Hp.
  - change (Str.join (String c "") (p :: q :: ps))
      with (p +:+ String c "" +:+ Str.join (String c "") (q :: ps)).
    change (String c "" +:+ Str.join (String c "") (q :: ps))
      with (String c (Str.join (String c "") (q :: ps))).
    rewrite (split_on_append_sep c p _ Hp). f_equal. apply IH. discriminate.
Qed.

Lemma split_on_append_full c (a b : string) :
  Str.split_on c (a +:+ String c b) = Str.split_on c a ++ Str.split_on c b.
Proof.
  induction a as [|x a IH].
  - rewrite append_nil_l. simpl. rewrite Ascii.eqb_refl. reflexivity.
  - rewrite append_cons. cbn [Str.split_on]. destruct (Ascii.eqb x c).
    + rewrite IH. reflexivity.
    + rewrite IH. pose proof (split_on_nonempty c a).
      destruct (Str.split_on c a); [congruence|reflexivity].
Qed.

Lemma ends_with_char_cons c x (s : string) :
  s <> "" -> Str.ends_with_char c (String x s) = Str.ends_with_char c s.
Proof. destruct s; [congruence|reflexivity]. Qed.

Lemma ends_with_char_append c (a b : string) :
  b <> "" -> Str.ends_with_char c (a +:+ b) = Str.ends_with_char c b.
Proof.
  intros Hb. induction a as [|x a IH]; [reflexivity|].
  rewrite append_cons, ends_with_char_cons; [exact IH|].
  destruct a; [exact Hb|discriminate].
Qed.

Lemma ends_with_char_contains c (s : string) :
  Str.contains c s = false -> Str.ends_with_char c s = false.
Proof.
  induction s as [|x s IH]; [reflexivity|]. simpl.
  intros H. apply orb_false_iff in H as [Hx Hs].
  destruct s; [exact Hx|]. apply IH, Hs.
Qed.

End StringFacts.

(** ** The monad *)

Section MonadFacts.

Context {A B : Type}.

Lemma bind_Ok_inv (m : M A) (k : A -> M B) s b s' :
  bind m k s = (Ok b, s') ->
  exists a s1, m s = (Ok a, s1) /\ k a s1 = (Ok b, s').
Proof.
  unfold bind. destruct (m s) as [[a|e] s1]; intros H.
  - eauto.
  - discriminate.
Qed.

Lemma bind_Raise_inv (m : M A) (k : A -> M B) s e s' :
  bind m k s = (Raise e, s') ->
  m s = (Raise e, s') \/ exists a s1, m s = (Ok a, s1) /\ k a s1 = (Raise e, s').
Proof.
  unfold bind. destruct (m s) as [[a|e0] s1]; intros H.
  - right. eauto.
  - left. injection H as -> ->. reflexivity.
Qed.

Lemma bind_Ok_intro (m : M A) (k : A -> M B) s a s1 :
  m s = (Ok a, s1) -> bind m k s = k a s1.
Proof. unfold bind. intros ->. reflexivity. Qed.

Lemma bind_Raise_intro (m : M A) (k : A -> M B) s e s1 :
  m s = (Raise e, s1) -> bind m k s = (Raise e, s1).
Proof. unfold bind. intros ->. reflexivity. Qed.

End MonadFacts.

Ltac inv_bind H :=
  let a := fresh "a" in
  let s1 := fresh "s" in
  let H1 := fresh H "_l" in
  apply bind_Ok_inv in H as (a & s1 & H1 & H).

(** ** Construction of a record *)

Section Construction.

Variable E : env.

Lemma catching_Ok_inr {A} name (m : M A) s a s' :
  catching name m s = (Ok (inr a), s') -> m s = (Ok a, s').
Proof.
  unfold catching. destruct (m s) as [[x|e] s1].
  - congruence.
  - destruct (as_field_error e); congruence.
Qed.

Lemma catching_Raise {A} name (m : M A) s e s' :
  catching name m s = (Raise e, s') ->
  m s = (Raise e, s') /\ as_field_error e = None.
Proof.
  unfold catching. destruct (m s) as [[x|e0] s1].
  - discriminate.
  - destruct (as_field_error e0) eqn:He; [discriminate|].
    intros [= <- <-]. auto.
Qed.

(** A required string field that comes out right was present, not [null],
    a string or a number, and passed its validator. *)
Lemma str_field_inr name validator input s x s' :
  str_field name validator input s = (Ok (inr x), s') ->
  exists v y, dict_get name input = Some v /\ str_validator v = inr y /\
    match validator with
    | Some f => f y s = (Ok x, s')
    | None => x = y /\ s' = s
    end.
Proof.
  unfold str_field. destruct (dict_get name input) as [v|]; [|discriminate].
  destruct (str_validator v) as [err|y] eqn:Hv.
  - destruct v; discriminate.
  - intros H. exists v, y. split; [reflexivity|]. split; [exact Hv|].
    destruct v; try discriminate; destruct validator as [f|];
      first [ apply catching_Ok_inr in H; exact H
            | injection H as <- <-; auto ].
Qed.

Lemma str_field_Raise name validator input s e s' :
  str_field name validator input s = (Raise e, s') ->
  exists f y, validator = Some f /\ f y s = (Raise e, s') /\ as_field_error e = None.
Proof.
  unfold str_field. destruct (dict_get name input) as [v|]; [|discriminate].
  destruct (str_validator v) as [err|y] eqn:Hv.
  - destruct v; discriminate.
  - destruct validator as [f|].
    + intros H. exists f, y. split; [reflexivity|].
      destruct v; try discriminate; apply catching_Raise in H; exact H.
    + destruct v; discriminate.
Qed.

Lemma str_field_plain_state name input s r s' :
  str_field name None input s = (r, s') -> s' = s.
Proof.
  unfold str_field. destruct (dict_get name input) as [v|]; [|intros [= _ <-]; reflexivity].
  destruct (str_validator v); destruct v; intros [= _ <-]; reflexivity.
Qed.

Lemma requests_get_state url s r s' :
  requests_get E url s = (r, s') -> s' = s.
Proof.
  unfold requests_get. destruct (http_get E url); intros [= _ <-]; reflexivity.
Qed.

Lemma _valid_link_state v s r s' : _valid_link E v s = (r, s') -> s' = s.
Proof.
  unfold _valid_link, bind. destruct (requests_get E v s) as [[res|e] s1] eqn:Hg;
    apply requests_get_state in Hg; subst s1.
  - unfold assert_. destruct (Nat.eqb _ _); intros [= _ <-]; reflexivity.
  - intros [= _ <-]; reflexivity.
Qed.

Lemma _valid_time_state v s r s' : _valid_time E v s = (r, s') -> s' = s.
Proof.
  unfold _valid_time. destruct v as [d|]; [destruct (strptime_ok E d)|];
    intros [= _ <-]; reflexivity.
Qed.

Lemma catching_state {A} name (m : M A) s r s' :
  catching name m s = (r, s') -> exists r0, m s = (r0, s').
Proof.
  unfold catching. destruct (m s) as [[x|e] s1].
  - intros [= _ <-]. eauto.
  - destruct (as_field_error e); intros [= _ <-]; eauto.
Qed.

Lemma link_field_state input s r s' :
  str_field "link" (Some (_valid_link E)) input s = (r, s') -> s' = s.
Proof.
  unfold str_field. destruct (dict_get "link" input) as [v|]; [|intros [= _ <-]; reflexivity].
  destruct (str_validator v) as [err|y].
  - destruct v; intros [= _ <-]; reflexivity.
  - intros H.
    assert (Hc : catching "link" (_valid_link E y) s = (r, s') \/ s' = s).
    { destruct v; first [ left; exact H | right; injection H as _ <-; reflexivity ]. }
    destruct Hc as [Hc| ->]; [|reflexivity].
    apply catching_state in Hc as [r0 Hc]. eapply _valid_link_state, Hc.
Qed.

Lemma date_field_state input s r s' :
  optional_str_field "date" (Some (today E)) (_valid_time E) input s = (r, s') -> s' = s.
Proof.
  unfold optional_str_field.
  destruct (dict_get "date" input) as [v|]; [|intros [= _ <-]; reflexivity].
  assert (Hcatch : forall o, catching "date" (_valid_time E o) s = (r, s') -> s' = s).
  { intros o Hc. apply catching_state in Hc as [r0 Hc]. eapply _valid_time_state, Hc. }
  destruct (str_validator v) as [err|y]; destruct v;
    first [ intros [= _ <-]; reflexivity | apply Hcatch ].
Qed.

Lemma optional_str_field_Raise name default validator input s e s' :
  optional_str_field name default validator input s = (Raise e, s') ->
  exists v, validator v s = (Raise e, s') /\ as_field_error e = None.
Proof.
  unfold optional_str_field. destruct (dict_get name input) as [v|]; [|discriminate].
  destruct (str_validator v) as [err|y] eqn:Hv.
  - destruct v; try discriminate. intros H. apply catching_Raise in H. eauto.
  - destruct v; try discriminate; intros H; apply catching_Raise in H; eauto.
Qed.

Lemma _valid_time_raises v s e s' :
  _valid_time E v s = (Raise e, s') -> as_field_error e <> None.
Proof.
  unfold _valid_time. destruct v as [d|]; [destruct (strptime_ok E d)|];
    intros [= <- _]; discriminate.
Qed.

Lemma validate_model_Ok_inv input s m s' :
  validate_model E input s = (Ok m, s') ->
  str_field "title" None input s = (Ok (inr (title m)), s) /\
  str_field "link" (Some (_valid_link E)) input s = (Ok (inr (link m)), s) /\
  tags_field input = inr (tags m) /\
  str_field "summary" None input s = (Ok (inr (summary m)), s) /\
  str_field "developer" None input s = (Ok (inr (developer m)), s) /\
  optional_str_field "date" (Some (today E)) (_valid_time E) input s
    = (Ok (inr (date m)), s) /\
  optional_str_field "image" None (_valid_image E) input s = (Ok (inr (image m)), s') /\
  extra_errors input = [].
Proof.
  unfold validate_model. intros H.
  inv_bind H. pose proof (str_field_plain_state _ _ _ _ _ H_l); subst.
  inv_bind H. pose proof (link_field_state _ _ _ _ H_l0); subst.
  inv_bind H. pose proof (str_field_plain_state _ _ _ _ _ H_l1); subst.
  inv_bind H. pose proof (str_field_plain_state _ _ _ _ _ H_l2); subst.
  inv_bind H. pose proof (date_field_state _ _ _ _ H_l3); subst.
  inv_bind H.
  destruct a as [?|t], a0 as [?|l], (tags_field input) as [?|ts],
    a1 as [?|sm], a2 as [?|dv], a3 as [?|dt], a4 as [?|im]; try discriminate.
  simpl in H. destruct (extra_errors input) eqn:Hx; [|discriminate].
  injection H as <- <-. simpl. auto 10.
Qed.

Lemma validate_model_Raise_inv input s e s' :
  validate_model E input s = (Raise e, s') ->
  (exists r_title r_link r_summary r_developer r_date r_image,
      str_field "title" None input s = (Ok r_title, s) /\
      str_field "link" (Some (_valid_link E)) input s = (Ok r_link, s) /\
      str_field "summary" None input s = (Ok r_summary, s) /\
      str_field "developer" None input s = (Ok r_developer, s) /\
      optional_str_field "date" (Some (today E)) (_valid_time E) input s = (Ok r_date, s) /\
      optional_str_field "image" None (_valid_image E) input s = (Ok r_image, s') /\
      e = ValidationError (all_errors r_title r_link (tags_field input)
                             r_summary r_developer r_date r_image input))
  \/ (as_field_error e = None /\ exists v, _valid_link E v s = (Raise e, s'))
  \/ (as_field_error e = None /\ exists v, _valid_image E v s = (Raise e, s')).
Proof.
  unfold validate_model. intros H.
  apply bind_Raise_inv in H as [H|(r_title & s1 & H1 & H)].
  { apply str_field_Raise in H as (f & y & [=] & _). }
  pose proof (str_field_plain_state _ _ _ _ _ H1); subst s1.
  apply bind_Raise_inv in H as [H|(r_link & s1 & H2 & H)].
  { pose proof (link_field_state _ _ _ _ H); subst s'.
    apply str_field_Raise in H as (f & y & [= <-] & H & He). right. left. eauto. }
  pose proof (link_field_state _ _ _ _ H2); subst s1.
  apply bind_Raise_inv in H as [H|(r_summary & s1 & H3 & H)].
  { apply str_field_Raise in H as (f & y & [=] & _). }
  pose proof (str_field_plain_state _ _ _ _ _ H3); subst s1.
  apply bind_Raise_inv in H as [H|(r_developer & s1 & H4 & H)].
  { apply str_field_Raise in H as (f & y & [=] & _). }
  pose proof (str_field_plain_state _ _ _ _ _ H4); subst s1.
  apply bind_Raise_inv in H as [H|(r_date & s1 & H5 & H)].
  { apply optional_str_field_Raise in H as (v & H & He).
    apply _valid_time_raises in H. contradiction. }
  pose proof (date_field_state _ _ _ _ H5); subst s1.
  apply bind_Raise_inv in H as [H|(r_image & s1 & H6 & H)].
  { apply optional_str_field_Raise in H as (v & H & He). right. right. eauto. }
  left. exists r_title, r_link, r_summary, r_developer, r_date, r_image.
  repeat (split; [assumption|]).
  fold (all_errors r_title r_link (tags_field input) r_summary r_developer r_date r_image input) in H.
  split; [|].
  - destruct r_title, r_link, (tags_field input), r_summary, r_developer, r_date, r_image;
      try (injection H as <- <-; assumption).
    destruct (all_errors _ _ _ _ _ _ _ _); [discriminate|]. injection H as <- <-. assumption.
  - destruct r_title, r_link, (tags_field input), r_summary, r_developer, r_date, r_image;
      try (injection H as <- <-; reflexivity).
    destruct (all_errors _ _ _ _ _ _ _ _) eqn:Ha; [discriminate|]. injection H as <- <-. reflexivity.
Qed.

End Construction.

(** ** The claims about construction *)

Section ConstructionClaims.

Variable E : env.

Lemma TagEnum_of_value_vocabulary v t :
  TagEnum_of_value v = Some t -> existsb (String.eqb v) vocabulary = true.
Proof.
  unfold TagEnum_of_value. intros H. apply find_some in H as [_ H].
  apply String.eqb_eq in H. subst v. destruct t; reflexivity.
Qed.

Lemma tag_items_in_vocabulary items ts :
  tag_items items = inr ts -> forall v, In v items -> in_vocabulary v = true.
Proof.
  revert ts. induction items as [|x items IH]; intros ts H v Hin; [destruct Hin|].
  simpl in H. destruct (enum_member_validator x) as [e|t] eqn:Hx;
    destruct (tag_items items) as [es|ts'] eqn:Hi; try discriminate.
  destruct Hin as [<-|Hin]; [|eapply IH; eauto].
  unfold enum_member_validator in Hx. destruct x; try discriminate.
  simpl. destruct (TagEnum_of_value s) eqn:Hs; [|discriminate].
  eapply TagEnum_of_value_vocabulary, Hs.
Qed.

Lemma dict_get_cons_ne {V} k k' (v : V) d :
  String.eqb k' k = false -> dict_get k ((k', v) :: d) = dict_get k d.
Proof. simpl. intros ->. reflexivity. Qed.

Lemma dict_get_In {V} k (d : list (string * V)) v :
  dict_get k d = Some v -> In (k, v) d.
Proof.
  induction d as [|[k' v'] d IH]; simpl; [discriminate|].
  destruct (String.eqb k' k) eqn:Hk.
  - apply String.eqb_eq in Hk. intros [= ->]. subst. auto.
  - auto.
Qed.

Lemma extra_errors_In k v input :
  In (k, v) input -> ~ In k declared_fields -> In (k, ExtraError) (extra_errors input).
Proof.
  intros Hin Hk. unfold extra_errors.
  apply (in_map (fun kv : string * json => (fst kv, ExtraError)) _ (k, v)).
  apply filter_In. split; [assumption|]. cbn [fst].
  apply negb_true_iff. apply not_true_iff_false. intros Hex.
  apply existsb_exists in Hex as (f & Hf & Heq). apply String.eqb_eq in Heq. subst f. auto.
Qed.

(** [C10]: a raw mapping with a key ["title"] makes the call
    [CompModel(title=comp_name, **comp)] raise [TypeError]; nothing is
    validated and nothing is touched. *)
Theorem C10_title_key_raises_TypeError comp_name members s :
  has_key "title" members = true ->
  CompModel_new E comp_name (JObject members) s = (Raise TypeError, s).
Proof. intros H. unfold CompModel_new. rewrite H. reflexivity. Qed.

(** [C6]: a raw mapping whose [tags] list holds a value outside the
    vocabulary is never accepted: construction raises. *)
Theorem C6_tag_outside_vocabulary_fails comp_name members items s :
  dict_get "tags" members = Some (JList items) ->
  (exists v, In v items /\ in_vocabulary v = false) ->
  exists e s', CompModel_new E comp_name (JObject members) s = (Raise e, s').
Proof.
  intros Htags (v & Hin & Hv).
  destruct (CompModel_new E comp_name (JObject members) s) as [[m|e] s'] eqn:Hnew; [|eauto].
  exfalso. unfold CompModel_new in Hnew.
  destruct (has_key "title" members || has_key "__pydantic_self__" members); [discriminate|].
  apply validate_model_Ok_inv in Hnew as (_ & _ & Ht & _).
  unfold tags_field in Ht. rewrite dict_get_cons_ne in Ht by reflexivity.
  rewrite Htags in Ht. apply tag_items_in_vocabulary with (v := v) in Ht; congruence.
Qed.

Lemma str_field_missing name validator input s :
  dict_get name input = None ->
  str_field name validator input s = (Ok (inl [(name, MissingError)]), s).
Proof. unfold str_field. intros ->. reflexivity. Qed.

Lemma has_key_In {V} k (d : list (string * V)) :
  has_key k d = true -> exists v, In (k, v) d.
Proof.
  unfold has_key. destruct (dict_get k d) as [v|] eqn:H; [|discriminate].
  intros _. exists v. eapply dict_get_In, H.
Qed.

(** [C4], as amended: a raw mapping without the keys ["title"] and
    ["__pydantic_self__"] that lacks one of [link], [tags], [summary],
    [developer], or that has an undeclared key, is never accepted.  What is
    raised is a [ValidationError] that reports that field, unless the
    validator of [link] or of [image] raised an exception that pydantic does
    not convert, which then propagates instead. *)
Theorem C4_incomplete_mapping_fails comp_name members s f err :
  has_key "title" members = false ->
  has_key "__pydantic_self__" members = false ->
  (In f required_fields /\ dict_get f members = None /\ err = (f, MissingError)) \/
  (has_key f members = true /\ ~ In f declared_fields /\ err = (f, ExtraError)) ->
  exists e s', CompModel_new E comp_name (JObject members) s = (Raise e, s') /\
    ((exists errs, e = ValidationError errs /\ In err errs)
     \/ (as_field_error e = None /\
         ((exists v, _valid_link E v s = (Raise e, s')) \/
          (exists v, _valid_image E v s = (Raise e, s'))))).
Proof.
  intros Ht Hs Hf. unfold CompModel_new. rewrite Ht, Hs. cbn [orb].
  set (input := ("title", JStr comp_name) :: members).
  assert (Hmiss : In f required_fields -> dict_get f members = None ->
                  dict_get f input = None).
  { intros Hin Hnone. unfold input. rewrite dict_get_cons_ne; [assumption|].
    simpl in Hin. decompose [or] Hin; subst; try reflexivity; contradiction. }
  assert (Hextra : has_key f members = true -> ~ In f declared_fields ->
                   In (f, ExtraError) (extra_errors input)).
  { intros Hk Hnd. apply has_key_In in Hk as [v Hv].
    apply extra_errors_In with (v := v); [right; assumption|assumption]. }
  destruct (validate_model E input s) as [[m|e] s'] eqn:Hval.
  - exfalso. apply validate_model_Ok_inv in Hval
      as (_ & Hl & Htg & Hsm & Hdv & _ & _ & Hx).
    destruct Hf as [(Hin & Hnone & _)|(Hk & Hnd & _)].
    + specialize (Hmiss Hin Hnone).
      simpl in Hin. decompose [or] Hin; try subst f; try contradiction.
      * rewrite str_field_missing in Hl by assumption. discriminate.
      * unfold tags_field in Htg. rewrite Hmiss in Htg. discriminate.
      * rewrite str_field_missing in Hsm by assumption. discriminate.
      * rewrite str_field_missing in Hdv by assumption. discriminate.
    + specialize (Hextra Hk Hnd). rewrite Hx in Hextra. destruct Hextra.
  - exists e, s'. split; [reflexivity|].
    apply validate_model_Raise_inv in Hval
      as [(r_t & r_l & r_s & r_d & r_dt & r_i & H1 & H2 & H3 & H4 & H5 & H6 & ->)|Hesc].
    + left. eexists. split; [reflexivity|].
      unfold all_errors. rewrite !in_app_iff.
      destruct Hf as [(Hin & Hnone & ->)|(Hk & Hnd & ->)].
      * specialize (Hmiss Hin Hnone).
        simpl in Hin. decompose [or] Hin; try subst f; try contradiction.
        -- rewrite str_field_missing in H2 by assumption.
           injection H2 as <-. simpl. auto.
        -- unfold tags_field. rewrite Hmiss. simpl. auto.
        -- rewrite str_field_missing in H3 by assumption.
           injection H3 as <-. simpl. auto 10.
        -- rewrite str_field_missing in H4 by assumption.
           injection H4 as <-. simpl. auto 10.
      * auto 10.
    + right. destruct Hesc as [[He Hv]|[He Hv]]; auto.
Qed.

Lemma _valid_image_missing_local_file v s :
  Str.startswith v "http" = false ->
  is_file E (path_of_string v) s = (Ok false, s) ->
  _valid_image E (Some v) s = (Raise NameError, s).
Proof.
  intros Hh Hf. unfold _valid_image. rewrite Hh.
  unfold assert_image_is_file, bind. rewrite Hf. reflexivity.
Qed.

End ConstructionClaims.

Lemma C10_witness :
  has_key "title" [("title", JStr "Other")] = true /\
  CompModel_new World.E "Foo" (JObject [("title", JStr "Other")]) World.s0
    = (Raise TypeError, World.s0).
Proof.
  split; [reflexivity|].
  apply (C10_title_key_raises_TypeError World.E "Foo" [("title", JStr "Other")] World.s0).
  reflexivity.
Defined.

Lemma C6_witness :
  exists e s', CompModel_new World.E "Foo" World.foo_bad_tag World.s0 = (Raise e, s').
Proof.
  apply (C6_tag_outside_vocabulary_fails World.E "Foo" _ [JStr "util"; JStr "Util"]).
  - reflexivity.
  - exists (JStr "Util"). split; [simpl; auto|reflexivity].
Defined.

Lemma C4_witness :
  exists e s', CompModel_new World.E "Foo" World.foo_no_summary World.s0 = (Raise e, s') /\
    ((exists errs, e = ValidationError errs /\ In ("summary", MissingError) errs)
     \/ (as_field_error e = None /\
         ((exists v, _valid_link World.E v World.s0 = (Raise e, s')) \/
          (exists v, _valid_image World.E v World.s0 = (Raise e, s'))))).
Proof.
  apply (C4_incomplete_mapping_fails World.E "Foo" _ World.s0 "summary").
  - reflexivity.
  - reflexivity.
  - left. split; [simpl; auto|]. split; reflexivity.
Defined.

(** The claim [C4] as it is written fails on a mapping that lacks [link]
    but has a ["title"]: the call raises [TypeError], not a
    [ValidationError]. *)
Lemma C4_counterexample :
  dict_get "link" [("title", JStr "Other")] = None (A:=json) /\
  ~ exists errs s',
      CompModel_new World.E "Foo" (JObject [("title", JStr "Other")]) World.s0
      = (Raise (ValidationError errs), s').
Proof.
  split; [reflexivity|]. intros (errs & s' & H). discriminate H.
Qed.

(** [C2], the code at the failing input: an image that is a local path to
    no file makes construction raise [NameError] (the assertion's message
    names an undefined variable), where the claim has a [ValidationError]. *)
Theorem C2_missing_local_image_raises_NameError :
  Str.startswith "missing.png" "http" = false /\
  is_file World.E (path_of_string "missing.png") World.s0 = (Ok false, World.s0) /\
  CompModel_new World.E "Foo" World.foo_missing_image World.s0
    = (Raise NameError, World.s0).
Proof. vm_compute. auto. Qed.

(** ** Rendering *)

Section Rendering.

Lemma single_line_append a b :
  single_line a = true -> single_line b = true -> single_line (a +:+ b) = true.
Proof.
  unfold single_line. rewrite contains_append, !negb_true_iff.
  intros -> ->. reflexivity.
Qed.

Lemma lines_cons a b :
  single_line a = true -> Str.lines (a +:+ NL +:+ b) = a :: Str.lines b.
Proof.
  unfold single_line, Str.lines. rewrite negb_true_iff. intros H.
  change (NL +:+ b) with (String Str.nl b). apply split_on_append_sep, H.
Qed.

Lemma lines_field p f rest :
  single_line p = true -> single_line f = true ->
  Str.lines (p +:+ f +:+ NL +:+ rest) = (p +:+ f) :: Str.lines rest.
Proof.
  intros Hp Hf. rewrite <- append_assoc. apply lines_cons, single_line_append; assumption.
Qed.

Lemma lines_last p f :
  single_line p = true -> single_line f = true ->
  Str.lines (p +:+ f +:+ NL) = [p +:+ f; ""].
Proof.
  intros Hp Hf. rewrite <- (append_nil_r NL). rewrite lines_field by assumption.
  reflexivity.
Qed.

Lemma join_names_single_line (l : list TagEnum) :
  single_line (Str.join "," (List.map tag_name l)) = true.
Proof.
  induction l as [|t l IH]; [reflexivity|].
  destruct l as [|t' l].
  - destruct t; reflexivity.
  - change (Str.join "," (List.map tag_name (t :: t' :: l)))
      with (tag_name t +:+ "," +:+ Str.join "," (List.map tag_name (t' :: l))).
    apply single_line_append; [destruct t; reflexivity|].
    apply single_line_append; [reflexivity|exact IH].
Qed.

Lemma tags_text_single_line m : single_line (tags_text m) = true.
Proof.
  unfold tags_text. apply single_line_append; [reflexivity|].
  apply single_line_append; [apply join_names_single_line|reflexivity].
Qed.

(** What [str.format] finds for each field of a record. *)
Lemma format_title m :
  format_field (render_fields (CompModel_dict m)) "title" = title m.
Proof. unfold CompModel_dict. destruct m as [? ? ? ? ? ? [[|c i]|]]; reflexivity. Qed.

Lemma format_date m :
  format_field (render_fields (CompModel_dict m)) "date" = date_text m.
Proof. unfold CompModel_dict. destruct m as [? ? ? ? ? [d|] [[|c i]|]]; reflexivity. Qed.

Lemma format_summary m :
  format_field (render_fields (CompModel_dict m)) "summary" = summary m.
Proof. unfold CompModel_dict. destruct m as [? ? ? ? ? ? [[|c i]|]]; reflexivity. Qed.

Lemma format_link m :
  format_field (render_fields (CompModel_dict m)) "link" = link m.
Proof. unfold CompModel_dict. destruct m as [? ? ? ? ? ? [[|c i]|]]; reflexivity. Qed.

Lemma format_tags m :
  format_field (render_fields (CompModel_dict m)) "tags" = tags_text m.
Proof. unfold CompModel_dict. destruct m as [? ? ? ? ? ? [[|c i]|]]; reflexivity. Qed.

Lemma format_image m img :
  image m = Some img -> img <> "" ->
  format_field (render_fields (CompModel_dict m)) "image"
  = path_name (path_of_string img).
Proof.
  destruct m as [? ? ? ? ? ? im]. simpl. intros -> Hne.
  destruct img as [|c i]; [congruence|]. reflexivity.
Qed.

Lemma path_name_no_slash s : Str.contains "/" (path_name (path_of_string s)) = false.
Proof.
  unfold path_name, path_of_string. cbn [parts].
  assert (H : Forall (fun p => Str.contains "/" p = false)
                (List.filter keep_part (Str.split_on "/" s))).
  { apply List.Forall_forall. intros x Hx. apply filter_In in Hx as [Hx _].
    pose proof (split_on_pieces "/" s) as Hall.
    rewrite List.Forall_forall in Hall. apply Hall, Hx. }
  induction H as [|p l Hp Hl IH]; [reflexivity|].
  destruct l as [|q l]; [exact Hp|exact IH].
Qed.

(** [C5], as amended: for a record whose title, date, summary and link
    hold no line break, the front matter of a record without an image has
    no [summaryImage] line, and the front matter of a record with an image
    has exactly one, whose value is the final component of the image path
    and holds no ["/"]. *)
Theorem C5_summaryImage_line (m : CompModel) :
  single_line (title m) = true -> single_line (date_text m) = true ->
  single_line (summary m) = true -> single_line (link m) = true ->
  match image m with
  | None => summaryImage_lines (front_matter m) = []
  | Some img =>
      let name := path_name (path_of_string img) in
      img <> "" -> single_line name = true ->
      summaryImage_lines (front_matter m) = ["summaryImage: " +:+ name]
      /\ Str.contains "/" name = false
  end.
Proof.
  intros Ht Hd Hs Hl. pose proof (tags_text_single_line m) as Htg.
  unfold summaryImage_lines, front_matter.
  destruct (image m) as [img|] eqn:Him.
  - intros Hne Hn. split; [|apply path_name_no_slash].
    assert (Htruthy : truthy (of_optional (Some img)) = true).
    { destruct img; [congruence|reflexivity]. }
    rewrite Htruthy. unfold template_with_image.
    rewrite format_title, format_date, format_summary, format_link, format_tags.
    rewrite (format_image m img Him Hne).
    rewrite !lines_field by (assumption || reflexivity).
    rewrite !lines_cons by reflexivity.
    rewrite !lines_field by (assumption || reflexivity).
    rewrite lines_last by (assumption || reflexivity).
    reflexivity.
  - cbn [of_optional truthy]. unfold template_without_image.
    rewrite format_title, format_date, format_summary, format_link, format_tags.
    rewrite !lines_field by (assumption || reflexivity).
    rewrite !lines_cons by reflexivity.
    rewrite !lines_field by (assumption || reflexivity).
    rewrite lines_last by (assumption || reflexivity).
    reflexivity.
Qed.

End Rendering.

Lemma C5_witness :
  summaryImage_lines (front_matter World.bar_model) = ["summaryImage: a.png"]
  /\ Str.contains "/" "a.png" = false.
Proof.
  apply (C5_summaryImage_line World.bar_model); try reflexivity. discriminate.
Defined.

(** The claim [C5] as it is written fails on a record without an image
    whose summary holds a line break: values are put into the template as
    they are. *)
Lemma C5_counterexample :
  exists m,
    CompModel_new World.E "Foo" World.foo_injected World.s0 = (Ok m, World.s0)
    /\ image m = None
    /\ summaryImage_lines (front_matter m) = ["summaryImage: x.png"].
Proof. eexists. vm_compute. auto. Qed.

(** ** Paths and their resolution *)

Section PathFacts.

Variable E : env.

Lemma path_of_string_wf s : path_wf (path_of_string s).
Proof.
  unfold path_wf, path_of_string. cbn [parts].
  apply List.Forall_forall. intros x Hx. apply filter_In in Hx as [Hx Hk].
  pose proof (split_on_pieces "/" s) as Hall.
  rewrite List.Forall_forall in Hall. unfold clean_part.
  rewrite Hk, (Hall x Hx). reflexivity.
Qed.

Lemma joinpath_wf p q : path_wf p -> path_wf q -> path_wf (joinpath p q).
Proof.
  unfold path_wf, joinpath. intros Hp Hq. destruct (is_absolute q); [assumption|].
  cbn [parts]. apply List.Forall_app. auto.
Qed.

Lemma clean_part_head c :
  clean_part c = true ->
  exists x c', c = String x c' /\ Ascii.eqb x "/" = false.
Proof.
  unfold clean_part, keep_part. destruct c as [|x c']; [discriminate|].
  rewrite !andb_true_iff, !negb_true_iff. simpl. intros [_ H].
  apply orb_false_iff in H as [H _]. eauto.
Qed.

Lemma join_cons2 sep (p q : string) l :
  Str.join sep (p :: q :: l) = p +:+ sep +:+ Str.join sep (q :: l).
Proof. reflexivity. Qed.

Lemma join_clean_head ps :
  ps <> [] -> List.Forall (fun c => clean_part c = true) ps ->
  exists x r, Str.join "/" ps = String x r /\ Ascii.eqb x "/" = false.
Proof.
  intros Hne H. destruct H as [|p ps Hp Hps]; [congruence|].
  apply clean_part_head in Hp as (x & c' & -> & Hx).
  destruct ps as [|q ps].
  - exists x, c'. auto.
  - rewrite join_cons2, append_cons. eauto.
Qed.

Lemma clean_no_slash ps :
  List.Forall (fun c => clean_part c = true) ps ->
  List.Forall (fun c => Str.contains "/" c = false) ps.
Proof.
  apply List.Forall_impl. intros c. unfold clean_part.
  rewrite andb_true_iff, negb_true_iff. tauto.
Qed.

(** The first character of [str(p)] tells whether [p] is absolute. *)
Lemma path_str_head p :
  path_wf p ->
  exists x r, path_str p = String x r /\ Ascii.eqb x "/" = is_absolute p.
Proof.
  intros Hwf. unfold path_str. destruct (is_absolute p).
  - exists "/"%char, (Str.join "/" (parts p)). auto.
  - destruct (parts p) as [|c ps] eqn:Hp.
    + exists "."%char, "". auto.
    + rewrite <- Hp. apply join_clean_head; [rewrite Hp; discriminate|exact Hwf].
Qed.

(** The components the kernel sees in [str(p)]. *)
Lemma split_path_str p :
  path_wf p ->
  Str.split_on "/" (path_str p)
  = (if is_absolute p then [""] else [])
    ++ match parts p with
       | [] => if is_absolute p then [""] else ["."]
       | ps => ps
       end.
Proof.
  intros Hwf. unfold path_str. destruct (is_absolute p).
  - change ("/" +:+ Str.join "/" (parts p)) with (String "/" (Str.join "/" (parts p))).
    cbn [Str.split_on]. rewrite Ascii.eqb_refl. cbn [app]. f_equal.
    destruct (parts p) as [|c ps] eqn:Hp; [reflexivity|].
    rewrite <- Hp. apply (split_on_join "/"); [rewrite Hp; discriminate|].
    apply clean_no_slash, Hwf.
  - destruct (parts p) as [|c ps] eqn:Hp; [reflexivity|].
    rewrite <- Hp. cbn [app]. apply (split_on_join "/"); [rewrite Hp; discriminate|].
    apply clean_no_slash, Hwf.
Qed.

Lemma dir_at_root m : dir_at m [] = true.
Proof. reflexivity. Qed.

Lemma fs_node_cons (m : gmap loc node) c (q : loc) :
  fs_node m (c :: q) = m !! (c :: q).
Proof. reflexivity. Qed.

Lemma fs_node_ne (m : gmap loc node) (q : loc) : q <> [] -> fs_node m q = m !! q.
Proof. destruct q; [congruence|reflexivity]. Qed.



(** Resolving [str(p)] is walking the parts of [p], from the root or from
    the working directory. *)
Lemma resolve_path_str m p :
  path_wf p ->
  resolve E m (path_str p)
  = if is_absolute p then walk m [] (parts p)
    else if dir_at m (cwd E) then walk m (cwd E) (parts p) else None.
Proof.
  intros Hwf. unfold resolve.
  destruct (path_str_head p Hwf) as (x & r & Hs & Hx).
  rewrite (split_path_str p Hwf). rewrite Hs. cbn [String.eqb Str.startswith].
  rewrite Hx. destruct (is_absolute p); cbn [andb app Str.startswith].
  - cbn [walk String.eqb orb]. rewrite dir_at_root.
    destruct (parts p); [reflexivity|reflexivity].
  - destruct (dir_at m (cwd E)) eqn:Hc; [|reflexivity].
    destruct (parts p); [|reflexivity].
    cbn. rewrite Hc. reflexivity.
Qed.

Lemma walk_app m cur a b :
  walk m cur (a ++ b)
  = match walk m cur a with Some q => walk m q b | None => None end.
Proof.
  revert cur. induction a as [|c a IH]; intros cur; [reflexivity|].
  cbn [app walk].
  destruct (String.eqb c "" || String.eqb c "."); [destruct (dir_at m cur); auto|].
  destruct (String.eqb c ".."); [destruct (dir_at m cur); auto|]. auto.
Qed.

(** Where a path leads, when it leads somewhere, does not depend on the
    file system. *)
Lemma walk_lexical m m' cur comps q q' :
  walk m cur comps = Some q -> walk m' cur comps = Some q' -> q = q'.
Proof.
  revert cur. induction comps as [|c comps IH]; intros cur; cbn [walk].
  - congruence.
  - destruct (String.eqb c "" || String.eqb c ".").
    { destruct (dir_at m cur), (dir_at m' cur); try discriminate. apply IH. }
    destruct (String.eqb c "..").
    { destruct (dir_at m cur), (dir_at m' cur); try discriminate. apply IH. }
    apply IH.
Qed.

Lemma resolve_lexical m m' s q q' :
  resolve E m s = Some q -> resolve E m' s = Some q' -> q = q'.
Proof.
  unfold resolve. destruct (String.eqb s ""); [discriminate|].
  destruct (Str.startswith s "/"); [apply walk_lexical|].
  destruct (dir_at m (cwd E)), (dir_at m' (cwd E)); try discriminate.
  apply walk_lexical.
Qed.

Lemma plain_name_walk m cur c rest :
  plain_name c = true -> walk m cur (c :: rest) = walk m (cur ++ [c]) rest.
Proof.
  unfold plain_name, clean_part, keep_part.
  rewrite !andb_true_iff, !negb_true_iff. intros [[[H1 H2] _] H3].
  cbn [walk]. rewrite H1, H2, H3. reflexivity.
Qed.

Lemma walk_plain m cur comps :
  List.Forall (fun c => plain_name c = true) comps ->
  walk m cur comps = Some (cur ++ comps).
Proof.
  intros H. revert cur. induction H as [|c comps Hc _ IH]; intros cur.
  - now rewrite app_nil_r.
  - rewrite (plain_name_walk _ _ _ _ Hc), IH, <- app_assoc. reflexivity.
Qed.


Lemma resolve_tmpdir m :
  resolve E m (path_str tmpdir)
  = if dir_at m (cwd E) then Some (tmp_loc E) else None.
Proof.
  rewrite resolve_path_str by apply path_of_string_wf.
  change (is_absolute tmpdir) with false.
  change (parts tmpdir) with ["static"; "components"; "tmp"].
  destruct (dir_at m (cwd E)); [|reflexivity].
  rewrite walk_plain by (repeat constructor). reflexivity.
Qed.

End PathFacts.

(** ** [random_file] *)

Section RandomFile.

Variable E : env.
Variable suffix : string.
Variable path : option Path.
Hypothesis path_ok : forall p, path = Some p -> path_wf p.

Lemma split_on_append_head c (a b : string) :
  Str.contains c a = false ->
  Str.split_on c (a +:+ b)
  = (a +:+ List.hd "" (Str.split_on c b)) :: List.tl (Str.split_on c b).
Proof.
  induction a as [|x a IH]; intros H.
  - rewrite append_nil_l.
    pose proof (split_on_nonempty c b). destruct (Str.split_on c b); [congruence|].
    reflexivity.
  - simpl in H. apply orb_false_iff in H as [Hx Ha].
    rewrite !append_cons. cbn [Str.split_on]. rewrite Hx, (IH Ha). reflexivity.
Qed.

Lemma uuid_plain_head u :
  uuid_plain u = true ->
  exists x u', u = String x u' /\ Ascii.eqb x "/" = false /\ Ascii.eqb x "." = false
               /\ Str.contains "/" u' = false.
Proof.
  unfold uuid_plain. destruct u as [|x u']; [discriminate|].
  rewrite !andb_true_iff, !negb_true_iff. simpl. intros [[_ H1] H2].
  apply orb_false_iff in H1 as [H1 H1'], H2 as [H2 _]. eauto 6.
Qed.

Lemma suffix_head_no_slash : Str.contains "/" (suffix_head suffix) = false.
Proof.
  unfold suffix_head. pose proof (split_on_pieces "/" suffix) as H.
  destruct H; [reflexivity|assumption].
Qed.

Lemma uuid_name_plain u :
  uuid_plain u = true -> plain_name (u +:+ (suffix_head suffix)) = true.
Proof.
  intros Hu. apply uuid_plain_head in Hu as (x & u' & -> & Hs & Hd & Hc).
  unfold plain_name, clean_part, keep_part. rewrite append_cons.
  cbn [String.eqb Str.contains]. rewrite Hd, Hs, contains_append, Hc.
  rewrite suffix_head_no_slash. reflexivity.
Qed.

Lemma fname_path u :
  uuid_plain u = true ->
  path_of_string (u +:+ suffix)
  = {| is_absolute := false; parts := (u +:+ (suffix_head suffix)) :: (suffix_rest suffix) |}.
Proof.
  intros Hu. pose proof (uuid_name_plain u Hu) as Hn.
  unfold path_of_string. f_equal.
  - apply uuid_plain_head in Hu as (x & u' & -> & Hs & _).
    rewrite append_cons. cbn [Str.startswith]. now rewrite Hs.
  - rewrite split_on_append_head.
    + fold (suffix_head suffix). cbn [List.filter].
      unfold plain_name, clean_part in Hn.
      rewrite !andb_true_iff in Hn. destruct Hn as [[-> _] _]. reflexivity.
    + apply uuid_plain_head in Hu as (x & u' & -> & Hs & _ & Hc).
      simpl. now rewrite Hs, Hc.
Qed.

Lemma suffix_rest_clean : List.Forall (fun c => clean_part c = true) (suffix_rest suffix).
Proof.
  unfold suffix_rest. apply List.Forall_forall. intros x Hx.
  apply filter_In in Hx as [Hx Hk]. unfold clean_part. rewrite Hk.
  pose proof (split_on_pieces "/" suffix) as Hall.
  rewrite List.Forall_forall in Hall. rewrite Hall; [reflexivity|].
  destruct (Str.split_on "/" suffix); [destruct Hx|right; exact Hx].
Qed.

Lemma candidate_wf u : uuid_plain u = true -> path_wf (candidate suffix path u).
Proof.
  intros Hu. unfold candidate. destruct path as [p|] eqn:Hp.
  - apply joinpath_wf; [apply path_ok; reflexivity|apply path_of_string_wf].
  - apply path_of_string_wf.
Qed.

Lemma resolve_candidate m u :
  uuid_plain u = true ->
  resolve E m (path_str (candidate suffix path u))
  = match base_loc E path m with
    | Some P => walk m (P ++ [u +:+ (suffix_head suffix)]) (suffix_rest suffix)
    | None => None
    end.
Proof.
  intros Hu. rewrite resolve_path_str by (apply candidate_wf, Hu).
  pose proof (uuid_name_plain u Hu) as Hn.
  unfold candidate, base_loc. rewrite (fname_path u Hu).
  destruct path as [p|].
  - unfold joinpath. cbn [is_absolute parts].
    destruct (is_absolute p).
    + rewrite walk_app. destruct (walk m [] (parts p)); [|reflexivity].
      apply plain_name_walk, Hn.
    + destruct (dir_at m (cwd E)); [|reflexivity].
      rewrite walk_app. destruct (walk m (cwd E) (parts p)); [|reflexivity].
      apply plain_name_walk, Hn.
  - cbn [is_absolute parts]. destruct (dir_at m (cwd E)); [|reflexivity].
    apply plain_name_walk, Hn.
Qed.


Lemma random_file_step depth s :
  random_file E (S depth) suffix path true s
  = let s1 := {| fs := fs s; draws := S (draws s); trace := trace s |} in
    if taken E suffix path (fs s) (uuid4 E (draws s))
    then random_file E depth suffix path true s1
    else (Ok (candidate suffix path (uuid4 E (draws s))), s1).
Proof.
  cbn [random_file]. unfold bind, draw_uuid, is_file, taken, candidate, ret.
  cbn [fs]. destruct path; destruct (resolve _ _ _) as [q|]; try reflexivity;
    destruct (file_at (fs s) q); reflexivity.
Qed.

Hypothesis plain : uuids_plain E.
Hypothesis distinct : uuids_distinct E.




End RandomFile.


(** ** File-system operations *)

Section FsFacts.

Variable E : env.

Lemma is_dir_inv p s b s' :
  is_dir E p s = (Ok b, s') ->
  s' = s /\ b = match resolve E (fs s) (path_str p) with
                | Some q => dir_at (fs s) q
                | None => false
                end.
Proof. unfold is_dir. intros [= <- <-]. auto. Qed.

Lemma is_dir_true p s s' :
  is_dir E p s = (Ok true, s') ->
  s' = s /\ exists q, resolve E (fs s) (path_str p) = Some q /\ dir_at (fs s) q = true.
Proof.
  intros H. apply is_dir_inv in H as [-> H]. split; [reflexivity|].
  destruct (resolve E (fs s) (path_str p)) as [q|]; [eauto|discriminate].
Qed.

Lemma mkdir_Ok p s s' :
  mkdir E p s = (Ok tt, s') ->
  exists q, resolve E (fs s) (path_str p) = Some q /\ fs_node (fs s) q = None
            /\ dir_at (fs s) (parent q) = true
            /\ s' = update_fs (<[q := Dir]> (fs s)) (EvMkdir q) s.
Proof.
  unfold mkdir. destruct (resolve E (fs s) (path_str p)) as [q|]; [|discriminate].
  destruct (fs_node (fs s) q) eqn:Hn; [discriminate|].
  destruct (dir_at (fs s) (parent q)) eqn:Hp; [|discriminate].
  intros [= <-]. eauto.
Qed.

Lemma rmtree_Ok p s s' :
  rmtree E p s = (Ok tt, s') ->
  exists q, resolve E (fs s) (path_str p) = Some q /\ dir_at (fs s) q = true
            /\ q <> []
            /\ s' = update_fs (delete q (emptied q (fs s))) (EvRmtree q) s.
Proof.
  unfold rmtree. destruct (resolve E (fs s) (path_str p)) as [q|]; [|discriminate].
  destruct (dir_at (fs s) q) eqn:Hd; [|discriminate]. cbv zeta.
  case_bool_decide as Hq; [discriminate|].
  destruct (String.eqb (path_str p) "."); [discriminate|].
  destruct (resolve E _ (path_str p)) as [q'|]; [|discriminate].
  destruct (String.eqb (path_name p) ".."); [discriminate|].
  intros [= <-]. eauto.
Qed.

Lemma write_file_Ok name content s s' :
  write_file E name content s = (Ok tt, s') ->
  exists q, resolve E (fs s) name = Some q /\ dir_at (fs s) q = false
            /\ dir_at (fs s) (parent q) = true
            /\ s' = update_fs (<[q := File content]> (fs s)) (EvWrite q) s.
Proof.
  unfold write_file. destruct (resolve E (fs s) name) as [q|]; [|discriminate].
  destruct (dir_at (fs s) q) eqn:Hd; [discriminate|].
  destruct (dir_at (fs s) (parent q)) eqn:Hp; [|discriminate].
  intros [= <-]. eauto.
Qed.

Lemma read_file_state name s r s' : read_file E name s = (r, s') -> s' = s.
Proof.
  unfold read_file. destruct (resolve E (fs s) name) as [q|]; [|intros [= _ <-]; reflexivity].
  destruct (fs_node (fs s) q) as [[c|]|]; intros [= _ <-]; reflexivity.
Qed.

(** Nothing is left below a directory that [rmtree] removed. *)
Lemma emptied_below (q k : loc) (m : gmap loc node) :
  q `prefix_of` k -> k <> q -> emptied q m !! k = None.
Proof.
  intros Hpre Hne. unfold emptied. apply map_lookup_filter_None. right.
  intros x _. cbn [fst]. unfold below.
  rewrite bool_decide_eq_true_2 by assumption.
  rewrite bool_decide_eq_false_2 by assumption. discriminate.
Qed.

Lemma emptied_outside (q k : loc) (m : gmap loc node) :
  ~ q `prefix_of` k -> emptied q m !! k = m !! k.
Proof.
  intros Hpre. unfold emptied. destruct (m !! k) as [x|] eqn:Hk.
  - apply map_lookup_filter_Some. split; [exact Hk|]. cbn [fst]. unfold below.
    rewrite bool_decide_eq_false_2 by assumption. reflexivity.
  - apply map_lookup_filter_None. left. exact Hk.
Qed.

Lemma emptied_self (q : loc) (m : gmap loc node) : emptied q m !! q = m !! q.
Proof.
  unfold emptied. destruct (m !! q) as [x|] eqn:Hk.
  - apply map_lookup_filter_Some. split; [exact Hk|]. cbn [fst]. unfold below.
    rewrite (bool_decide_eq_true_2 (q = q)) by reflexivity.
    now rewrite andb_false_r.
  - apply map_lookup_filter_None. left. exact Hk.
Qed.

Lemma child_ne (q : loc) (c : string) : q ++ [c] <> q.
Proof.
  intros H. apply (f_equal (@List.length string)) in H.
  rewrite List.length_app in H. simpl in H. lia.
Qed.

Lemma dir_at_insert (m : gmap loc node) (q k : loc) n :
  dir_at m k = true -> k <> q -> dir_at (<[q := n]> m) k = true.
Proof.
  unfold dir_at. destruct k as [|x k]; [reflexivity|].
  rewrite !fs_node_cons. intros H Hne. now rewrite lookup_insert_ne by congruence.
Qed.

Lemma dir_at_insert_Dir (m : gmap loc node) (q : loc) : dir_at (<[q := Dir]> m) q = true.
Proof.
  unfold dir_at. destruct q as [|x q]; [reflexivity|].
  rewrite fs_node_cons. now rewrite lookup_insert_eq.
Qed.

Lemma dir_at_insert_Dir_mono (m : gmap loc node) (q k : loc) :
  dir_at m k = true -> dir_at (<[q := Dir]> m) k = true.
Proof.
  intros H. destruct (decide (k = q)) as [->|Hne].
  - apply dir_at_insert_Dir.
  - apply dir_at_insert; assumption.
Qed.

(** Resolution survives when directories are only added. *)
Lemma walk_mono m m' cur comps q :
  (forall k, dir_at m k = true -> dir_at m' k = true) ->
  walk m cur comps = Some q -> walk m' cur comps = Some q.
Proof.
  intros Hm. revert cur. induction comps as [|c comps IH]; intros cur; cbn [walk]; [auto|].
  destruct (String.eqb c "" || String.eqb c ".").
  { destruct (dir_at m cur) eqn:Hd; [|discriminate]. rewrite (Hm _ Hd). apply IH. }
  destruct (String.eqb c "..").
  { destruct (dir_at m cur) eqn:Hd; [|discriminate]. rewrite (Hm _ Hd). apply IH. }
  apply IH.
Qed.

Lemma resolve_mono m m' name q :
  (forall k, dir_at m k = true -> dir_at m' k = true) ->
  resolve E m name = Some q -> resolve E m' name = Some q.
Proof.
  intros Hm. unfold resolve. destruct (String.eqb name ""); [discriminate|].
  destruct (Str.startswith name "/"); [apply walk_mono, Hm|].
  destruct (dir_at m (cwd E)) eqn:Hd; [|discriminate]. rewrite (Hm _ Hd).
  apply walk_mono, Hm.
Qed.

(** The entry [b] of the directory [a], for a name [b] without ["/"]. *)
Lemma resolve_child m (a b : string) q :
  resolve E m a = Some q -> Str.contains "/" b = false ->
  resolve E m (a +:+ "/" +:+ b) = walk m q [b].
Proof.
  unfold resolve. destruct a as [|x r]; [discriminate|]. intros H Hb.
  rewrite append_cons. cbn [String.eqb Str.startswith] in *.
  change (String x (r +:+ "/" +:+ b)) with (String x r +:+ String "/" b).
  rewrite split_on_append_full, (split_on_no_sep _ _ Hb).
  destruct (Ascii.eqb x "/" && true).
  - now rewrite walk_app, H.
  - destruct (dir_at m (cwd E)); [|discriminate]. now rewrite walk_app, H.
Qed.

Lemma join_clean_no_trailing_slash ps :
  ps <> [] -> List.Forall (fun c => clean_part c = true) ps ->
  Str.ends_with_char "/" (Str.join "/" ps) = false.
Proof.
  intros Hne H. induction H as [|p ps Hp Hps IH]; [congruence|].
  destruct ps as [|q ps].
  - apply ends_with_char_contains. unfold clean_part in Hp.
    apply andb_true_iff in Hp as [_ Hp]. now apply negb_true_iff in Hp.
  - rewrite join_cons2.
    destruct (join_clean_head (q :: ps)) as (x & r & Hj & _); [discriminate|exact Hps|].
    rewrite ends_with_char_append by discriminate.
    change ("/" +:+ Str.join "/" (q :: ps)) with (String "/" (Str.join "/" (q :: ps))).
    rewrite ends_with_char_cons by (rewrite Hj; discriminate).
    apply IH. discriminate.
Qed.

Lemma path_str_trailing_slash p :
  path_wf p -> Str.ends_with_char "/" (path_str p) = true ->
  is_absolute p = true /\ parts p = [].
Proof.
  intros Hwf. unfold path_str. destruct (is_absolute p).
  - destruct (parts p) as [|c ps] eqn:Hp; [auto|]. rewrite <- Hp.
    change ("/" +:+ Str.join "/" (parts p)) with (String "/" (Str.join "/" (parts p))).
    destruct (join_clean_head (parts p)) as (x & r & Hj & _);
      [rewrite Hp; discriminate|exact Hwf|].
    rewrite ends_with_char_cons by (rewrite Hj; discriminate).
    rewrite join_clean_no_trailing_slash; [discriminate|rewrite Hp; discriminate|exact Hwf].
  - destruct (parts p) as [|c ps] eqn:Hp; [discriminate|]. rewrite <- Hp.
    rewrite join_clean_no_trailing_slash; [discriminate|rewrite Hp; discriminate|exact Hwf].
Qed.

Lemma basename_no_slash src : Str.contains "/" (basename src) = false.
Proof.
  unfold basename. pose proof (split_on_pieces "/" src) as Hall.
  rewrite List.Forall_forall in Hall. apply Hall, last_piece_In, split_on_nonempty.
Qed.

Lemma no_slash_not_absolute b : Str.contains "/" b = false -> Str.startswith b "/" = false.
Proof.
  destruct b as [|x r]; [reflexivity|]. simpl. intros H.
  apply orb_false_iff in H as [-> _]. reflexivity.
Qed.

(** The entry [n] of the directory [p], as a path. *)
Lemma resolve_child_path m p n :
  path_wf p -> plain_name n = true ->
  resolve E m (path_str {| is_absolute := is_absolute p; parts := parts p ++ [n] |})
  = match resolve E m (path_str p) with
    | Some q => Some (q ++ [n])
    | None => None
    end.
Proof.
  intros Hwf Hn.
  assert (Hwf' : path_wf {| is_absolute := is_absolute p; parts := parts p ++ [n] |}).
  { unfold path_wf. cbn [parts]. apply List.Forall_app. split; [exact Hwf|].
    repeat constructor. unfold plain_name in Hn. now apply andb_true_iff in Hn as [Hn _]. }
  rewrite !resolve_path_str by assumption. cbn [is_absolute parts].
  assert (Hw : forall cur, walk m cur (parts p ++ [n])
                = match walk m cur (parts p) with
                  | Some q => Some (q ++ [n])
                  | None => None
                  end).
  { intros cur. rewrite walk_app. destruct (walk m cur (parts p)); [|reflexivity].
    now rewrite plain_name_walk. }
  destruct (is_absolute p); [apply Hw|].
  destruct (dir_at m (cwd E)); [apply Hw|reflexivity].
Qed.

(** [shutil.copy] into a directory that is there writes one entry in it,
    named after the source. *)
Lemma copy_into_dir src dst q s s' :
  path_wf dst ->
  resolve E (fs s) (path_str dst) = Some q -> q <> [] ->
  dir_at (fs s) q = true -> dir_at (fs s) (parent q) = true ->
  copy E src dst s = (Ok tt, s') ->
  exists c, s' = update_fs (<[q ++ [basename src] := File c]> (fs s))
                   (EvWrite (q ++ [basename src])) s.
Proof.
  intros Hwf Hres Hq Hd Hpar Hc. unfold copy in Hc.
  apply bind_Ok_inv in Hc as (isd & s1 & His & Hc).
  apply is_dir_inv in His as [-> ->]. rewrite Hres, Hd in Hc.
  apply bind_Ok_inv in Hc as (same & s1 & Hsame & Hc).
  unfold samefile in Hsame. injection Hsame as _ <-.
  destruct same; [discriminate|].
  apply bind_Ok_inv in Hc as (c & s1 & Hread & Hw).
  apply read_file_state in Hread as ->.
  apply write_file_Ok in Hw as (d & Hrd & Hdd & Hdp & ->).
  exists c.
  assert (Htarget : os_path_join (path_str dst) (basename src)
                    = path_str dst +:+ "/" +:+ basename src).
  { unfold os_path_join.
    rewrite (no_slash_not_absolute _ (basename_no_slash src)).
    destruct (path_str_head dst Hwf) as (x & r & Hs & _).
    destruct (Str.ends_with_char "/" (path_str dst)) eqn:He.
    - apply (path_str_trailing_slash dst Hwf) in He as [Ha Hp].
      rewrite (resolve_path_str E (fs s) dst Hwf), Ha, Hp in Hres.
      injection Hres as <-. congruence.
    - rewrite Hs. reflexivity. }
  rewrite Htarget, (resolve_child _ _ _ _ Hres (basename_no_slash src)) in Hrd.
  cbn [walk] in Hrd. rewrite Hd in Hrd.
  destruct (String.eqb (basename src) "" || String.eqb (basename src) ".").
  { injection Hrd as <-. congruence. }
  destruct (String.eqb (basename src) "..").
  { injection Hrd as <-. congruence. }
  injection Hrd as <-. reflexivity.
Qed.

(** [shutil.copy] into a directory that is there: what it writes is what
    it read from the source. *)
Lemma copy_into_dir_reads src dst q s s' :
  path_wf dst ->
  resolve E (fs s) (path_str dst) = Some q -> q <> [] ->
  dir_at (fs s) q = true -> dir_at (fs s) (parent q) = true ->
  copy E src dst s = (Ok tt, s') ->
  exists c, read_file E src s = (Ok c, s)
            /\ s' = update_fs (<[q ++ [basename src] := File c]> (fs s))
                      (EvWrite (q ++ [basename src])) s.
Proof.
  intros Hwf Hres Hq Hd Hpar Hc. unfold copy in Hc.
  apply bind_Ok_inv in Hc as (isd & s1 & His & Hc).
  apply is_dir_inv in His as [-> ->]. rewrite Hres, Hd in Hc.
  apply bind_Ok_inv in Hc as (same & s1 & Hsame & Hc).
  unfold samefile in Hsame. injection Hsame as _ <-.
  destruct same; [discriminate|].
  apply bind_Ok_inv in Hc as (c & s1 & Hread & Hw).
  pose proof (read_file_state _ _ _ _ Hread) as ->.
  apply write_file_Ok in Hw as (d & Hrd & Hdd & Hdp & ->).
  exists c. split; [exact Hread|].
  assert (Htarget : os_path_join (path_str dst) (basename src)
                    = path_str dst +:+ "/" +:+ basename src).
  { unfold os_path_join.
    rewrite (no_slash_not_absolute _ (basename_no_slash src)).
    destruct (path_str_head dst Hwf) as (x & r & Hs & _).
    destruct (Str.ends_with_char "/" (path_str dst)) eqn:He.
    - apply (path_str_trailing_slash dst Hwf) in He as [Ha Hp].
      rewrite (resolve_path_str E (fs s) dst Hwf), Ha, Hp in Hres.
      injection Hres as <-. congruence.
    - rewrite Hs. reflexivity. }
  rewrite Htarget, (resolve_child _ _ _ _ Hres (basename_no_slash src)) in Hrd.
  cbn [walk] in Hrd. rewrite Hd in Hrd.
  destruct (String.eqb (basename src) "" || String.eqb (basename src) ".").
  { injection Hrd as <-. congruence. }
  destruct (String.eqb (basename src) "..").
  { injection Hrd as <-. congruence. }
  injection Hrd as <-. reflexivity.
Qed.

End FsFacts.

(** ** The writer *)

Section Writer.

Variable E : env.

Lemma cpath_wf m : path_wf (cpath_of m).
Proof. apply joinpath_wf; apply path_of_string_wf. Qed.

Lemma index_path_eq (p : Path) :
  joinpath p (path_of_string "index.md")
  = {| is_absolute := is_absolute p; parts := parts p ++ ["index.md"] |}.
Proof. reflexivity. Qed.

(** What a run of the writer that completes has done: removed the output
    directory if it was there, made it, copied the image into it if there
    is one, and written [index.md] into it. *)
Lemma write_component_Ok m s s' :
  write_component E m s = (Ok tt, s') ->
  exists q s1 s3,
    ((is_dir E (cpath_of m) s = (Ok true, s)
      /\ resolve E (fs s) (path_str (cpath_of m)) = Some q
      /\ s1 = update_fs (delete q (emptied q (fs s))) (EvRmtree q) s)
     \/ (is_dir E (cpath_of m) s = (Ok false, s) /\ s1 = s))
    /\ q <> [] /\ fs s1 !! q = None
    /\ (s3 = update_fs (<[q := Dir]> (fs s1)) (EvMkdir q) s1
        \/ exists img c,
             image m = Some img /\
             s3 = update_fs (<[q ++ [basename img] := File c]> (<[q := Dir]> (fs s1)))
                    (EvWrite (q ++ [basename img]))
                    (update_fs (<[q := Dir]> (fs s1)) (EvMkdir q) s1))
    /\ s' = update_fs (<[q ++ ["index.md"] := File (index_md m)]> (fs s3))
              (EvWrite (q ++ ["index.md"])) s3.
Proof.
  unfold write_component. fold (cpath_of m). intros H.
  apply bind_Ok_inv in H as (ex & s0 & Hex & H).
  pose proof (is_dir_inv E _ _ _ _ Hex) as [-> _].
  apply bind_Ok_inv in H as ([] & s1 & Hrm & H).
  apply bind_Ok_inv in H as ([] & s2 & Hmk & H).
  apply bind_Ok_inv in H as ([] & s3 & Hcp & H).
  apply mkdir_Ok in Hmk as (q & Hres1 & Hnone & Hpar & ->).
  assert (Hq : q <> []) by (intros ->; discriminate Hnone).
  assert (Hnone' : fs s1 !! q = None).
  { rewrite <- (fs_node_ne (fs s1) q Hq). exact Hnone. }
  set (s2 := update_fs (<[q := Dir]> (fs s1)) (EvMkdir q) s1) in *.
  assert (Hres2 : resolve E (fs s2) (path_str (cpath_of m)) = Some q).
  { eapply resolve_mono; [|exact Hres1]. intros k. apply dir_at_insert_Dir_mono. }
  exists q, s1, s3. split; [|split; [exact Hq|split; [exact Hnone'|split]]].
  - destruct ex.
    + left. split; [exact Hex|].
      apply rmtree_Ok in Hrm as (q0 & Hres0 & _ & _ & ->).
      assert (q0 = q) by (eapply resolve_lexical; eauto). subst q0. auto.
    + right. injection Hrm as <-. auto.
  - destruct (image m) as [img|]; [|left; injection Hcp as <-; reflexivity].
    destruct (truthy (VStr img)); [|left; injection Hcp as <-; reflexivity].
    right. exists img.
    destruct (copy_into_dir E img (cpath_of m) q s2 s3 (cpath_wf m) Hres2 Hq)
      as [c ->]; [apply dir_at_insert_Dir| |exact Hcp|eauto].
    apply dir_at_insert_Dir_mono, Hpar.
  - rewrite index_path_eq in H.
    apply write_file_Ok in H as (idx & Hri & _ & _ & ->).
    rewrite (resolve_child_path E _ _ "index.md" (cpath_wf m) eq_refl) in Hri.
    destruct (resolve E (fs s3) (path_str (cpath_of m))) as [q3|] eqn:Hres3; [|discriminate].
    injection Hri as <-.
    assert (q3 = q) by (eapply resolve_lexical; eauto). subst q3. reflexivity.
Qed.

(** The image of the record is copied once the directory has been made
    anew: the entry under its file name holds what the image holds. *)
Lemma write_component_copies m img s s' :
  is_dir E (cpath_of m) s = (Ok true, s) ->
  write_component E m s = (Ok tt, s') ->
  image m = Some img -> img <> "" -> basename img <> "index.md" ->
  exists q c,
    resolve E (fs s) (path_str (cpath_of m)) = Some q
    /\ read_file E img s' = (Ok c, s')
    /\ fs s' !! (q ++ [basename img]) = Some (File c).
Proof.
  intros Hdir H Himg Hne Hbase. unfold write_component in H. fold (cpath_of m) in H.
  rewrite (bind_Ok_intro _ _ _ _ _ Hdir) in H.
  apply bind_Ok_inv in H as ([] & s1 & Hrm & H).
  apply bind_Ok_inv in H as ([] & s2 & Hmk & H).
  apply bind_Ok_inv in H as ([] & s3 & Hcp & H).
  apply rmtree_Ok in Hrm as (q & Hres & _ & Hq & ->).
  apply mkdir_Ok in Hmk as (q' & Hres1 & _ & Hpar & ->).
  assert (q' = q) by (eapply resolve_lexical; eauto). subst q'.
  cbn [fs update_fs] in Hpar.
  set (s2 := update_fs (<[q := Dir]> (delete q (emptied q (fs s)))) (EvMkdir q)
               (update_fs (delete q (emptied q (fs s))) (EvRmtree q) s)) in *.
  assert (Hres2 : resolve E (fs s2) (path_str (cpath_of m)) = Some q).
  { eapply resolve_mono; [|exact Hres1]. intros k. apply dir_at_insert_Dir_mono. }
  assert (Hunder : forall x, fs s2 !! (q ++ [x]) = None).
  { intros x. cbn [s2 fs update_fs].
    rewrite lookup_insert_ne by (apply not_eq_sym, child_ne).
    rewrite lookup_delete_ne by (apply not_eq_sym, child_ne).
    apply emptied_below; [now apply prefix_app_r|apply child_ne]. }
  rewrite Himg in Hcp. cbn [truthy] in Hcp.
  apply String.eqb_neq in Hne. rewrite Hne in Hcp. cbn [negb] in Hcp.
  destruct (copy_into_dir_reads E img (cpath_of m) q s2 s3 (cpath_wf m) Hres2 Hq)
    as (c & Hread & ->); [apply dir_at_insert_Dir| |exact Hcp|].
  { apply dir_at_insert_Dir_mono, Hpar. }
  rewrite index_path_eq in H.
  apply write_file_Ok in H as (idx & Hri & _ & _ & ->).
  rewrite (resolve_child_path E _ _ "index.md" (cpath_wf m) eq_refl) in Hri.
  match type of Hri with
  | match ?r with _ => _ end = _ => destruct r as [q3|] eqn:Hres3; [|discriminate]
  end.
  injection Hri as <-.
  assert (q3 = q) by (eapply resolve_lexical; eauto). subst q3.
  exists q, c. split; [exact Hres|]. cbn [fs update_fs]. split.
  - unfold read_file in Hread |- *. cbn [fs update_fs].
    destruct (resolve E (fs s2) img) as [loc|] eqn:Hloc; [|discriminate].
    destruct (fs_node (fs s2) loc) as [[c'|]|] eqn:Hnode; try discriminate.
    injection Hread as ->.
    assert (Hl : loc <> []) by (intros ->; discriminate Hnode).
    rewrite (fs_node_ne _ _ Hl) in Hnode.
    assert (Hout : forall x, loc <> q ++ [x]).
    { intros x ->. rewrite Hunder in Hnode. discriminate. }
    rewrite (resolve_mono E (fs s2) _ img loc); [|
      |exact Hloc].
    + rewrite (fs_node_ne _ _ Hl), !lookup_insert_ne by (apply not_eq_sym, Hout).
      now rewrite Hnode.
    + intros k Hk.
      assert (Hk' : forall x, k <> q ++ [x]).
      { intros x ->. unfold dir_at in Hk.
        rewrite fs_node_ne, Hunder in Hk by (destruct q; discriminate).
        discriminate. }
      apply dir_at_insert; [apply dir_at_insert; [exact Hk|apply Hk']|apply Hk'].
  - rewrite lookup_insert_ne; [apply lookup_insert_eq|].
    intros Heq. apply app_inv_head in Heq. injection Heq as Heq. congruence.
Qed.

(** [C7], as amended: when the output directory of a component is there
    as the writer starts and the writer completes, the writer has removed the
    directory with all it held and made it anew; when it is done the directory
    holds [index.md], the copy of the record's image under the image's file
    name (when the record has an image, with a file name other than
    [index.md]), and nothing else. *)
Theorem C7_existing_output_dir_is_replaced m s s' :
  is_dir E (cpath_of m) s = (Ok true, s) ->
  write_component E m s = (Ok tt, s') ->
  exists q evs,
    resolve E (fs s) (path_str (cpath_of m)) = Some q
    /\ trace s' = trace s ++ EvRmtree q :: EvMkdir q :: evs
    /\ fs s' !! q = Some Dir
    /\ fs s' !! (q ++ ["index.md"]) = Some (File (index_md m))
    /\ (forall img, image m = Some img -> img <> "" -> basename img <> "index.md" ->
          exists c, read_file E img s' = (Ok c, s')
                    /\ fs s' !! (q ++ [basename img]) = Some (File c))
    /\ forall k, q `prefix_of` k -> is_Some (fs s' !! k) ->
         k = q \/ k = q ++ ["index.md"]
         \/ exists img, image m = Some img /\ k = q ++ [basename img].
Proof.
  intros Hdir Hw.
  pose proof (fun img => write_component_copies m img s s' Hdir Hw) as Hcopy.
  apply write_component_Ok in Hw as (q & s1 & s3 & Hrm & Hq & Hnone & Hs3 & Hs').
  destruct Hrm as [(_ & Hres & ->)|(Hno & _)]; [|congruence].
  assert (Hcopy' : forall img, image m = Some img -> img <> "" ->
            basename img <> "index.md" ->
            exists c, read_file E img s' = (Ok c, s')
                      /\ fs s' !! (q ++ [basename img]) = Some (File c)).
  { intros img Hi Hne Hb. destruct (Hcopy img Hi Hne Hb) as (q' & c & Hq' & Hr & Hf).
    rewrite Hres in Hq'. injection Hq' as <-. eauto. }
  clear Hcopy. revert Hcopy'. rewrite Hs'. clear Hs'. intros Hcopy.
  assert (Hgone : forall k, q `prefix_of` k ->
            delete q (emptied q (fs s)) !! k = None).
  { intros k Hpre. destruct (decide (k = q)) as [->|Hne].
    - apply lookup_delete_eq.
    - rewrite lookup_delete_ne by congruence. now apply emptied_below. }
  destruct Hs3 as [->|(img & c & Him & ->)]; cbn [fs trace update_fs] in *.
  - exists q, [EvWrite (q ++ ["index.md"])].
    split; [exact Hres|]. split; [now rewrite <- !app_assoc|].
    split; [rewrite lookup_insert_ne by apply child_ne; apply lookup_insert_eq|].
    split; [apply lookup_insert_eq|]. split; [exact Hcopy|].
    intros k Hpre Hk.
    destruct (decide (k = q ++ ["index.md"])) as [->|H1]; [auto|].
    destruct (decide (k = q)) as [->|H2]; [auto|].
    rewrite lookup_insert_ne, lookup_insert_ne, (Hgone k Hpre) in Hk by congruence.
    destruct Hk as [x Hk]. discriminate.
  - exists q, [EvWrite (q ++ [basename img]); EvWrite (q ++ ["index.md"])].
    split; [exact Hres|]. split; [now rewrite <- !app_assoc|].
    split.
    { rewrite lookup_insert_ne by apply child_ne.
      rewrite lookup_insert_ne by apply child_ne. apply lookup_insert_eq. }
    split; [apply lookup_insert_eq|]. split; [exact Hcopy|].
    intros k Hpre Hk.
    destruct (decide (k = q ++ ["index.md"])) as [->|H1]; [auto|].
    destruct (decide (k = q ++ [basename img])) as [->|H3]; [eauto|].
    destruct (decide (k = q)) as [->|H2]; [auto|].
    rewrite !lookup_insert_ne, (Hgone k Hpre) in Hk by congruence.
    destruct Hk as [x Hk]. discriminate.
Qed.

End Writer.

(** ** The log of mutations only grows *)

Section Grows.

Variable E : env.

Lemma grows_same {A} (m : M A) :
  (forall s r s', m s = (r, s') -> s' = s) -> grows m.
Proof. intros H s r s' Hm. apply H in Hm as ->. exists []. now rewrite app_nil_r. Qed.

Lemma grows_ret {A} (a : A) : grows (ret a).
Proof. apply grows_same. intros s r s' [= _ <-]. reflexivity. Qed.

Lemma grows_raise {A} e : grows (raise e : M A).
Proof. apply grows_same. intros s r s' [= _ <-]. reflexivity. Qed.

Lemma grows_bind {A B} (m : M A) (k : A -> M B) :
  grows m -> (forall a, grows (k a)) -> grows (bind m k).
Proof.
  intros Hm Hk s r s'. unfold bind.
  destruct (m s) as [[a|e] s1] eqn:Hms; intros H.
  - apply Hm in Hms as [ev1 H1]. apply Hk in H as [ev2 H2].
    exists (ev1 ++ ev2). now rewrite H2, H1, app_assoc.
  - injection H as _ <-. eapply Hm, Hms.
Qed.

Lemma grows_update (m : M unit) :
  (forall s r s', m s = (r, s') -> s' = s \/ exists f ev, s' = update_fs f ev s) ->
  grows m.
Proof.
  intros H s r s' Hm. apply H in Hm as [->|(f & ev & ->)].
  - exists []. now rewrite app_nil_r.
  - exists [ev]. reflexivity.
Qed.

Lemma grows_is_dir p : grows (is_dir E p).
Proof. apply grows_same. intros s r s' [= _ <-]. reflexivity. Qed.

Lemma grows_is_file p : grows (is_file E p).
Proof. apply grows_same. intros s r s' [= _ <-]. reflexivity. Qed.

Lemma grows_mkdir p : grows (mkdir E p).
Proof.
  apply grows_update. intros s r s'. unfold mkdir.
  destruct (resolve E (fs s) (path_str p)) as [q|]; [|intros [= _ <-]; auto].
  destruct (fs_node (fs s) q); [intros [= _ <-]; auto|].
  destruct (dir_at (fs s) (parent q)); intros [= _ <-]; eauto.
Qed.

Lemma grows_rmtree p : grows (rmtree E p).
Proof.
  apply grows_update. intros s r s'. unfold rmtree.
  destruct (resolve E (fs s) (path_str p)) as [q|]; [|intros [= _ <-]; auto].
  destruct (dir_at (fs s) q); [|intros [= _ <-]; auto]. cbv zeta.
  case_bool_decide; [intros [= _ <-]; eauto|].
  destruct (String.eqb (path_str p) "."); [intros [= _ <-]; eauto|].
  destruct (resolve E _ (path_str p)) as [q'|]; [|intros [= _ <-]; eauto].
  destruct (String.eqb (path_name p) ".."); intros [= _ <-]; eauto.
Qed.

Lemma grows_write_file name c : grows (write_file E name c).
Proof.
  apply grows_update. intros s r s'. unfold write_file.
  destruct (resolve E (fs s) name) as [q|]; [|intros [= _ <-]; auto].
  destruct (dir_at (fs s) q); [intros [= _ <-]; auto|].
  destruct (dir_at (fs s) (parent q)); intros [= _ <-]; eauto.
Qed.

Lemma grows_assert b : grows (assert_ b).
Proof. destruct b; [apply grows_ret|apply grows_raise]. Qed.

Lemma grows_requests_get url : grows (requests_get E url).
Proof. apply grows_same. apply requests_get_state. Qed.

Lemma grows_random_file depth suffix path unique :
  grows (random_file E depth suffix path unique).
Proof.
  induction depth as [|depth IH]; [apply grows_raise|].
  cbn [random_file]. apply grows_bind.
  - intros s r s' [= _ <-]. exists []. cbn. now rewrite app_nil_r.
  - intros u. destruct unique; [|apply grows_ret].
    apply grows_bind; [apply grows_is_file|].
    intros [|]; [exact IH|apply grows_ret].
Qed.

Lemma grows_assert_image_is_file p : grows (assert_image_is_file E p).
Proof.
  apply grows_bind; [apply grows_is_file|].
  intros [|]; [apply grows_ret|apply grows_raise].
Qed.

Lemma grows__valid_image v : grows (_valid_image E v).
Proof.
  unfold _valid_image. destruct v as [v|]; [|apply grows_raise].
  destruct (Str.startswith v "http").
  - apply grows_bind; [apply grows_requests_get|]. intros res.
    apply grows_bind; [apply grows_assert|]. intros _.
    apply grows_bind; [apply grows_is_dir|]. intros d.
    apply grows_bind; [destruct d; [apply grows_ret|apply grows_mkdir]|]. intros _.
    apply grows_bind; [apply grows_random_file|]. intros pfile.
    apply grows_bind; [apply grows_write_file|]. intros _.
    apply grows_bind; [apply grows_assert_image_is_file|]. intros _.
    apply grows_ret.
  - apply grows_bind; [apply grows_assert_image_is_file|]. intros _. apply grows_ret.
Qed.

Lemma grows_catching {A} name (m : M A) : grows m -> grows (catching name m).
Proof.
  intros Hm s r s' H. apply catching_state in H as [r0 H]. eapply Hm, H.
Qed.

Lemma grows_validate_model input : grows (validate_model E input).
Proof.
  unfold validate_model.
  apply grows_bind; [apply grows_same, str_field_plain_state|]. intros r1.
  apply grows_bind; [apply grows_same, link_field_state|]. intros r2.
  apply grows_bind; [apply grows_same, str_field_plain_state|]. intros r3.
  apply grows_bind; [apply grows_same, str_field_plain_state|]. intros r4.
  apply grows_bind; [apply grows_same, date_field_state|]. intros r5.
  apply grows_bind.
  - unfold optional_str_field. destruct (dict_get "image" input) as [v|]; [|apply grows_ret].
    destruct (str_validator v); destruct v;
      first [apply grows_ret | apply grows_catching, grows__valid_image].
  - intros r6.
    destruct r1, r2, (tags_field input), r3, r4, r5, r6;
      try apply grows_raise.
    destruct (_ ++ _); [apply grows_ret|apply grows_raise].
Qed.

Lemma grows_CompModel_new comp_name comp : grows (CompModel_new E comp_name comp).
Proof.
  unfold CompModel_new. destruct comp; try apply grows_raise.
  destruct (_ || _); [apply grows_raise|apply grows_validate_model].
Qed.

End Grows.

(** ** The temporary directory *)

Section TmpDir.

Variable E : env.

Lemma tmp_loc_ne : tmp_loc E <> [].
Proof. unfold tmp_loc. destruct (cwd E); discriminate. Qed.

Lemma is_dir_tmpdir_gone s :
  fs s !! tmp_loc E = None -> is_dir E tmpdir s = (Ok false, s).
Proof.
  intros H. unfold is_dir. rewrite resolve_tmpdir.
  destruct (dir_at (fs s) (cwd E)); [|reflexivity].
  unfold dir_at. rewrite (fs_node_ne _ _ tmp_loc_ne), H. reflexivity.
Qed.

Lemma remove_tmpdir_Ok s s' :
  remove_tmpdir E s = (Ok tt, s') ->
  is_dir E tmpdir s' = (Ok false, s')
  /\ (s' = s \/ s' = update_fs (delete (tmp_loc E) (emptied (tmp_loc E) (fs s)))
                       (EvRmtree (tmp_loc E)) s).
Proof.
  unfold remove_tmpdir. intros H.
  apply bind_Ok_inv in H as (d & s1 & Hd & H).
  pose proof (is_dir_inv E _ _ _ _ Hd) as [-> Hb].
  destruct d.
  - apply rmtree_Ok in H as (q & Hres & _ & _ & ->).
    rewrite resolve_tmpdir in Hres.
    destruct (dir_at (fs s) (cwd E)); [|discriminate]. injection Hres as <-.
    split; [|auto]. apply is_dir_tmpdir_gone. cbn [fs update_fs].
    apply lookup_delete_eq.
  - injection H as <-. split; [|auto]. unfold is_dir. now rewrite <- Hb.
Qed.

Lemma process_component_Ok item s s' :
  process_component E item s = (Ok tt, s') ->
  exists m s1 s2,
    CompModel_new E (fst item) (snd item) s = (Ok m, s1)
    /\ write_component E m s1 = (Ok tt, s2)
    /\ remove_tmpdir E s2 = (Ok tt, s').
Proof.
  unfold process_component. intros H.
  apply bind_Ok_inv in H as (m & s1 & Hnew & H).
  apply bind_Ok_inv in H as ([] & s2 & Hw & H). eauto 6.
Qed.

Lemma remove_tmpdir_cleaned w s2 :
  remove_tmpdir E w = (Ok tt, s2) -> cleaned E w s2.
Proof.
  unfold remove_tmpdir. intros H.
  apply bind_Ok_inv in H as (d & s1 & Hd & H).
  pose proof (is_dir_inv E _ _ _ _ Hd) as [-> _].
  destruct d.
  - left. split; [exact Hd|].
    apply rmtree_Ok in H as (q & Hres & _ & _ & ->).
    rewrite resolve_tmpdir in Hres.
    destruct (dir_at (fs w) (cwd E)); [|discriminate]. injection Hres as <-.
    cbn [fs trace update_fs]. split; [reflexivity|]. split.
    + intros k Hk. destruct (decide (k = tmp_loc E)) as [->|Hne].
      * apply lookup_delete_eq.
      * rewrite lookup_delete_ne by congruence. now apply emptied_below.
    + intros k Hk. rewrite lookup_delete_ne; [apply emptied_outside, Hk|].
      intros <-. apply Hk. reflexivity.
  - right. injection H as <-. split; [exact Hd|reflexivity].
Qed.

(** One turn of the loop: the record is made, the page is written, and
    the temporary directory is seen to. *)
Lemma process_component_turn item s0 s2 :
  process_component E item s0 = (Ok tt, s2) ->
  exists m s1 w,
    CompModel_new E (fst item) (snd item) s0 = (Ok m, s1)
    /\ write_component E m s1 = (Ok tt, w)
    /\ (exists q evs, trace w = trace s0 ++ evs ++ [EvWrite (q ++ ["index.md"])]
                      /\ fs w !! (q ++ ["index.md"]) = Some (File (index_md m)))
    /\ cleaned E w s2
    /\ is_dir E tmpdir s2 = (Ok false, s2)
    /\ exists evs, trace s2 = trace s0 ++ evs.
Proof.
  intros H. apply process_component_Ok in H as (m & s1 & w & Hnew & Hw & Hrm).
  pose proof (remove_tmpdir_cleaned _ _ Hrm) as Hclean.
  apply remove_tmpdir_Ok in Hrm as [Hgone _].
  pose proof (grows_CompModel_new E _ _ _ _ _ Hnew) as [ev1 H1].
  pose proof Hw as Hw'.
  apply write_component_Ok in Hw' as (q & s1' & s3 & Hs1 & _ & _ & Hs3 & Hw').
  assert (H3 : exists ev3, trace s3 = trace s1 ++ ev3).
  { destruct Hs1 as [(_ & _ & ->)|(_ & ->)];
      destruct Hs3 as [->|(img & c & _ & ->)]; cbn [trace update_fs];
      rewrite <- ?app_assoc; eauto. }
  destruct H3 as [ev3 H3].
  assert (Htw : trace w = trace s0 ++ (ev1 ++ ev3) ++ [EvWrite (q ++ ["index.md"])]).
  { rewrite Hw'. cbn [trace update_fs]. rewrite H3, H1. now rewrite <- !app_assoc. }
  exists m, s1, w. split; [exact Hnew|]. split; [exact Hw|]. split.
  { exists q, (ev1 ++ ev3). split; [exact Htw|].
    rewrite Hw'. cbn [fs update_fs]. apply lookup_insert_eq. }
  split; [exact Hclean|]. split; [exact Hgone|].
  destruct Hclean as [(_ & Ht & _)|(_ & ->)].
  - rewrite Ht, Htw. rewrite <- !app_assoc. eauto.
  - rewrite Htw. eauto.
Qed.

Lemma for_each_split {A} (body : A -> M unit) l1 x l2 : forall s s',
  for_each body (l1 ++ x :: l2) s = (Ok tt, s') ->
  exists s0 s2, for_each body l1 s = (Ok tt, s0) /\ body x s0 = (Ok tt, s2)
                /\ for_each body l2 s2 = (Ok tt, s').
Proof.
  induction l1 as [|y l1 IH]; intros s s' H.
  - cbn [app for_each] in H. apply bind_Ok_inv in H as ([] & s2 & Hx & H).
    exists s, s2. auto.
  - cbn [app for_each] in H. apply bind_Ok_inv in H as ([] & s1 & Hy & H).
    apply IH in H as (s0 & s2 & H1 & Hx & H2). exists s0, s2. split; [|auto].
    cbn [for_each]. rewrite (bind_Ok_intro _ _ _ _ _ Hy). exact H1.
Qed.

Lemma for_each_trace data : forall s s',
  for_each (process_component E) data s = (Ok tt, s') ->
  exists evs, trace s' = trace s ++ evs.
Proof.
  induction data as [|item data IH]; intros s s' H.
  - injection H as <-. exists []. now rewrite app_nil_r.
  - cbn [for_each] in H. apply bind_Ok_inv in H as ([] & s1 & Hit & H).
    apply process_component_turn in Hit as (_ & _ & _ & _ & _ & _ & _ & _ & ev1 & H1).
    apply IH in H as [ev2 H2]. exists (ev1 ++ ev2). now rewrite H2, H1, app_assoc.
Qed.

Lemma for_each_gone data : forall s s',
  data <> [] ->
  for_each (process_component E) data s = (Ok tt, s') ->
  is_dir E tmpdir s' = (Ok false, s').
Proof.
  induction data as [|item data IH]; intros s s' Hne H; [congruence|].
  cbn [for_each] in H. apply bind_Ok_inv in H as ([] & s1 & Hit & H).
  destruct data as [|item' data].
  - injection H as <-.
    now apply process_component_turn in Hit as (_ & _ & _ & _ & _ & _ & _ & Hgone & _).
  - apply (IH s1 s'); [discriminate|exact H].
Qed.

Lemma main_Ok data s s' :
  main E data s = (Ok tt, s') <->
  is_dir E path s = (Ok true, s) /\ for_each (process_component E) data s = (Ok tt, s').
Proof.
  unfold main. split.
  - intros H. apply bind_Ok_inv in H as (d & s1 & Hd & H).
    pose proof (is_dir_inv E _ _ _ _ Hd) as [-> _].
    apply bind_Ok_inv in H as ([] & s1 & Ha & H).
    unfold assert_ in Ha. destruct d; [|discriminate]. injection Ha as <-. auto.
  - intros [Hd H]. rewrite (bind_Ok_intro _ _ _ _ _ Hd). exact H.
Qed.

End TmpDir.

(** [C1], as amended: in a run that completes, every component has its
    turn: from the state [s0] the components before it left, its record is
    made and its page written, which gives the state [w], with the writing of
    [index.md] as the last thing done.  Then the temporary directory, when it
    is there in [w], is removed with all it holds, as the one next thing done,
    and when it is not there nothing is done; the components after it start
    from there.  So the directory may be removed several times, and before
    later components are written.  At the end of the run it is not there. *)
Theorem C1_tmpdir_removed_after_each_component (E : env) before item after s s' :
  main E (before ++ item :: after) s = (Ok tt, s') ->
  exists s0 m s1 w s2,
    main E before s = (Ok tt, s0)
    /\ CompModel_new E (fst item) (snd item) s0 = (Ok m, s1)
    /\ write_component E m s1 = (Ok tt, w)
    /\ (exists q evs, trace w = trace s0 ++ evs ++ [EvWrite (q ++ ["index.md"])]
                      /\ fs w !! (q ++ ["index.md"]) = Some (File (index_md m)))
    /\ cleaned E w s2
    /\ for_each (process_component E) after s2 = (Ok tt, s')
    /\ (exists evs, trace s' = trace s2 ++ evs)
    /\ is_dir E tmpdir s' = (Ok false, s').
Proof.
  intros H. apply main_Ok in H as [Hd H].
  assert (Hgone : is_dir E tmpdir s' = (Ok false, s')).
  { apply (for_each_gone E (before ++ item :: after) s s'); [|exact H].
    destruct before; discriminate. }
  apply for_each_split in H as (s0 & s2 & Hb & Hit & Ha).
  apply process_component_turn in Hit as (m & s1 & w & Hnew & Hw & Hidx & Hclean & _ & _).
  exists s0, m, s1, w, s2.
  split; [apply main_Ok; auto|]. split; [exact Hnew|]. split; [exact Hw|].
  split; [exact Hidx|]. split; [exact Hclean|]. split; [exact Ha|].
  split; [exact (for_each_trace E after s2 s' Ha)|exact Hgone].
Qed.

Lemma C1_witness :
  exists s',
    main World.E ([] ++ ("Bar", World.bar_remote) :: [("Baz", World.foo_remote)]) World.s0
      = (Ok tt, s')
    /\ exists s0 m s1 w s2,
         main World.E [] World.s0 = (Ok tt, s0)
         /\ CompModel_new World.E "Bar" World.bar_remote s0 = (Ok m, s1)
         /\ write_component World.E m s1 = (Ok tt, w)
         /\ (exists q evs,
               trace w = trace s0 ++ evs ++ [EvWrite (q ++ ["index.md"])]
               /\ fs w !! (q ++ ["index.md"]) = Some (File (index_md m)))
         /\ cleaned World.E w s2
         /\ for_each (process_component World.E) [("Baz", World.foo_remote)] s2 = (Ok tt, s')
         /\ (exists evs, trace s' = trace s2 ++ evs)
         /\ is_dir World.E tmpdir s' = (Ok false, s').
Proof.
  eexists. split; [vm_compute; reflexivity|].
  apply (C1_tmpdir_removed_after_each_component World.E []
           ("Bar", World.bar_remote) [("Baz", World.foo_remote)] World.s0).
  vm_compute. reflexivity.
Defined.

(** The claim [C1] as it is written fails on a run over two components
    with remote images: the directory is removed twice, the first time
    before the second component is written. *)
Lemma C1_counterexample :
  exists s',
    main World.E [("Bar", World.bar_remote); ("Baz", World.foo_remote)] World.s0
      = (Ok tt, s')
    /\ count_occ event_eq_dec (trace s') (EvRmtree (tmp_loc World.E)) = 2
    /\ trace s' !! 5 = Some (EvRmtree (tmp_loc World.E))
    /\ trace s' !! 10
       = Some (EvWrite (out_loc World.E ++ ["Baz"; "index.md"])).
Proof. eexists. vm_compute. auto. Qed.

(** ** What validation touches *)

Section Confined.

Variable E : env.
Hypothesis plain : uuids_plain E.
Hypothesis cwd_ok : cwd_plain E.

Lemma unchanged_refl s : outside_tmp_unchanged E s s.
Proof. intros k _. reflexivity. Qed.

Lemma unchanged_trans s1 s2 s3 :
  outside_tmp_unchanged E s1 s2 -> outside_tmp_unchanged E s2 s3 ->
  outside_tmp_unchanged E s1 s3.
Proof. intros H1 H2 k Hk. now rewrite (H2 k Hk), (H1 k Hk). Qed.

Lemma confined_same {A} (m : M A) :
  (forall s r s', m s = (r, s') -> fs s' = fs s) -> confined E m.
Proof. intros H s r s' Hm k _. now rewrite (H _ _ _ Hm). Qed.

Lemma confined_ret {A} (a : A) : confined E (ret a).
Proof. apply confined_same. intros s r s' [= _ <-]. reflexivity. Qed.

Lemma confined_raise {A} e : confined E (raise e : M A).
Proof. apply confined_same. intros s r s' [= _ <-]. reflexivity. Qed.

(** Sequencing, with what is known of the value handed over. *)
Lemma confined_bind {A B} (Q : A -> Prop) (m : M A) (k : A -> M B) :
  confined E m -> (forall s a s', m s = (Ok a, s') -> Q a) ->
  (forall a, Q a -> confined E (k a)) -> confined E (bind m k).
Proof.
  intros Hm HQ Hk s r s'. unfold bind.
  destruct (m s) as [[a|e] s1] eqn:Hms; intros H.
  - eapply unchanged_trans; [eapply Hm, Hms|]. eapply Hk; [eapply HQ, Hms|exact H].
  - injection H as _ <-. eapply Hm, Hms.
Qed.

Lemma confined_bind_any {A B} (m : M A) (k : A -> M B) :
  confined E m -> (forall a, confined E (k a)) -> confined E (bind m k).
Proof. intros Hm Hk. apply (confined_bind (fun _ => True)); auto. Qed.

Lemma confined_write_at (m : M unit) :
  (forall s r s', m s = (r, s') ->
     s' = s \/ exists q n ev, tmp_loc E `prefix_of` q
                              /\ s' = update_fs (<[q := n]> (fs s)) ev s) ->
  confined E m.
Proof.
  intros H s r s' Hm k Hk. apply H in Hm as [->|(q & n & ev & Hq & ->)]; [reflexivity|].
  cbn [fs update_fs]. apply lookup_insert_ne. intros ->. contradiction.
Qed.

Lemma confined_mkdir_tmpdir : confined E (mkdir E tmpdir).
Proof.
  apply confined_write_at. intros s r s'. unfold mkdir. rewrite resolve_tmpdir.
  destruct (dir_at (fs s) (cwd E)); [|intros [= _ <-]; auto].
  destruct (fs_node (fs s) (tmp_loc E)); [intros [= _ <-]; auto|].
  destruct (dir_at (fs s) (parent (tmp_loc E))); intros [= _ <-]; [|auto].
  right. exists (tmp_loc E), Dir, (EvMkdir (tmp_loc E)). split; reflexivity.
Qed.

Lemma random_file_result depth suffix path unique : forall s p s',
  random_file E depth suffix path unique s = (Ok p, s') ->
  fs s' = fs s /\ exists n, p = candidate suffix path (uuid4 E n).
Proof.
  induction depth as [|depth IH]; intros s p s'; [discriminate|].
  cbn [random_file]. unfold bind at 1. unfold draw_uuid at 1.
  destruct unique.
  - unfold bind at 1. unfold is_file at 1. cbn [fs].
    match goal with
    | |- context [if ?b then _ else _] => destruct b
    end.
    + intros H. apply IH in H as [Hfs Hn]. cbn [fs] in Hfs. auto.
    + intros [= <- <-]. split; [reflexivity|]. exists (draws s).
      unfold candidate. destruct path; reflexivity.
  - intros [= <- <-]. split; [reflexivity|]. exists (draws s).
    unfold candidate. destruct path; reflexivity.
Qed.

Lemma random_file_fs depth suffix path unique s r s' :
  random_file E depth suffix path unique s = (r, s') -> fs s' = fs s.
Proof.
  revert s. induction depth as [|depth IH]; intros s; [intros [= _ <-]; reflexivity|].
  cbn [random_file]. unfold bind at 1. unfold draw_uuid at 1.
  destruct unique.
  - unfold bind at 1. unfold is_file at 1. cbn [fs].
    match goal with
    | |- context [if ?b then _ else _] => destruct b
    end.
    + intros H. apply IH in H. exact H.
    + intros [= _ <-]. reflexivity.
  - intros [= _ <-]. reflexivity.
Qed.

(** The extension of a URL holds no ["."]. *)
Lemma ext_no_dot v : Str.contains "." (Str.last_piece (Str.split_on "." v)) = false.
Proof.
  pose proof (split_on_pieces "." v) as Hall. rewrite List.Forall_forall in Hall.
  apply Hall, last_piece_In, split_on_nonempty.
Qed.

Lemma no_dot_plain c :
  keep_part c = true -> Str.contains "/" c = false -> Str.contains "." c = false ->
  plain_name c = true.
Proof.
  intros Hk Hs Hd. unfold plain_name, clean_part. rewrite Hk, Hs.
  destruct c as [|x c]; [reflexivity|]. simpl in Hd.
  apply orb_false_iff in Hd as [Hx _]. cbn. rewrite Hx. reflexivity.
Qed.

Lemma suffix_rest_plain ext :
  Str.contains "." ext = false ->
  List.Forall (fun c => plain_name c = true) (suffix_rest ("." +:+ ext)).
Proof.
  intros Hd. unfold suffix_rest.
  rewrite (split_on_append_head "/" "." ext eq_refl). cbn [List.tl].
  apply List.Forall_forall. intros c Hc. apply filter_In in Hc as [Hc Hk].
  pose proof (split_on_pieces "/" ext) as H1.
  pose proof (split_on_pieces_without "/" "." ext Hd) as H2.
  rewrite List.Forall_forall in H1, H2.
  assert (Hin : In c (Str.split_on "/" ext)).
  { destruct (Str.split_on "/" ext); [destruct Hc|right; exact Hc]. }
  apply no_dot_plain; auto.
Qed.

Lemma cwd_clean : List.Forall (fun c => clean_part c = true) (cwd E).
Proof.
  eapply List.Forall_impl; [|exact cwd_ok]. intros c. unfold plain_name.
  rewrite andb_true_iff. tauto.
Qed.

(** Where the download goes. *)
Lemma resolve_download m ext u :
  Str.contains "." ext = false -> uuid_plain u = true ->
  resolve E m (path_str (absolute E (candidate ("." +:+ ext) (Some tmpdir) u)))
  = Some (tmp_loc E ++ (u +:+ suffix_head ("." +:+ ext)) :: suffix_rest ("." +:+ ext)).
Proof.
  intros Hd Hu. unfold candidate. rewrite (fname_path _ u Hu).
  unfold absolute, joinpath. cbn [is_absolute parts].
  change (is_absolute tmpdir) with false.
  change (parts tmpdir) with ["static"; "components"; "tmp"].
  cbn [is_absolute parts].
  rewrite resolve_path_str; cbn [is_absolute parts].
  - rewrite walk_plain; [unfold tmp_loc; now rewrite <- !app_assoc|].
    apply List.Forall_app. split; [exact cwd_ok|].
    apply List.Forall_app. split; [repeat constructor|].
    constructor; [apply uuid_name_plain, Hu|apply suffix_rest_plain, Hd].
  - unfold path_wf. cbn [parts]. apply List.Forall_app. split; [exact cwd_clean|].
    apply List.Forall_app. split; [repeat constructor|].
    constructor; [|apply suffix_rest_clean].
    pose proof (uuid_name_plain ("." +:+ ext) u Hu) as Hn.
    unfold plain_name in Hn. now apply andb_true_iff in Hn as [Hn _].
Qed.

Lemma confined__valid_image v : confined E (_valid_image E v).
Proof.
  unfold _valid_image. destruct v as [v|]; [|apply confined_raise].
  assert (Hassert : forall p, confined E (assert_image_is_file E p)).
  { intros p. apply confined_same. intros s r s'. unfold assert_image_is_file, bind.
    unfold is_file at 1.
    match goal with
    | |- context [if ?b then _ else _] => destruct b
    end; intros [= _ <-]; reflexivity. }
  destruct (Str.startswith v "http").
  - apply confined_bind_any.
    { apply confined_same. intros s r s' H. now rewrite (requests_get_state E _ _ _ _ H). }
    intros res. apply confined_bind_any.
    { destruct (Nat.eqb (fst res) 200); [apply confined_ret|apply confined_raise]. }
    intros _. apply confined_bind_any.
    { apply confined_same. intros s r s' [= _ <-]. reflexivity. }
    intros d. apply confined_bind_any.
    { destruct d; [apply confined_ret|apply confined_mkdir_tmpdir]. }
    intros _.
    apply (confined_bind
             (fun p => exists n, p = candidate ("." +:+ Str.last_piece (Str.split_on "." v))
                                       (Some tmpdir) (uuid4 E n))).
    { apply confined_same. intros s r s'. apply random_file_fs. }
    { intros s p s' H. now apply random_file_result in H as [_ H]. }
    intros p [n ->]. apply confined_bind_any.
    { apply confined_write_at. intros s r s'. unfold write_file.
      rewrite (resolve_download _ _ _ (ext_no_dot v) (plain n)).
      match goal with
      | |- context [if dir_at ?m ?q then _ else _] => destruct (dir_at m q)
      end; [intros [= _ <-]; auto|].
      match goal with
      | |- context [if dir_at ?m ?q then _ else _] => destruct (dir_at m q)
      end; intros [= _ <-]; [|auto].
      right. eexists _, _, _. split; [|reflexivity]. now apply prefix_app_r. }
    intros _. apply confined_bind_any; [apply Hassert|]. intros _. apply confined_ret.
  - apply confined_bind_any; [apply Hassert|]. intros _. apply confined_ret.
Qed.

Lemma confined_catching {A} name (m : M A) : confined E m -> confined E (catching name m).
Proof.
  intros Hm s r s' H. apply catching_state in H as [r0 H]. eapply Hm, H.
Qed.

Lemma confined_state_same {A} (m : M A) :
  (forall s r s', m s = (r, s') -> s' = s) -> confined E m.
Proof. intros H. apply confined_same. intros s r s' Hm. now rewrite (H _ _ _ Hm). Qed.

Lemma confined_validate_model input : confined E (validate_model E input).
Proof.
  unfold validate_model.
  apply confined_bind_any; [apply confined_state_same, str_field_plain_state|]. intros r1.
  apply confined_bind_any; [apply confined_state_same, link_field_state|]. intros r2.
  apply confined_bind_any; [apply confined_state_same, str_field_plain_state|]. intros r3.
  apply confined_bind_any; [apply confined_state_same, str_field_plain_state|]. intros r4.
  apply confined_bind_any; [apply confined_state_same, date_field_state|]. intros r5.
  apply confined_bind_any.
  - unfold optional_str_field. destruct (dict_get "image" input) as [v|]; [|apply confined_ret].
    destruct (str_validator v); destruct v;
      first [apply confined_ret | apply confined_catching, confined__valid_image].
  - intros r6.
    destruct r1, r2, (tags_field input), r3, r4, r5, r6;
      try apply confined_raise.
    destruct (_ ++ _); [apply confined_ret|apply confined_raise].
Qed.

Lemma confined_CompModel_new comp_name comp : confined E (CompModel_new E comp_name comp).
Proof.
  unfold CompModel_new. destruct comp; try apply confined_raise.
  destruct (_ || _); [apply confined_raise|apply confined_validate_model].
Qed.

Lemma out_not_tmp k : out_loc E `prefix_of` k -> ~ tmp_loc E `prefix_of` k.
Proof.
  unfold out_loc, tmp_loc. intros [e1 H1] [e2 H2]. rewrite H1 in H2.
  rewrite <- !app_assoc in H2. apply app_inv_head in H2. discriminate.
Qed.

End Confined.

Lemma for_each_app {A} (body : A -> M unit) (l1 l2 : list A) s :
  for_each body (l1 ++ l2) s
  = match for_each body l1 s with
    | (Ok _, s1) => for_each body l2 s1
    | (Raise e, s1) => (Raise e, s1)
    end.
Proof.
  revert s. induction l1 as [|x l1 IH]; intros s; [reflexivity|].
  cbn [app for_each]. unfold bind. destruct (body x s) as [[[]|e] s1]; [apply IH|reflexivity].
Qed.

(** [C9]: when the construction of the record of a component raises, the
    run ends there with that exception; of the file system only the
    temporary directory can differ from what the components before it
    left, so no output directory is made, removed or changed: not under
    [content/components], and not anywhere else a title may lead. *)
Theorem C9_failed_validation_aborts_run (E : env) before item after s s1 s2 e :
  uuids_plain E -> cwd_plain E ->
  main E before s = (Ok tt, s1) ->
  CompModel_new E (fst item) (snd item) s1 = (Raise e, s2) ->
  main E (before ++ item :: after) s = (Raise e, s2)
  /\ outside_tmp_unchanged E s1 s2
  /\ forall k, out_loc E `prefix_of` k -> fs s2 !! k = fs s1 !! k.
Proof.
  intros Hplain Hcwd Hmain Hnew.
  pose proof (confined_CompModel_new E Hplain Hcwd _ _ _ _ _ Hnew) as Hout.
  split; [|split; [exact Hout|]].
  - unfold main in *. unfold bind in *.
    destruct (is_dir E path s) as [[d|e0] s0]; [|discriminate].
    destruct (assert_ d s0) as [[[]|e0] s0']; [|discriminate].
    rewrite for_each_app, Hmain. cbn [for_each]. unfold bind, process_component, bind.
    now rewrite Hnew.
  - intros k Hk. apply Hout. now apply out_not_tmp.
Qed.

(** ** Valid records *)

Section Accepting.

Variable E : env.






Lemma base_loc_tmpdir m :
  dir_at m (cwd E) = true -> base_loc E (Some tmpdir) m = Some (tmp_loc E).
Proof.
  intros H. unfold base_loc. change (is_absolute tmpdir) with false.
  change (parts tmpdir) with ["static"; "components"; "tmp"]. cbv iota.
  rewrite H, walk_plain by (repeat constructor). reflexivity.
Qed.

Lemma no_slash_suffix ext :
  Str.contains "/" ext = false ->
  suffix_head ("." +:+ ext) = "." +:+ ext /\ suffix_rest ("." +:+ ext) = [].
Proof.
  intros H. unfold suffix_head, suffix_rest.
  rewrite (split_on_no_sep "/" ("." +:+ ext)); [auto|].
  rewrite contains_append, H. reflexivity.
Qed.

Lemma parent_child (q : loc) c : parent (q ++ [c]) = q.
Proof. unfold parent. apply removelast_last. Qed.

Lemma dir_at_None (m : gmap loc node) (q : loc) : m !! q = None -> q <> [] -> dir_at m q = false.
Proof. intros H Hq. unfold dir_at. now rewrite (fs_node_ne _ _ Hq), H. Qed.

Lemma file_at_None (m : gmap loc node) (q : loc) : m !! q = None -> q <> [] -> file_at m q = false.
Proof. intros H Hq. unfold file_at. now rewrite (fs_node_ne _ _ Hq), H. Qed.

Lemma child_ne_nil (q : loc) c : q ++ [c] <> [].
Proof. destruct q; discriminate. Qed.

Lemma file_at_insert_File (m : gmap loc node) (q : loc) c :
  q <> [] -> file_at (<[q := File c]> m) q = true.
Proof.
  intros Hq. unfold file_at. now rewrite (fs_node_ne _ _ Hq), lookup_insert_eq.
Qed.


Hypothesis uuids_ok : uuids_plain E.
Hypothesis uuids_new : uuids_distinct E.
Hypothesis cwd_ok : cwd_plain E.






End Accepting.

(** ** The concrete world *)

Module WorldFacts.

Lemma repeat_a_contains c k :
  Ascii.eqb "a" c = false ->
  Str.contains c (string_of_list_ascii (List.repeat "a"%char k)) = false.
Proof.
  intros Hc. induction k as [|k IH]; [reflexivity|].
  cbn [Str.contains string_of_list_ascii List.repeat]. now rewrite Hc, IH.
Qed.

Lemma repeat_a_length k :
  String.length (string_of_list_ascii (List.repeat "a"%char k)) = k.
Proof. induction k as [|k IH]; [reflexivity|]. simpl. now rewrite IH. Qed.

Lemma uuids_plain : uuids_plain World.E.
Proof.
  intros n. unfold uuid_plain. cbn [uuid4 World.E]. unfold World.uuid.
  rewrite !repeat_a_contains by reflexivity. reflexivity.
Qed.

Lemma uuids_distinct : uuids_distinct World.E.
Proof.
  intros i j H. cbn [uuid4 World.E] in H. unfold World.uuid in H.
  apply (f_equal String.length) in H. rewrite !repeat_a_length in H. lia.
Qed.

Lemma cwd_plain : cwd_plain World.E.
Proof. repeat constructor. Qed.





End WorldFacts.



Lemma C7_witness :
  exists s',
    is_dir World.E (cpath_of World.foo_model) World.s_rerun = (Ok true, World.s_rerun)
    /\ write_component World.E World.foo_model World.s_rerun = (Ok tt, s')
    /\ exists q evs,
         resolve World.E (fs World.s_rerun) (path_str (cpath_of World.foo_model)) = Some q
         /\ trace s' = trace World.s_rerun ++ EvRmtree q :: EvMkdir q :: evs
         /\ fs s' !! q = Some Dir
         /\ fs s' !! (q ++ ["index.md"]) = Some (File (index_md World.foo_model))
         /\ (forall img, image World.foo_model = Some img -> img <> "" ->
               basename img <> "index.md" ->
               exists c, read_file World.E img s' = (Ok c, s')
                         /\ fs s' !! (q ++ [basename img]) = Some (File c))
         /\ forall k, q `prefix_of` k -> is_Some (fs s' !! k) ->
              k = q \/ k = q ++ ["index.md"]
              \/ exists img, image World.foo_model = Some img /\ k = q ++ [basename img].
Proof.
  eexists. split; [vm_compute; reflexivity|]. split; [vm_compute; reflexivity|].
  apply (C7_existing_output_dir_is_replaced World.E World.foo_model World.s_rerun).
  - vm_compute. reflexivity.
  - vm_compute. reflexivity.
Defined.

(** The claim [C7] as it is written fails on a record, accepted by the
    constructor, whose image lies in the output directory of the run before:
    the directory is removed with the image in it and made anew, the copy of
    the image then raises, and the directory is left without [index.md]. *)
Lemma C7_counterexample :
  exists m s',
    CompModel_new World.E "Foo" (JObject World.inside_members) World.s_inside
      = (Ok m, World.s_inside)
    /\ is_dir World.E (cpath_of m) World.s_inside = (Ok true, World.s_inside)
    /\ write_component World.E m World.s_inside = (Raise (OSError ENOENT), s')
    /\ fs s' !! (out_loc World.E ++ ["Foo"]) = Some Dir
    /\ fs s' !! (out_loc World.E ++ ["Foo"; "index.md"]) = None
    /\ fs s' !! (out_loc World.E ++ ["Foo"; "logo.png"]) = None.
Proof.
  eexists _, _. split; [vm_compute; reflexivity|].
  split; [vm_compute; reflexivity|]. split; [vm_compute; reflexivity|].
  vm_compute. auto.
Qed.


Lemma C9_witness :
  exists s1 s2 e,
    main World.E [("Foo", World.foo)] World.s0 = (Ok tt, s1)
    /\ CompModel_new World.E "Bad" World.bad_link_remote s1 = (Raise e, s2)
    /\ main World.E ([("Foo", World.foo)] ++ ("Bad", World.bad_link_remote)
                       :: [("Bar", World.bar_remote)]) World.s0 = (Raise e, s2)
    /\ outside_tmp_unchanged World.E s1 s2
    /\ forall k, out_loc World.E `prefix_of` k -> fs s2 !! k = fs s1 !! k.
Proof.
  eexists _, _, _. split; [vm_compute; reflexivity|]. split; [vm_compute; reflexivity|].
  apply (C9_failed_validation_aborts_run World.E [("Foo", World.foo)]
           ("Bad", World.bad_link_remote) [("Bar", World.bar_remote)] World.s0).
  - exact WorldFacts.uuids_plain.
  - exact WorldFacts.cwd_plain.
  - vm_compute. reflexivity.
  - vm_compute. reflexivity.
Defined.

(** * Further properties of the script *)

(** ** [random_file] (lines 32-59) *)

Section RandomFileMore.

Variable E : env.


Lemma no_slash_suffix_parts suffix :
  Str.contains "/" suffix = false ->
  suffix_head suffix = suffix /\ suffix_rest suffix = [].
Proof.
  intros H. unfold suffix_head, suffix_rest.
  rewrite (split_on_no_sep "/" suffix H). auto.
Qed.

(** [X2]: for a suffix without ["/"], the path [random_file] returns is
    the directory given with one more part, a UUID followed by the suffix;
    it is absolute only when the directory given is (the docstring has
    "Absolute filename path"). *)
Theorem X2_random_file_name depth suffix path unique s p s' :
  uuids_plain E -> Str.contains "/" suffix = false ->
  random_file E depth suffix path unique s = (Ok p, s') ->
  is_absolute p = dir_is_absolute path
  /\ exists n, parts p = dir_parts path ++ [uuid4 E n +:+ suffix].
Proof.
  intros Hplain Hsuffix H. apply random_file_result in H as [_ [n ->]].
  destruct (no_slash_suffix_parts suffix Hsuffix) as [Hh Hr].
  unfold candidate. rewrite (fname_path suffix _ (Hplain n)), Hh, Hr.
  destruct path as [d|]; cbn [dir_is_absolute dir_parts joinpath is_absolute parts app].
  - split; [reflexivity|]. exists n. reflexivity.
  - split; [reflexivity|]. exists n. reflexivity.
Qed.

End RandomFileMore.

(** ** [TagEnum] (lines 21-30) *)

(** [X3]: looking a member up by value undoes taking its value: a string
    is the value of at most one member, and only the nine values are
    found. *)
Theorem X3_TagEnum_lookup (v : string) (t : TagEnum) :
  TagEnum_of_value v = Some t <-> tag_value t = v.
Proof.
  split.
  - unfold TagEnum_of_value. intros H. apply find_some in H as [_ H].
    now apply String.eqb_eq in H.
  - intros <-. destruct t; reflexivity.
Qed.

(** ** Rendering (lines 138-164) *)

Section RenderingMore.

Lemma tag_name_inj t1 t2 : tag_name t1 = tag_name t2 -> t1 = t2.
Proof. destruct t1, t2; first [reflexivity | discriminate]. Qed.

Lemma tag_name_no_comma t : Str.contains "," (tag_name t) = false.
Proof. destruct t; reflexivity. Qed.

Lemma tag_name_nonempty t : tag_name t <> "".
Proof. destruct t; discriminate. Qed.

Lemma map_tag_name_inj (l1 l2 : list TagEnum) :
  List.map tag_name l1 = List.map tag_name l2 -> l1 = l2.
Proof.
  revert l2. induction l1 as [|t1 l1 IH]; intros [|t2 l2] H; try discriminate.
  - reflexivity.
  - injection H as H1 H2. f_equal; [apply tag_name_inj, H1|apply IH, H2].
Qed.

Lemma join_names_nonempty t (l : list TagEnum) :
  Str.join "," (List.map tag_name (t :: l)) <> "".
Proof.
  destruct l as [|t' l].
  - apply tag_name_nonempty.
  - cbn [List.map]. rewrite join_cons2. destruct t; discriminate.
Qed.

Lemma join_names_inj (l1 l2 : list TagEnum) :
  Str.join "," (List.map tag_name l1) = Str.join "," (List.map tag_name l2) ->
  l1 = l2.
Proof.
  intros H. destruct l1 as [|t1 l1], l2 as [|t2 l2].
  - reflexivity.
  - exfalso. apply (join_names_nonempty t2 l2). now rewrite <- H.
  - exfalso. apply (join_names_nonempty t1 l1). now rewrite H.
  - apply map_tag_name_inj.
    assert (Hs : forall l : list TagEnum, l <> [] ->
              Str.split_on "," (Str.join "," (List.map tag_name l)) = List.map tag_name l).
    { intros l Hl. apply (split_on_join ","); [destruct l; [congruence|discriminate]|].
      apply List.Forall_forall. intros x Hx. apply in_map_iff in Hx as (t & <- & _).
      apply tag_name_no_comma. }
    rewrite <- (Hs (t1 :: l1)), <- (Hs (t2 :: l2)) by discriminate. now rewrite H.
Qed.

(** [X4]: the text rendered for the tags tells the tags: two records
    whose [tags] line is the same have the same tags, in the same order. *)
Theorem X4_rendered_tags_determine_tags (m1 m2 : CompModel) :
  format_field (render_fields (CompModel_dict m1)) "tags"
  = format_field (render_fields (CompModel_dict m2)) "tags" ->
  tags m1 = tags m2.
Proof.
  rewrite !format_tags. unfold tags_text. intros H.
  apply String.app_inj in H. apply append_inv_tail in H.
  apply join_names_inj, H.
Qed.

(** [X5]: the developer of a record, a required field, has no part in
    what is written: the writer does the same for a record and for the
    record with any other developer. *)
Theorem X5_developer_is_not_written (E : env) (d : string) (m : CompModel) (s : state) :
  write_component E (with_developer d m) s = write_component E m s.
Proof.
  assert (H : index_md (with_developer d m) = index_md m).
  { destruct m as [t l ts sm dv dt [[|c i]|]]; reflexivity. }
  unfold write_component. rewrite H. reflexivity.
Qed.

(** [X6]: for a record whose title, date, summary and link (and image
    name) hold no line break, [index.md] is these lines, in this order: the
    delimiter, title, date, the three fixed flags, the image line when there
    is an image, summary, link, tags, and the delimiter, with no line break
    after it. *)
Theorem X6_index_md_lines (m : CompModel) :
  single_line (title m) = true -> single_line (date_text m) = true ->
  single_line (summary m) = true -> single_line (link m) = true ->
  (forall l, In l (image_lines m) -> single_line l = true) ->
  Str.lines (index_md m)
  = ["---"; "title: " +:+ title m; "date: " +:+ date_text m;
     "draft: true"; "hideLastModified: true"; "showInMenu: false"]
    ++ image_lines m
    ++ ["summary: " +:+ summary m; "link: " +:+ link m;
        "tags: " +:+ tags_text m; "---"].
Proof.
  intros Ht Hd Hs Hl Hi. pose proof (tags_text_single_line m) as Htg.
  unfold index_md, front_matter, image_lines in *.
  rewrite lines_cons by reflexivity.
  destruct (image m) as [img|] eqn:Him.
  - destruct (String.eqb img "") eqn:He.
    + apply String.eqb_eq in He. subst img. cbn [of_optional truthy String.eqb negb].
      unfold template_without_image.
      rewrite format_title, format_date, format_summary, format_link, format_tags.
      rewrite !append_assoc.
      rewrite !lines_field by (assumption || reflexivity).
      rewrite !lines_cons by reflexivity.
      rewrite !lines_field by (assumption || reflexivity).
      reflexivity.
    + assert (Hne : img <> "") by (now apply String.eqb_neq).
      assert (Hn : single_line ("summaryImage: " +:+ path_name (path_of_string img)) = true).
      { apply Hi. left. reflexivity. }
      assert (Hn' : single_line (path_name (path_of_string img)) = true).
      { unfold single_line in *. rewrite contains_append in Hn.
        rewrite negb_true_iff in *. now apply orb_false_iff in Hn as [_ Hn]. }
      cbn [of_optional truthy]. rewrite He. cbn [negb].
      unfold template_with_image.
      rewrite format_title, format_date, format_summary, format_link, format_tags.
      rewrite (format_image m img Him Hne).
      rewrite !append_assoc.
      rewrite !lines_field by (assumption || reflexivity).
      rewrite !lines_cons by reflexivity.
      rewrite !lines_field by (assumption || reflexivity).
      reflexivity.
  - cbn [of_optional truthy]. unfold template_without_image.
    rewrite format_title, format_date, format_summary, format_link, format_tags.
    rewrite !append_assoc.
    rewrite !lines_field by (assumption || reflexivity).
    rewrite !lines_cons by reflexivity.
    rewrite !lines_field by (assumption || reflexivity).
    reflexivity.
Qed.

End RenderingMore.

(** ** Construction of a record (lines 62-126, 137) *)

Section ConstructionMore.

Variable E : env.

Lemma dict_get_None_not_In {V} k (d : list (string * V)) v :
  dict_get k d = None -> ~ In (k, v) d.
Proof.
  induction d as [|[k' v'] d IH]; simpl; [tauto|].
  destruct (String.eqb k' k) eqn:Hk; [discriminate|].
  intros H [[= -> _]|Hin]; [now rewrite String.eqb_refl in Hk|now apply IH].
Qed.

Lemma extra_errors_nil_inv input k v :
  extra_errors input = [] -> In (k, v) input -> In k declared_fields.
Proof.
  unfold extra_errors. intros H Hin.
  destruct (existsb (String.eqb k) declared_fields) eqn:Hd.
  - apply existsb_exists in Hd as (f & Hf & Heq). apply String.eqb_eq in Heq. now subst.
  - exfalso. apply map_eq_nil in H.
    assert (Hf : In (k, v) (List.filter
              (fun kv : string * json => negb (existsb (String.eqb (fst kv)) declared_fields))
              input)).
    { apply filter_In. split; [exact Hin|]. cbn [fst]. now rewrite Hd. }
    rewrite H in Hf. destruct Hf.
Qed.

Lemma tag_items_inr items ts :
  tag_items items = inr ts -> items = List.map tag_json ts.
Proof.
  revert ts. induction items as [|v items IH]; intros ts H.
  - injection H as <-. reflexivity.
  - cbn [tag_items] in H.
    destruct (enum_member_validator v) as [e|t] eqn:Hv;
      destruct (tag_items items) as [es|ts'] eqn:Hi; try discriminate.
    injection H as <-. cbn [List.map]. f_equal; [|apply IH; reflexivity].
    unfold enum_member_validator in Hv. destruct v; try discriminate.
    destruct (TagEnum_of_value s) as [t'|] eqn:Hs; [|discriminate].
    injection Hv as ->. unfold TagEnum_of_value in Hs.
    apply find_some in Hs as [_ Hs]. apply String.eqb_eq in Hs. now subst.
Qed.

Lemma _valid_link_Ok_inv v s l s' :
  _valid_link E v s = (Ok l, s') ->
  l = v /\ exists body, http_get E v = HttpResponse 200 body.
Proof.
  unfold _valid_link, bind, requests_get.
  destruct (http_get E v) as [code body| |]; try discriminate.
  cbn [ret fst]. destruct (Nat.eqb code 200) eqn:Hc; [|discriminate].
  apply Nat.eqb_eq in Hc. subst code. intros [= <- _]. eauto.
Qed.

Lemma optional_str_field_inr name default validator input s r s' :
  optional_str_field name default validator input s = (Ok (inr r), s') ->
  (dict_get name input = None /\ r = default /\ s' = s)
  \/ exists v, (exists j, dict_get name input = Some j)
               /\ validator v s = (Ok r, s').
Proof.
  unfold optional_str_field. destruct (dict_get name input) as [j|].
  - intros H. right.
    destruct (str_validator j) as [e|x] eqn:Hj.
    + destruct j; try discriminate. apply catching_Ok_inr in H. eauto.
    + destruct j; try discriminate; apply catching_Ok_inr in H; eauto.
  - intros [= <- <-]. auto.
Qed.

(** A path that is absolute is read back from its text. *)
Lemma path_of_string_path_str P :
  path_wf P -> is_absolute P = true -> path_of_string (path_str P) = P.
Proof.
  intros Hwf Ha. unfold path_of_string.
  destruct (path_str_head P Hwf) as (x & r & Hs & Hx). rewrite Ha in Hx.
  rewrite (split_path_str P Hwf), Ha, Hs. cbn [Str.startswith]. rewrite Hx.
  destruct P as [a ps]. cbn [is_absolute parts] in *. subst a. f_equal.
  cbn [app List.filter keep_part String.eqb negb andb].
  destruct ps as [|c ps]; [reflexivity|].
  apply forallb_filter_id. apply forallb_forall. intros y Hy.
  unfold path_wf in Hwf. cbn [parts] in Hwf. rewrite List.Forall_forall in Hwf.
  specialize (Hwf y Hy). unfold clean_part in Hwf.
  now apply andb_true_iff in Hwf as [Hk _].
Qed.

Lemma cwd_plain_clean : cwd_plain E -> List.Forall (fun c => clean_part c = true) (cwd E).
Proof.
  apply List.Forall_impl. intros c. unfold plain_name. rewrite andb_true_iff. tauto.
Qed.

(** The absolute form of a path names the same file. *)
Lemma is_file_absolute p s :
  cwd_plain E -> path_wf p ->
  is_file E p s = (Ok true, s) ->
  is_file E (path_of_string (path_str (absolute E p))) s = (Ok true, s).
Proof.
  intros Hcwd Hwf Hf. unfold absolute.
  destruct (is_absolute p) eqn:Ha.
  - now rewrite (path_of_string_path_str p Hwf Ha).
  - assert (Hwf' : path_wf {| is_absolute := true; parts := cwd E ++ parts p |}).
    { unfold path_wf. cbn [parts]. apply List.Forall_app.
      split; [apply cwd_plain_clean, Hcwd|exact Hwf]. }
    rewrite (path_of_string_path_str _ Hwf' eq_refl).
    unfold is_file in *. rewrite (resolve_path_str E _ _ Hwf'). cbn [is_absolute parts].
    rewrite (resolve_path_str E _ _ Hwf), Ha in Hf.
    rewrite walk_app, (walk_plain _ _ _ Hcwd). cbn [app].
    destruct (dir_at (fs s) (cwd E)); [exact Hf|discriminate].
Qed.

Lemma assert_image_is_file_Ok p s s' :
  assert_image_is_file E p s = (Ok tt, s') ->
  s' = s /\ is_file E p s = (Ok true, s).
Proof.
  unfold assert_image_is_file, bind. unfold is_file at 1.
  match goal with
  | |- context [if ?b then _ else _] => destruct b eqn:Hb
  end; [|discriminate].
  intros [= <-]. split; [reflexivity|]. unfold is_file. now rewrite Hb.
Qed.

(** An image that [_valid_image] lets through is a file when it returns. *)
Lemma _valid_image_Ok_is_file v s img s' :
  cwd_plain E ->
  _valid_image E v s = (Ok (Some img), s') ->
  is_file E (path_of_string img) s' = (Ok true, s').
Proof.
  intros Hcwd. unfold _valid_image. destruct v as [v|]; [|discriminate].
  destruct (Str.startswith v "http").
  - intros H.
    apply bind_Ok_inv in H as (res & s1 & _ & H).
    apply bind_Ok_inv in H as ([] & s2 & _ & H).
    apply bind_Ok_inv in H as (d & s3 & _ & H).
    apply bind_Ok_inv in H as ([] & s4 & _ & H).
    apply bind_Ok_inv in H as (pfile & s5 & Hrf & H).
    apply bind_Ok_inv in H as ([] & s6 & _ & H).
    apply bind_Ok_inv in H as ([] & s7 & Hcheck & H).
    injection H as <- <-.
    apply assert_image_is_file_Ok in Hcheck as [-> Hcheck].
    apply random_file_result in Hrf as [_ [n ->]].
    apply is_file_absolute; [exact Hcwd| |exact Hcheck].
    unfold candidate. apply joinpath_wf; apply path_of_string_wf.
  - intros H. apply bind_Ok_inv in H as ([] & s1 & Hcheck & H).
    injection H as <- <-.
    now apply assert_image_is_file_Ok in Hcheck as [-> Hcheck].
Qed.

(** [X7]: what a record that was accepted is sure to satisfy: its title is
    the key; the mapping has no key but the six declared ones; the link
    answered with status 200; the tags are the members the values of the
    mapping name, in the mapping's order and with its repetitions; the date
    is today's when the mapping has none (and is then not checked),
    otherwise one that [strptime] accepts; the image, if there is one, is a
    file when the constructor returns. *)
Theorem X7_accepted_record_is_checked comp_name members s m s' :
  cwd_plain E ->
  CompModel_new E comp_name (JObject members) s = (Ok m, s') ->
  title m = comp_name
  /\ (forall k v, In (k, v) members -> In k allowed_keys)
  /\ (exists body, http_get E (link m) = HttpResponse 200 body)
  /\ dict_get "tags" members = Some (JList (List.map tag_json (tags m)))
  /\ match dict_get "date" members with
     | None => date m = Some (today E)
     | Some _ => exists d, date m = Some d /\ strptime_ok E d = true
     end
  /\ (forall img, image m = Some img ->
        is_file E (path_of_string img) s' = (Ok true, s')).
Proof.
  intros Hcwd H. unfold CompModel_new in H.
  destruct (has_key "title" members) eqn:Htitle; [discriminate|].
  destruct (has_key "__pydantic_self__" members); [discriminate|]. cbn [orb] in H.
  apply validate_model_Ok_inv in H as (Ht & Hl & Htg & _ & _ & Hd & Hi & Hx).
  split; [|split; [|split; [|split; [|split]]]].
  - cbn in Ht. now injection Ht as <-.
  - intros k v Hin.
    assert (Hdecl : In k declared_fields).
    { apply (extra_errors_nil_inv _ k v Hx). right. exact Hin. }
    assert (Hne : k <> "title").
    { intros ->. unfold has_key in Htitle.
      destruct (dict_get "title" members) eqn:Hg; [discriminate|].
      exact (dict_get_None_not_In _ _ v Hg Hin). }
    simpl in Hdecl. simpl. intuition congruence.
  - apply str_field_inr in Hl as (v & y & _ & _ & Hl).
    apply _valid_link_Ok_inv in Hl as [-> Hbody]. exact Hbody.
  - unfold tags_field in Htg. rewrite dict_get_cons_ne in Htg by reflexivity.
    destruct (dict_get "tags" members) as [[| | | |items|]|]; try discriminate.
    apply tag_items_inr in Htg. now subst.
  - apply optional_str_field_inr in Hd.
    rewrite dict_get_cons_ne in Hd by reflexivity.
    destruct Hd as [(-> & -> & _)|(v & [j ->] & Hv)]; [reflexivity|].
    unfold _valid_time in Hv. destruct v as [d|]; [|discriminate].
    destruct (strptime_ok E d) eqn:Hok; [|discriminate].
    injection Hv as <-. eauto.
  - intros img Himg. apply optional_str_field_inr in Hi.
    destruct Hi as [(_ & Hnone & _)|(v & _ & Hv)]; [congruence|].
    rewrite Himg in Hv. eapply _valid_image_Ok_is_file; eauto.
Qed.

Lemma stateless_ret {A} (a : A) : stateless (ret a).
Proof. intros s r s' [= _ <-]. reflexivity. Qed.

Lemma stateless_raise {A} e : stateless (raise e : M A).
Proof. intros s r s' [= _ <-]. reflexivity. Qed.

Lemma stateless_bind {A B} (m : M A) (k : A -> M B) :
  stateless m -> (forall a, stateless (k a)) -> stateless (bind m k).
Proof.
  intros Hm Hk s r s'. unfold bind. destruct (m s) as [[a|e] s1] eqn:Hms; intros H.
  - apply Hm in Hms. subst s1. eapply Hk, H.
  - injection H as _ <-. eapply Hm, Hms.
Qed.

Lemma stateless_catching {A} name (m : M A) : stateless m -> stateless (catching name m).
Proof. intros Hm s r s' H. apply catching_state in H as [r0 H]. eapply Hm, H. Qed.

Lemma stateless_local_image x :
  Str.startswith x "http" = false -> stateless (_valid_image E (Some x)).
Proof.
  intros Hx. unfold _valid_image. rewrite Hx.
  apply stateless_bind; [|intros _; apply stateless_ret].
  apply stateless_bind; [intros s r s' [= _ <-]; reflexivity|].
  intros [|]; [apply stateless_ret|apply stateless_raise].
Qed.

(** [X8]: constructing a record whose image is not a URL (or that has no
    image) changes nothing, whether the record is accepted or not: no file,
    no directory, no identifier drawn. *)
Theorem X8_validation_without_download_changes_nothing comp_name members s r s' :
  (forall v x, dict_get "image" members = Some v -> str_validator v = inr x ->
               Str.startswith x "http" = false) ->
  CompModel_new E comp_name (JObject members) s = (r, s') -> s' = s.
Proof.
  intros Himg. unfold CompModel_new.
  destruct (has_key "title" members || has_key "__pydantic_self__" members);
    [apply stateless_raise|].
  revert s r s'. change (stateless (validate_model E (("title", JStr comp_name) :: members))).
  unfold validate_model.
  apply stateless_bind; [exact (str_field_plain_state _ _)|]. intros r1.
  apply stateless_bind; [exact (link_field_state E _)|]. intros r2.
  apply stateless_bind; [exact (str_field_plain_state _ _)|]. intros r3.
  apply stateless_bind; [exact (str_field_plain_state _ _)|]. intros r4.
  apply stateless_bind; [exact (date_field_state E _)|]. intros r5.
  apply stateless_bind.
  - unfold optional_str_field. rewrite dict_get_cons_ne by reflexivity.
    destruct (dict_get "image" members) as [v|] eqn:Hv; [|apply stateless_ret].
    destruct (str_validator v) as [e|x] eqn:Hx.
    + destruct v; try apply stateless_ret. apply stateless_catching, stateless_raise.
    + pose proof (Himg v x eq_refl Hx) as Hlocal.
      destruct v; try discriminate;
        apply stateless_catching, stateless_local_image, Hlocal.
  - intros r6.
    destruct r1, r2, (tags_field _), r3, r4, r5, r6; try apply stateless_raise.
    destruct (_ ++ _); [apply stateless_ret|apply stateless_raise].
Qed.

Lemma CompModel_new_title comp_name comp s m s' :
  CompModel_new E comp_name comp s = (Ok m, s') -> title m = comp_name.
Proof.
  unfold CompModel_new. destruct comp; try discriminate.
  destruct (_ || _); [discriminate|]. intros H.
  apply validate_model_Ok_inv in H as (Ht & _). cbn in Ht. now injection Ht as <-.
Qed.

End ConstructionMore.

(** ** The writer and the loop (lines 132-174) *)

Section WriterMore.

Variable E : env.

Lemma path_of_string_plain t :
  plain_name t = true -> path_of_string t = {| is_absolute := false; parts := [t] |}.
Proof.
  unfold plain_name, clean_part. rewrite !andb_true_iff, !negb_true_iff.
  intros [[Hk Hs] _]. unfold path_of_string.
  rewrite (no_slash_not_absolute _ Hs), (split_on_no_sep _ _ Hs).
  cbn [List.filter]. now rewrite Hk.
Qed.

Lemma cpath_plain m :
  plain_name (title m) = true ->
  cpath_of m = {| is_absolute := false; parts := ["content"; "components"; title m] |}.
Proof. intros H. unfold cpath_of. rewrite (path_of_string_plain _ H). reflexivity. Qed.

(** Where the output directory of a component with a plain title is. *)
Lemma resolve_cpath m fs0 q :
  plain_name (title m) = true ->
  resolve E fs0 (path_str (cpath_of m)) = Some q -> q = out_loc E ++ [title m].
Proof.
  intros Hp. rewrite (resolve_path_str E _ _ (cpath_wf m)), (cpath_plain m Hp).
  cbn [is_absolute parts]. destruct (dir_at fs0 (cwd E)); [|discriminate].
  rewrite walk_plain by (repeat constructor; exact Hp).
  intros [= <-]. unfold out_loc. now rewrite <- app_assoc.
Qed.

(** The states the writer goes through, for a plain title. *)
Lemma write_component_plain m s s' :
  plain_name (title m) = true ->
  write_component E m s = (Ok tt, s') ->
  exists s1 s3,
    (s1 = s \/ s1 = update_fs (delete (out_loc E ++ [title m])
                                 (emptied (out_loc E ++ [title m]) (fs s)))
                      (EvRmtree (out_loc E ++ [title m])) s)
    /\ (s3 = update_fs (<[out_loc E ++ [title m] := Dir]> (fs s1))
               (EvMkdir (out_loc E ++ [title m])) s1
        \/ exists img c,
             s3 = update_fs (<[(out_loc E ++ [title m]) ++ [basename img] := File c]>
                               (<[out_loc E ++ [title m] := Dir]> (fs s1)))
                    (EvWrite ((out_loc E ++ [title m]) ++ [basename img]))
                    (update_fs (<[out_loc E ++ [title m] := Dir]> (fs s1))
                       (EvMkdir (out_loc E ++ [title m])) s1))
    /\ s' = update_fs (<[(out_loc E ++ [title m]) ++ ["index.md"] := File (index_md m)]> (fs s3))
              (EvWrite ((out_loc E ++ [title m]) ++ ["index.md"])) s3.
Proof.
  intros Hp H. unfold write_component in H. fold (cpath_of m) in H.
  apply bind_Ok_inv in H as (ex & s0 & Hex & H).
  pose proof (is_dir_inv E _ _ _ _ Hex) as [-> _].
  apply bind_Ok_inv in H as ([] & s1 & Hrm & H).
  apply bind_Ok_inv in H as ([] & s2 & Hmk & H).
  apply bind_Ok_inv in H as ([] & s3 & Hcp & H).
  apply mkdir_Ok in Hmk as (q & Hres1 & Hnone & Hpar & ->).
  pose proof (resolve_cpath m _ _ Hp Hres1) as Hq0.
  assert (Hq : q <> []) by (intros ->; discriminate Hnone).
  set (s2 := update_fs (<[q := Dir]> (fs s1)) (EvMkdir q) s1) in *.
  assert (Hres2 : resolve E (fs s2) (path_str (cpath_of m)) = Some q).
  { eapply resolve_mono; [|exact Hres1]. intros k. apply dir_at_insert_Dir_mono. }
  exists s1, s3. rewrite <- Hq0. split; [|split].
  - destruct ex.
    + right. apply rmtree_Ok in Hrm as (q0 & Hres0 & _ & _ & ->).
      assert (q0 = q) by (eapply resolve_lexical; eauto). now subst q0.
    + left. now injection Hrm as <-.
  - destruct (image m) as [img|]; [|left; injection Hcp as <-; reflexivity].
    destruct (truthy (VStr img)); [|left; injection Hcp as <-; reflexivity].
    right. exists img.
    destruct (copy_into_dir E img (cpath_of m) q s2 s3 (cpath_wf m) Hres2 Hq)
      as [c ->]; [apply dir_at_insert_Dir| |exact Hcp|eauto].
    apply dir_at_insert_Dir_mono, Hpar.
  - rewrite index_path_eq in H.
    apply write_file_Ok in H as (idx & Hri & _ & _ & ->).
    rewrite (resolve_child_path E _ _ "index.md" (cpath_wf m) eq_refl) in Hri.
    destruct (resolve E (fs s3) (path_str (cpath_of m))) as [q3|] eqn:Hres3; [|discriminate].
    injection Hri as <-.
    assert (q3 = q) by (eapply resolve_lexical; eauto). subst q3. reflexivity.
Qed.

Lemma not_prefix_ne (q k : loc) : ~ q `prefix_of` k -> k <> q.
Proof. intros H ->. apply H. reflexivity. Qed.

Lemma not_prefix_child_ne (q k : loc) c : ~ q `prefix_of` k -> k <> q ++ [c].
Proof. intros H ->. apply H. now apply prefix_app_r. Qed.

Lemma write_component_effect m s s' :
  plain_name (title m) = true ->
  write_component E m s = (Ok tt, s') ->
  fs s' !! (out_loc E ++ [title m]) = Some Dir
  /\ fs s' !! (out_loc E ++ [title m; "index.md"]) = Some (File (index_md m))
  /\ forall k, ~ (out_loc E ++ [title m]) `prefix_of` k -> fs s' !! k = fs s !! k.
Proof.
  intros Hp H. apply (write_component_plain m s s' Hp) in H as (s1 & s3 & Hs1 & Hs3 & ->).
  change [title m; "index.md"] with ([title m] ++ ["index.md"]). rewrite app_assoc.
  set (q := out_loc E ++ [title m]) in *. cbn [fs update_fs].
  split; [|split].
  - rewrite lookup_insert_ne by apply child_ne.
    destruct Hs3 as [->|(img & c & ->)]; cbn [fs update_fs].
    + apply lookup_insert_eq.
    + rewrite lookup_insert_ne by apply child_ne. apply lookup_insert_eq.
  - apply lookup_insert_eq.
  - intros k Hk.
    rewrite lookup_insert_ne by (apply not_eq_sym, not_prefix_child_ne, Hk).
    assert (H1 : fs s1 !! k = fs s !! k).
    { destruct Hs1 as [->| ->]; [reflexivity|]. cbn [fs update_fs].
      rewrite lookup_delete_ne by (apply not_eq_sym, not_prefix_ne, Hk).
      apply emptied_outside, Hk. }
    destruct Hs3 as [->|(img & c & ->)]; cbn [fs update_fs].
    + rewrite lookup_insert_ne by (apply not_eq_sym, not_prefix_ne, Hk). exact H1.
    + rewrite lookup_insert_ne by (apply not_eq_sym, not_prefix_child_ne, Hk).
      rewrite lookup_insert_ne by (apply not_eq_sym, not_prefix_ne, Hk). exact H1.
Qed.

(** [X9]: for a title that is a plain file name, the writer leaves the
    output directory [content/components/<title>] with the [index.md] of
    the record in it, and nothing outside that directory is made, removed
    or changed. *)
Theorem X9_writer_stays_in_its_directory m s s' :
  plain_name (title m) = true ->
  write_component E m s = (Ok tt, s') ->
  fs s' !! (out_loc E ++ [title m]) = Some Dir
  /\ fs s' !! (out_loc E ++ [title m; "index.md"]) = Some (File (index_md m))
  /\ forall k, ~ (out_loc E ++ [title m]) `prefix_of` k -> fs s' !! k = fs s !! k.
Proof. apply write_component_effect. Qed.

Hypothesis uuids_ok : uuids_plain E.
Hypothesis cwd_ok : cwd_plain E.

(** One turn of the loop: the page of the component is written, and what
    is outside its output directory and the temporary directory stays. *)
Lemma process_component_effect item s s' :
  plain_name (fst item) = true ->
  process_component E item s = (Ok tt, s') ->
  (exists m, title m = fst item
     /\ fs s' !! (out_loc E ++ [fst item; "index.md"]) = Some (File (index_md m)))
  /\ forall k, ~ tmp_loc E `prefix_of` k -> ~ (out_loc E ++ [fst item]) `prefix_of` k ->
       fs s' !! k = fs s !! k.
Proof.
  intros Hp H. apply process_component_Ok in H as (m & s1 & s2 & Hnew & Hw & Hrm).
  pose proof (CompModel_new_title E _ _ _ _ _ Hnew) as Ht. rewrite <- Ht in *.
  pose proof (confined_CompModel_new E uuids_ok cwd_ok _ _ _ _ _ Hnew) as Hc.
  apply (write_component_effect m s1 s2 Hp) in Hw as (_ & Hidx & Hout).
  apply remove_tmpdir_Ok in Hrm as [_ Hs'].
  assert (Hrm : forall k, ~ tmp_loc E `prefix_of` k -> fs s' !! k = fs s2 !! k).
  { intros k Hk. destruct Hs' as [->| ->]; [reflexivity|]. cbn [fs update_fs].
    rewrite lookup_delete_ne by (apply not_eq_sym, not_prefix_ne, Hk).
    apply emptied_outside, Hk. }
  split.
  - exists m. split; [reflexivity|]. rewrite Hrm; [exact Hidx|].
    apply out_not_tmp. now apply prefix_app_r.
  - intros k Hk1 Hk2. rewrite (Hrm k Hk1), (Hout k Hk2). apply Hc, Hk1.
Qed.

Lemma for_each_keeps data k : forall s s',
  (forall item, In item data ->
     plain_name (fst item) = true /\ ~ (out_loc E ++ [fst item]) `prefix_of` k) ->
  ~ tmp_loc E `prefix_of` k ->
  for_each (process_component E) data s = (Ok tt, s') ->
  fs s' !! k = fs s !! k.
Proof.
  induction data as [|item data IH]; intros s s' Hall Hk H.
  - now injection H as <-.
  - cbn [for_each] in H. apply bind_Ok_inv in H as ([] & s1 & Hit & H).
    destruct (Hall item (or_introl eq_refl)) as [Hp Hn].
    apply (process_component_effect item s s1 Hp) in Hit as [_ Hit].
    rewrite (IH s1 s'); [now apply Hit| |exact Hk|exact H].
    intros item' Hin. apply Hall. now right.
Qed.

Lemma index_not_under (a b : string) :
  a <> b -> ~ (out_loc E ++ [a]) `prefix_of` (out_loc E ++ [b; "index.md"]).
Proof.
  intros Hne [e He]. rewrite <- app_assoc in He. apply app_inv_head in He.
  injection He as He _. congruence.
Qed.

Lemma for_each_pages data : forall s s',
  List.NoDup (List.map fst data) ->
  (forall item, In item data -> plain_name (fst item) = true) ->
  for_each (process_component E) data s = (Ok tt, s') ->
  forall item, In item data ->
    exists m, title m = fst item
      /\ fs s' !! (out_loc E ++ [fst item; "index.md"]) = Some (File (index_md m)).
Proof.
  induction data as [|item data IH]; intros s s' Hnd Hall H item' Hin; [destruct Hin|].
  cbn [for_each] in H. apply bind_Ok_inv in H as ([] & s1 & Hit & H).
  cbn [List.map] in Hnd. inversion Hnd as [|x l Hnotin Hnd']. subst x l.
  destruct Hin as [->|Hin].
  - apply process_component_effect in Hit as [(m & Ht & Hidx) _];
      [|apply Hall; now left].
    exists m. split; [exact Ht|]. rewrite <- Hidx.
    apply (for_each_keeps data _ s1 s'); [|apply out_not_tmp; now apply prefix_app_r|exact H].
    intros it Hit'. split; [apply Hall; now right|].
    apply index_not_under. intros Heq. apply Hnotin. rewrite <- Heq.
    now apply List.in_map.
  - apply (IH s1 s' Hnd'); [|exact H|exact Hin].
    intros it Hit'. apply Hall. now right.
Qed.

End WriterMore.

(** [X10]: when the keys of [data.json] are plain file names, no two the
    same, and the identifiers drawn are UUIDs, a run that completes leaves
    for every component the [index.md] of a record with the component's key
    as its title, under [content/components/<key>]: no later component and
    no cleanup of the temporary directory touches it. *)
Theorem X10_every_component_has_its_page (E : env) data s s' :
  uuids_plain E -> cwd_plain E ->
  List.NoDup (List.map fst data) ->
  (forall item, In item data -> plain_name (fst item) = true) ->
  main E data s = (Ok tt, s') ->
  forall item, In item data ->
    exists m, title m = fst item
      /\ fs s' !! (out_loc E ++ [fst item; "index.md"]) = Some (File (index_md m)).
Proof.
  intros Hu Hc Hnd Hall H. unfold main in H.
  apply bind_Ok_inv in H as (d & s0 & Hd & H).
  apply is_dir_inv in Hd as [-> _].
  apply bind_Ok_inv in H as ([] & s1 & Ha & H).
  assert (s1 = s) as ->.
  { unfold assert_ in Ha. destruct d; [now injection Ha as <-|discriminate]. }
  exact (for_each_pages E Hu Hc data s s' Hnd Hall H).
Qed.

(** ** The download of a remote image (lines 100-113) *)

Section DownloadMore.

Variable E : env.

(** The download, with what it returns and the state it leaves. *)
Lemma download_stores_at ext body s :
  recursion_limit E <> 0 -> cwd_plain E ->
  dir_at (fs s) (cwd E) = true -> dir_at (fs s) (tmp_loc E) = true ->
  uuid_plain (uuid4 E (draws s)) = true -> Str.contains "/" ext = false ->
  Str.contains "." ext = false ->
  fs s !! (tmp_loc E ++ [uuid4 E (draws s) +:+ "." +:+ ext]) = None ->
  (do pfile <- random_file E (recursion_limit E) ("." +:+ ext) (Some tmpdir) true;
   let v := path_str (absolute E pfile) in
   do_ write_file E v body;
   do_ assert_image_is_file E pfile;
   ret (Some v)) s
  = (Ok (Some (path_str {| is_absolute := true;
                           parts := tmp_loc E ++ [uuid4 E (draws s) +:+ "." +:+ ext] |})),
     update_fs (<[tmp_loc E ++ [uuid4 E (draws s) +:+ "." +:+ ext] := File body]> (fs s))
       (EvWrite (tmp_loc E ++ [uuid4 E (draws s) +:+ "." +:+ ext]))
       {| fs := fs s; draws := S (draws s); trace := trace s |}).
Proof.
  intros Hlim Hcwd Hdc Hdt Hu Hslash Hdot Hfree.
  destruct (no_slash_suffix ext Hslash) as [Hhead Hrest].
  set (u := uuid4 E (draws s)) in *.
  set (target := tmp_loc E ++ [u +:+ "." +:+ ext]) in *.
  assert (Hpath : forall p, Some tmpdir = Some p -> path_wf p).
  { intros p [= <-]. apply path_of_string_wf. }
  assert (Hres : forall m, dir_at m (cwd E) = true ->
            resolve E m (path_str (candidate ("." +:+ ext) (Some tmpdir) u)) = Some target).
  { intros m Hm. rewrite (resolve_candidate E _ _ Hpath m u Hu).
    rewrite (base_loc_tmpdir E m Hm), Hhead, Hrest. reflexivity. }
  destruct (recursion_limit E) as [|depth]; [congruence|].
  set (s1 := {| fs := fs s; draws := S (draws s); trace := trace s |}).
  assert (Hrf : random_file E (S depth) ("." +:+ ext) (Some tmpdir) true s
                = (Ok (candidate ("." +:+ ext) (Some tmpdir) u), s1)).
  { rewrite random_file_step by exact Hpath. cbv zeta. unfold taken. fold u.
    rewrite (Hres _ Hdc), (file_at_None _ _ Hfree (child_ne_nil _ _)). reflexivity. }
  rewrite (bind_Ok_intro _ _ _ _ _ Hrf). cbv zeta.
  set (s2 := update_fs (<[target := File body]> (fs s1)) (EvWrite target) s1).
  assert (Hwf : write_file E (path_str (absolute E (candidate ("." +:+ ext) (Some tmpdir) u)))
                  body s1 = (Ok tt, s2)).
  { unfold write_file. rewrite (resolve_download E Hcwd _ _ _ Hdot Hu), Hhead, Hrest.
    fold target. cbn [s1 fs].
    rewrite (dir_at_None _ _ Hfree (child_ne_nil _ _)).
    unfold target at 1. rewrite parent_child, Hdt. reflexivity. }
  rewrite (bind_Ok_intro _ _ _ _ _ Hwf).
  assert (Hcheck : assert_image_is_file E (candidate ("." +:+ ext) (Some tmpdir) u) s2
                   = (Ok tt, s2)).
  { unfold assert_image_is_file, bind, is_file. rewrite Hres.
    - cbn [s2 fs update_fs].
      rewrite file_at_insert_File by apply child_ne_nil. reflexivity.
    - cbn [s2 fs update_fs s1]. apply dir_at_insert; [exact Hdc|].
      unfold target, tmp_loc. rewrite <- app_assoc. intros H.
      apply (f_equal (@List.length string)) in H. rewrite List.length_app in H.
      simpl in H. lia. }
  rewrite (bind_Ok_intro _ _ _ _ _ Hcheck).
  unfold ret. f_equal. f_equal. f_equal.
  unfold candidate. rewrite (fname_path _ u Hu), Hhead, Hrest.
  unfold absolute, joinpath. cbn [is_absolute parts].
  change (is_absolute tmpdir) with false.
  change (parts tmpdir) with ["static"; "components"; "tmp"].
  cbn [is_absolute parts]. unfold target, tmp_loc. now rewrite <- app_assoc.
Qed.

Lemma _valid_image_remote_at v body s :
  Str.startswith v "http" = true -> http_get E v = HttpResponse 200 body ->
  download_ready E s v ->
  exists s',
    _valid_image E (Some v) s
    = (Ok (Some (path_str
                   {| is_absolute := true;
                      parts := tmp_loc E ++ [uuid4 E (draws s) +:+ "."
                                             +:+ Str.last_piece (Str.split_on "." v)] |})),
       s')
    /\ fs s' !! (tmp_loc E ++ [uuid4 E (draws s) +:+ "."
                               +:+ Str.last_piece (Str.split_on "." v)])
       = Some (File body)
    /\ dir_at (fs s') (cwd E) = true
    /\ dir_at (fs s') (tmp_loc E) = true.
Proof.
  intros Hh Hget (Hlim & Hcwd & Hdc & Htmp & Hu & Hslash & Hfree).
  unfold _valid_image. rewrite Hh.
  assert (Hreq : requests_get E v s = (Ok (200, body), s)).
  { unfold requests_get. rewrite Hget. reflexivity. }
  rewrite (bind_Ok_intro _ _ _ _ _ Hreq). cbn [fst snd].
  change (assert_ (Nat.eqb 200 200)) with (ret tt : M unit).
  rewrite (bind_Ok_intro _ _ s _ s (eq_refl : ret tt s = (Ok tt, s))).
  assert (Hne : tmp_loc E <> []) by apply tmp_loc_ne.
  assert (Hup : forall (m : gmap loc node) c n,
            dir_at m (cwd E) = true ->
            dir_at (<[tmp_loc E ++ [c] := n]> m) (cwd E) = true).
  { intros m c n Hm. apply dir_at_insert; [exact Hm|].
    unfold tmp_loc. rewrite <- app_assoc. intros H.
    apply (f_equal (@List.length string)) in H. rewrite List.length_app in H.
    simpl in H. lia. }
  destruct Htmp as [Hthere|[Hnone Hparent]].
  - assert (Hd : is_dir E tmpdir s = (Ok true, s)).
    { unfold is_dir. rewrite resolve_tmpdir, Hdc. unfold dir_at.
      now rewrite (fs_node_ne _ _ Hne), Hthere. }
    rewrite (bind_Ok_intro _ _ _ _ _ Hd). cbn [negb].
    rewrite (bind_Ok_intro _ _ s _ s (eq_refl : ret tt s = (Ok tt, s))).
    assert (Hdt : dir_at (fs s) (tmp_loc E) = true).
    { unfold dir_at. now rewrite (fs_node_ne _ _ Hne), Hthere. }
    eexists. split; [|split; [|split]].
    + apply download_stores_at; auto using ext_no_dot.
    + cbn [fs update_fs]. apply lookup_insert_eq.
    + cbn [fs update_fs]. apply Hup, Hdc.
    + cbn [fs update_fs]. apply dir_at_insert; [exact Hdt|]. apply not_eq_sym, child_ne.
  - assert (Hd : is_dir E tmpdir s = (Ok false, s)).
    { unfold is_dir. rewrite resolve_tmpdir, Hdc.
      now rewrite (dir_at_None _ _ Hnone Hne). }
    rewrite (bind_Ok_intro _ _ _ _ _ Hd). cbn [negb].
    set (s1 := update_fs (<[tmp_loc E := Dir]> (fs s)) (EvMkdir (tmp_loc E)) s).
    assert (Hmk : mkdir E tmpdir s = (Ok tt, s1)).
    { unfold mkdir. rewrite resolve_tmpdir, Hdc, (fs_node_ne _ _ Hne), Hnone.
      replace (parent (tmp_loc E)) with (cwd E ++ ["static"; "components"]).
      - now rewrite Hparent.
      - unfold parent, tmp_loc.
        change ["static"; "components"; "tmp"] with (["static"; "components"] ++ ["tmp"]).
        rewrite app_assoc. symmetry. apply removelast_last. }
    rewrite (bind_Ok_intro _ _ _ _ _ Hmk).
    eexists. split; [|split; [|split]].
    + apply (download_stores_at _ body s1); cbn [s1 fs draws update_fs];
        auto using ext_no_dot.
      * apply dir_at_insert_Dir_mono, Hdc.
      * apply dir_at_insert_Dir.
      * rewrite lookup_insert_ne; [exact Hfree|]. apply not_eq_sym, child_ne.
    + cbn [s1 fs draws update_fs]. apply lookup_insert_eq.
    + cbn [s1 fs draws update_fs]. apply Hup, dir_at_insert_Dir_mono, Hdc.
    + cbn [s1 fs draws update_fs]. apply dir_at_insert; [apply dir_at_insert_Dir|].
      apply not_eq_sym, child_ne.
Qed.







End DownloadMore.

(** ** A remote image, from the download to the page (lines 100-113, 137-174) *)

Section RemoteImage.

Variable E : env.

(** The writer, for a record with an image and a plain title. *)
Lemma write_component_with_image m img q s s' :
  q = out_loc E ++ [title m] ->
  plain_name (title m) = true ->
  image m = Some img -> String.eqb img "" = false ->
  write_component E m s = (Ok tt, s') ->
  exists s1 c,
    (s1 = s \/ s1 = update_fs (delete q (emptied q (fs s))) (EvRmtree q) s)
    /\ read_file E img (update_fs (<[q := Dir]> (fs s1)) (EvMkdir q) s1)
       = (Ok c, update_fs (<[q := Dir]> (fs s1)) (EvMkdir q) s1)
    /\ fs s' = <[q ++ ["index.md"] := File (index_md m)]>
                 (<[q ++ [basename img] := File c]> (<[q := Dir]> (fs s1))).
Proof.
  intros Hq0 Hp Himg Hne H. unfold write_component in H. fold (cpath_of m) in H.
  apply bind_Ok_inv in H as (ex & s0 & Hex & H).
  pose proof (is_dir_inv E _ _ _ _ Hex) as [-> _].
  apply bind_Ok_inv in H as ([] & s1 & Hrm & H).
  apply bind_Ok_inv in H as ([] & s2 & Hmk & H).
  apply bind_Ok_inv in H as ([] & s3 & Hcp & H).
  apply mkdir_Ok in Hmk as (q' & Hres1 & Hnone & Hpar & ->).
  pose proof (resolve_cpath E m _ _ Hp Hres1) as Hq'. rewrite <- Hq0 in Hq'. subst q'.
  assert (Hq : q <> []) by (intros Heq; rewrite Heq in Hnone; discriminate Hnone).
  set (s2 := update_fs (<[q := Dir]> (fs s1)) (EvMkdir q) s1) in *.
  assert (Hres2 : resolve E (fs s2) (path_str (cpath_of m)) = Some q).
  { eapply resolve_mono; [|exact Hres1]. intros k. apply dir_at_insert_Dir_mono. }
  rewrite Himg in Hcp. cbn [truthy] in Hcp. rewrite Hne in Hcp. cbn [negb] in Hcp.
  destruct (copy_into_dir_reads E img (cpath_of m) q s2 s3 (cpath_wf m) Hres2 Hq)
    as (c & Hread & ->); [apply dir_at_insert_Dir| |exact Hcp|].
  { apply dir_at_insert_Dir_mono, Hpar. }
  exists s1, c. split; [|split; [exact Hread|]].
  - destruct ex.
    + right. apply rmtree_Ok in Hrm as (q0 & Hres0 & _ & _ & ->).
      assert (q0 = q) by (eapply resolve_lexical; eauto). now subst q0.
    + left. now injection Hrm as <-.
  - rewrite index_path_eq in H.
    apply write_file_Ok in H as (idx & Hri & _ & _ & ->).
    rewrite (resolve_child_path E _ _ "index.md" (cpath_wf m) eq_refl) in Hri.
    match type of Hri with
    | match ?r with _ => _ end = _ => destruct r as [q3|] eqn:Hres3; [|discriminate]
    end.
    injection Hri as <-.
    assert (q3 = q) by (eapply resolve_lexical; eauto). subst q3. reflexivity.
Qed.

Lemma dir_at_same (m m' : gmap loc node) (k : loc) :
  m' !! k = m !! k -> dir_at m' k = dir_at m k.
Proof. intros H. unfold dir_at. destruct k; [reflexivity|]. now rewrite !fs_node_cons, H. Qed.

Lemma tmp_not_out (t : string) (k : loc) :
  tmp_loc E `prefix_of` k -> ~ (out_loc E ++ [t]) `prefix_of` k.
Proof.
  intros Htmp Hq. apply (out_not_tmp E k); [|exact Htmp].
  etransitivity; [|exact Hq]. now apply prefix_app_r.
Qed.

Lemma out_not_cwd (t : string) : ~ (out_loc E ++ [t]) `prefix_of` cwd E.
Proof.
  intros [e He]. apply (f_equal (@List.length string)) in He. unfold out_loc in He.
  rewrite !List.length_app in He. simpl in He. lia.
Qed.

(** The path the validator returns for the download [name]. *)
Lemma download_path name :
  cwd_plain E -> plain_name name = true ->
  let P := {| is_absolute := true; parts := tmp_loc E ++ [name] |} in
  (forall m, resolve E m (path_str P) = Some (tmp_loc E ++ [name]))
  /\ path_of_string (path_str P) = P
  /\ basename (path_str P) = name
  /\ String.eqb (path_str P) "" = false.
Proof.
  intros Hcwd Hn P.
  assert (Hplain : List.Forall (fun c => plain_name c = true) (parts P)).
  { cbn [P parts]. unfold tmp_loc. apply List.Forall_app. split.
    - apply List.Forall_app. split; [exact Hcwd|repeat constructor].
    - repeat constructor. exact Hn. }
  assert (Hwf : path_wf P).
  { eapply List.Forall_impl; [|exact Hplain]. intros c. unfold plain_name.
    rewrite andb_true_iff. tauto. }
  split; [|split; [|split]].
  - intros m. rewrite (resolve_path_str E _ _ Hwf). cbn [is_absolute P].
    now rewrite (walk_plain _ _ _ Hplain).
  - apply (path_of_string_path_str P Hwf eq_refl).
  - unfold basename. rewrite (split_path_str P Hwf). cbn [is_absolute P parts].
    destruct (tmp_loc E ++ [name]) as [|c l] eqn:Hl; [now apply child_ne_nil in Hl|].
    rewrite <- Hl. unfold Str.last_piece.
    change ([""] ++ tmp_loc E ++ [name]) with (("" :: tmp_loc E) ++ [name]).
    apply List.last_last.
  - reflexivity.
Qed.

(** [X13]: the way of a remote image through one turn of the loop, for a
    component with a plain key, a machine that is ready for the download, and
    a name drawn that is not [index.md]: the turn, when it completes, leaves
    the body of the response in the output directory as [<uuid>.<ext>], the
    page names that file in its [summaryImage] line, and the downloaded copy
    is gone from the temporary directory. *)
Theorem X13_remote_image_reaches_the_page comp_name members v body s s' :
  plain_name comp_name = true ->
  dict_get "image" members = Some (JStr v) ->
  Str.startswith v "http" = true -> http_get E v = HttpResponse 200 body ->
  download_ready E s v ->
  uuid4 E (draws s) +:+ "." +:+ Str.last_piece (Str.split_on "." v) <> "index.md" ->
  process_component E (comp_name, JObject members) s = (Ok tt, s') ->
  exists m,
    title m = comp_name
    /\ fs s' !! (out_loc E ++ [comp_name; "index.md"]) = Some (File (index_md m))
    /\ image_lines m
       = ["summaryImage: " +:+ uuid4 E (draws s) +:+ "."
                           +:+ Str.last_piece (Str.split_on "." v)]
    /\ fs s' !! (out_loc E ++ [comp_name; uuid4 E (draws s) +:+ "."
                                 +:+ Str.last_piece (Str.split_on "." v)])
       = Some (File body)
    /\ fs s' !! (tmp_loc E ++ [uuid4 E (draws s) +:+ "."
                               +:+ Str.last_piece (Str.split_on "." v)])
       = None.
Proof.
  intros Hp Himg Hh Hget Hready Hname H.
  apply process_component_Ok in H as (m & s1 & s2 & Hnew & Hw & Hrm). cbn [fst snd] in *.
  pose proof (CompModel_new_title E _ _ _ _ _ Hnew) as Ht. subst comp_name.
  destruct (_valid_image_remote_at E v body s Hh Hget Hready)
    as (s1' & Hv & Hfile & Hdc & Hdt).
  destruct Hready as (_ & Hcwd & _ & _ & Hu & Hslash & _).
  destruct (no_slash_suffix _ Hslash) as [Hhead _].
  pose proof (uuid_name_plain ("." +:+ Str.last_piece (Str.split_on "." v)) _ Hu) as Hn.
  rewrite Hhead in Hn.
  set (name := uuid4 E (draws s) +:+ "." +:+ Str.last_piece (Str.split_on "." v)) in *.
  destruct (download_path name Hcwd Hn) as (HresP & HrtP & HbaseP & HneP).
  set (P := {| is_absolute := true; parts := tmp_loc E ++ [name] |}) in *.
  assert (Him : image m = Some (path_str P) /\ s1 = s1').
  { unfold CompModel_new in Hnew. destruct (_ || _); [discriminate|].
    apply validate_model_Ok_inv in Hnew as (_ & _ & _ & _ & _ & _ & Hi & _).
    unfold optional_str_field in Hi. rewrite dict_get_cons_ne in Hi by reflexivity.
    rewrite Himg in Hi. cbn [str_validator] in Hi.
    apply catching_Ok_inr in Hi. rewrite Hv in Hi. now injection Hi as <- <-. }
  destruct Him as [Him <-].
  set (q := out_loc E ++ [title m]).
  destruct (write_component_with_image m _ q s1 s2 eq_refl Hp Him HneP Hw)
    as (s1w & c & Hs1w & Hread & Hfs2).
  rewrite HbaseP in Hfs2.
  assert (Htq : forall k, tmp_loc E `prefix_of` k -> ~ q `prefix_of` k).
  { intros k. apply tmp_not_out. }
  assert (Hkeep : forall k, ~ q `prefix_of` k -> fs s1w !! k = fs s1 !! k).
  { intros k Hk. destruct Hs1w as [->| ->]; [reflexivity|]. cbn [fs update_fs].
    rewrite lookup_delete_ne by (apply not_eq_sym, not_prefix_ne, Hk).
    apply emptied_outside, Hk. }
  assert (Hc : c = body).
  { unfold read_file in Hread. cbn [fs update_fs] in Hread.
    rewrite HresP, (fs_node_ne _ _ (child_ne_nil _ _)) in Hread.
    rewrite lookup_insert_ne in Hread
      by (apply not_eq_sym, not_prefix_ne, Htq; now apply prefix_app_r).
    rewrite Hkeep in Hread by (apply Htq; now apply prefix_app_r).
    rewrite Hfile in Hread. now injection Hread as <-. }
  subst c.
  assert (Hout2 : forall k, ~ q `prefix_of` k -> fs s2 !! k = fs s1 !! k).
  { intros k Hk. rewrite Hfs2.
    rewrite !lookup_insert_ne
      by first [apply not_eq_sym, not_prefix_child_ne, Hk
               |apply not_eq_sym, not_prefix_ne, Hk].
    apply Hkeep, Hk. }
  assert (Hs' : s' = update_fs (delete (tmp_loc E) (emptied (tmp_loc E) (fs s2)))
                       (EvRmtree (tmp_loc E)) s2).
  { apply remove_tmpdir_Ok in Hrm as [Hgone [->|Hs']]; [exfalso|exact Hs'].
    unfold is_dir in Hgone. rewrite resolve_tmpdir in Hgone.
    rewrite (dir_at_same (fs s1) (fs s2) (cwd E)) in Hgone
      by (apply Hout2, out_not_cwd).
    rewrite Hdc in Hgone.
    rewrite (dir_at_same (fs s1) (fs s2) (tmp_loc E)) in Hgone
      by (apply Hout2, Htq; reflexivity).
    rewrite Hdt in Hgone. discriminate Hgone. }
  assert (Hfinal : forall x, fs s' !! (q ++ [x]) = fs s2 !! (q ++ [x])).
  { intros x. rewrite Hs'. cbn [fs update_fs].
    assert (Hx : ~ tmp_loc E `prefix_of` (q ++ [x])).
    { apply out_not_tmp. unfold q. rewrite <- app_assoc. now apply prefix_app_r. }
    rewrite lookup_delete_ne by (apply not_eq_sym, not_prefix_ne, Hx).
    apply emptied_outside, Hx. }
  exists m. split; [reflexivity|].
  change [title m; "index.md"] with ([title m] ++ ["index.md"]).
  change [title m; name] with ([title m] ++ [name]).
  rewrite !app_assoc. fold q. split; [|split; [|split]].
  - rewrite Hfinal, Hfs2. apply lookup_insert_eq.
  - unfold image_lines. rewrite Him, HneP, HrtP. unfold path_name. cbn [P parts].
    now rewrite List.last_last.
  - rewrite Hfinal, Hfs2. rewrite lookup_insert_ne; [apply lookup_insert_eq|].
    intros Heq. apply app_inv_head in Heq. injection Heq as Heq. congruence.
  - rewrite Hs'. cbn [fs update_fs].
    rewrite lookup_delete_ne by (apply not_eq_sym, child_ne).
    apply emptied_below; [now apply prefix_app_r|apply child_ne].
Qed.

End RemoteImage.

(** ** The properties on the example world *)

Module WorldMore.

Lemma ready : download_ready World.E World.s0 "https://example.com/pic.png".
Proof.
  unfold download_ready. cbv zeta.
  split; [discriminate|]. split; [exact WorldFacts.cwd_plain|].
  split; [vm_compute; reflexivity|].
  split; [right; split; vm_compute; reflexivity|].
  split; [reflexivity|]. split; [reflexivity|]. vm_compute. reflexivity.
Qed.

Lemma batch_keys : List.NoDup (List.map fst World.batch).
Proof.
  repeat constructor; simpl; intuition discriminate.
Qed.

Lemma batch_plain item : In item World.batch -> plain_name (fst item) = true.
Proof. intros [<-|[<-|[]]]; reflexivity. Qed.

Lemma local_image v x :
  dict_get "image" World.local_members = Some v -> str_validator v = inr x ->
  Str.startswith x "http" = false.
Proof. intros Hv Hx. vm_compute in Hv. injection Hv as <-. injection Hx as <-. reflexivity. Qed.


Lemma foo_image_line l :
  In l (image_lines World.foo_model) -> single_line l = true.
Proof. intros [<-|[]]. reflexivity. Qed.

End WorldMore.


Lemma X2_witness :
  exists p s',
    random_file World.E 900 ".png" (Some tmpdir) true World.s_busy = (Ok p, s')
    /\ is_absolute p = dir_is_absolute (Some tmpdir)
    /\ exists n, parts p = dir_parts (Some tmpdir) ++ [uuid4 World.E n +:+ ".png"].
Proof.
  eexists _, _. split; [vm_compute; reflexivity|].
  eapply (X2_random_file_name World.E 900 ".png" (Some tmpdir) true World.s_busy).
  - exact WorldFacts.uuids_plain.
  - reflexivity.
  - vm_compute. reflexivity.
Defined.

Lemma X4_witness :
  format_field (render_fields (CompModel_dict World.foo_model)) "tags"
  = format_field (render_fields (CompModel_dict World.bar_model)) "tags"
  /\ tags World.foo_model = tags World.bar_model.
Proof.
  split; [reflexivity|].
  apply (X4_rendered_tags_determine_tags World.foo_model World.bar_model).
  reflexivity.
Defined.

Lemma X6_witness :
  Str.lines (index_md World.foo_model)
  = ["---"; "title: " +:+ title World.foo_model; "date: " +:+ date_text World.foo_model;
     "draft: true"; "hideLastModified: true"; "showInMenu: false"]
    ++ image_lines World.foo_model
    ++ ["summary: " +:+ summary World.foo_model; "link: " +:+ link World.foo_model;
        "tags: " +:+ tags_text World.foo_model; "---"].
Proof.
  apply (X6_index_md_lines World.foo_model); try reflexivity.
  exact WorldMore.foo_image_line.
Defined.

Lemma X7_witness :
  exists m s',
    CompModel_new World.E "Bar" (JObject World.bar_members) World.s0 = (Ok m, s')
    /\ title m = "Bar"
    /\ (forall k v, In (k, v) World.bar_members -> In k allowed_keys)
    /\ (exists body, http_get World.E (link m) = HttpResponse 200 body)
    /\ dict_get "tags" World.bar_members = Some (JList (List.map tag_json (tags m)))
    /\ match dict_get "date" World.bar_members with
       | None => date m = Some (today World.E)
       | Some _ => exists d, date m = Some d /\ strptime_ok World.E d = true
       end
    /\ (forall img, image m = Some img ->
          is_file World.E (path_of_string img) s' = (Ok true, s')).
Proof.
  eexists _, _. split; [vm_compute; reflexivity|].
  apply (X7_accepted_record_is_checked World.E "Bar" World.bar_members World.s0).
  - exact WorldFacts.cwd_plain.
  - vm_compute. reflexivity.
Defined.

Lemma X8_witness :
  exists r s',
    CompModel_new World.E "Foo" (JObject World.local_members) World.s0 = (r, s')
    /\ s' = World.s0.
Proof.
  eexists _, _. split; [vm_compute; reflexivity|].
  eapply (X8_validation_without_download_changes_nothing World.E "Foo" World.local_members
            World.s0).
  - exact WorldMore.local_image.
  - vm_compute. reflexivity.
Defined.

Lemma X9_witness :
  exists s',
    write_component World.E World.foo_model World.s_rerun = (Ok tt, s')
    /\ fs s' !! (out_loc World.E ++ [title World.foo_model]) = Some Dir
    /\ fs s' !! (out_loc World.E ++ [title World.foo_model; "index.md"])
       = Some (File (index_md World.foo_model))
    /\ forall k, ~ (out_loc World.E ++ [title World.foo_model]) `prefix_of` k ->
         fs s' !! k = fs World.s_rerun !! k.
Proof.
  eexists. split; [vm_compute; reflexivity|].
  apply (X9_writer_stays_in_its_directory World.E World.foo_model World.s_rerun).
  - reflexivity.
  - vm_compute. reflexivity.
Defined.

Lemma X10_witness :
  exists s',
    main World.E World.batch World.s0 = (Ok tt, s')
    /\ forall item, In item World.batch ->
         exists m, title m = fst item
           /\ fs s' !! (out_loc World.E ++ [fst item; "index.md"])
              = Some (File (index_md m)).
Proof.
  eexists. split; [vm_compute; reflexivity|].
  apply (X10_every_component_has_its_page World.E World.batch World.s0).
  - exact WorldFacts.uuids_plain.
  - exact WorldFacts.cwd_plain.
  - exact WorldMore.batch_keys.
  - exact WorldMore.batch_plain.
  - vm_compute. reflexivity.
Defined.



Lemma X13_witness :
  exists s',
    process_component World.E ("Bar", JObject World.bar_members) World.s0 = (Ok tt, s')
    /\ exists m,
         title m = "Bar"
         /\ fs s' !! (out_loc World.E ++ ["Bar"; "index.md"]) = Some (File (index_md m))
         /\ image_lines m
            = ["summaryImage: " +:+ uuid4 World.E (draws World.s0) +:+ "."
                 +:+ Str.last_piece (Str.split_on "." "https://example.com/pic.png")]
         /\ fs s' !! (out_loc World.E
                      ++ ["Bar"; uuid4 World.E (draws World.s0) +:+ "."
                            +:+ Str.last_piece (Str.split_on "." "https://example.com/pic.png")])
            = Some (File "IMG")
         /\ fs s' !! (tmp_loc World.E
                      ++ [uuid4 World.E (draws World.s0) +:+ "."
                            +:+ Str.last_piece (Str.split_on "." "https://example.com/pic.png")])
            = None.
Proof.
  eexists. split; [vm_compute; reflexivity|].
  apply (X13_remote_image_reaches_the_page World.E "Bar" World.bar_members
           "https://example.com/pic.png" "IMG" World.s0).
  - reflexivity.
  - reflexivity.
  - reflexivity.
  - reflexivity.
  - exact WorldMore.ready.
  - discriminate.
  - vm_compute. reflexivity.
Defined.
